(** * AmoCRM <-> Google Sheets bridge: a shallow embedding of [main.py]

    The development follows the source file top to bottom in spirit:
    Python text as lists of code points, the two backends (CRM over HTTP,
    spreadsheet API) as a deterministic state machine supplied by the
    environment, and every function that talks to a backend as a computation
    in a small state / error / trace monad. *)

From stdpp Require Import gmap list strings.
From Stdlib Require Import ZArith QArith.QArith_base DecimalString Lia.
From Stdlib Require DecimalPos DecimalFacts.

Local Open Scope Z_scope.

(** ** Python text *)

(** A Python [str] is a sequence of Unicode code points; [len] counts code
    points, so the model is a list of them. *)
Abbreviation pystr := (list N).

(** Source literals are ASCII, written here as Rocq strings. *)
Definition lit (s : string) : pystr :=
  map Ascii.N_of_ascii (String.list_ascii_of_string s).
Arguments lit : simpl never.

(** [str(n)] for a Python int that was read by [int] or from a JSON
    document, hence is within the length limit that [str] shares with
    [int].  For an int of any size, the price argument of
    [amo_create_lead], see [str_int] below. *)
Definition str_of_Z (z : Z) : pystr :=
  lit (NilZero.string_of_int (Z.to_int z)).

(** Python truthiness of a [str]: non-empty. *)
Definition truthy_str (s : pystr) : bool :=
  match s with [] => false | _ :: _ => true end.

Definition is_ascii_digit (c : N) : bool := ((48 <=? c) && (c <=? 57))%N.

(** Code points for which [str.isspace] holds, the set [str.strip()]
    removes: the ASCII controls 9-13 and 28-31, space, and the Unicode
    separators. *)
Definition is_space (c : N) : bool :=
  (((9 <=? c) && (c <=? 13)) || ((28 <=? c) && (c <=? 32))
   || (c =? 133) || (c =? 160) || (c =? 5760)
   || ((8192 <=? c) && (c <=? 8202))
   || (c =? 8232) || (c =? 8233) || (c =? 8239) || (c =? 8287)
   || (c =? 12288))%N.

Fixpoint drop_while {A} (p : A -> bool) (l : list A) : list A :=
  match l with
  | [] => []
  | x :: l' => if p x then drop_while p l' else l
  end.

Fixpoint take_while {A} (p : A -> bool) (l : list A) : list A :=
  match l with
  | [] => []
  | x :: l' => if p x then x :: take_while p l' else []
  end.

(** [s.strip()] *)
Definition lstrip (s : pystr) : pystr := drop_while is_space s.
Definition strip (s : pystr) : pystr := reverse (lstrip (reverse (lstrip s))).

(** The whitespace [int()] skips around a numeral: the same set without
    the separators 28-31. *)
Definition is_int_space (c : N) : bool :=
  is_space c && negb ((28 <=? c) && (c <=? 31))%N.

Definition int_strip (s : pystr) : pystr :=
  reverse (drop_while is_int_space (reverse (drop_while is_int_space s))).

(** [sub in s] for strings *)
Fixpoint is_prefix (p s : pystr) : bool :=
  match p, s with
  | [], _ => true
  | _ :: _, [] => false
  | a :: p', b :: s' => (a =? b)%N && is_prefix p' s'
  end.

Fixpoint contains (sub s : pystr) : bool :=
  is_prefix sub s ||
  match s with
  | [] => false
  | _ :: s' => contains sub s'
  end.

(** [s.split(sep)[0]] for a one-character separator: the text before the
    first occurrence of [sep] (all of [s] when there is none). *)
Definition split_head (sep : N) (s : pystr) : pystr :=
  take_while (fun c => negb (c =? sep)%N) s.

(** ** The part of the interpreter the code depends on

    [re]'s [\d] / [\D], [str.isdigit] and [int] consult the Unicode
    character database of the running interpreter, and [int] refuses
    numerals longer than [sys.get_int_max_str_digits()].  The ASCII part of
    the tables is fixed; the rest is a parameter of the development. *)
Record interp := {
  (** non-ASCII code points of category Nd (decimal digit) *)
  nd_extra : N -> bool;
  (** value 0..9 of such a code point *)
  nd_value : N -> Z;
  (** non-ASCII code points that are digits without being decimal
      (superscripts, circled digits, ...): [isdigit] holds, [int] rejects *)
  digit_extra : N -> bool;
  (** longest numeral [int] converts; 0 switches the limit off *)
  max_str_digits : nat
}.

Section Unicode.

Variable u : interp.

(** [\d] of a [str] pattern *)
Definition is_decimal (c : N) : bool := is_ascii_digit c || nd_extra u c.

Definition is_digit (c : N) : bool := is_decimal c || digit_extra u c.

(** [s.isdigit()]: non-empty and every character a digit *)
Definition isdigit (s : pystr) : bool :=
  truthy_str s && forallb is_digit s.

Definition decimal_value (c : N) : Z :=
  if is_ascii_digit c then Z.of_N c - 48 else nd_value u c.

(** [re.sub(r"\D+", "", raw)]: every maximal run of non-decimal
    characters is deleted, which leaves the decimal characters in order. *)
Definition re_sub_nondigits (raw : pystr) : pystr :=
  filter (fun c => is_decimal c = true) raw.

(** [normalize_phone] (main.py, 412-420) *)
Definition normalize_phone (raw : pystr) : pystr :=
  if negb (truthy_str raw) then []
  else
    let d := re_sub_nondigits raw in
    let d := if is_prefix (lit "8") d && (Z.of_nat (length d) =? 11)
             then lit "7" ++ drop 1 d else d in
    let d := if Z.of_nat (length d) =? 10 then lit "7" ++ d else d in
    d.

End Unicode.

(** An interpreter that knows the ASCII digits only, with the default
    limit of 4300 digits. *)
Definition ascii_db : interp :=
  {| nd_extra := fun _ => false; nd_value := fun _ => 0;
     digit_extra := fun _ => false; max_str_digits := 4300 |}.

(** ** Exceptions and results *)

Inductive exn :=
| HTTPError                      (* httpx.HTTPError raised by a request *)
| HTTPStatusError (status : Z)   (* raised by [raise_for_status] *)
| JSONDecodeError                (* [r.json()] on a body that is not JSON *)
| LookupError                    (* KeyError / IndexError on a response *)
| ValueError
| UnboundLocalError
| HttpError (msg : pystr)        (* googleapiclient HttpError, [str(e) = msg] *)
| HTTPException (detail : pystr) (* fastapi, from [ensure_credentials] *)
| OtherError.                    (* anything else a backend call raises *)

(** What running a piece of the program gives: a value, a raised
    exception, or (for the two unbounded [while True] loops only) the loop
    bound of the model was reached. *)
Inductive res (A : Type) :=
| Ok (a : A)
| Raise (e : exn)
| Fuel.
Arguments Ok {A} a.
Arguments Raise {A} e.
Arguments Fuel {A}.

(** ** CRM wire types

    The source annotates ids as [int] and reads a handful of keys of the
    JSON documents it receives; a document is modelled by the keys that are
    read, an absent key being the empty list / [None]. *)

Record custom_field := {
  field_code : option pystr;
  cf_values : list (option pystr)      (* [values[i].get("value")] *)
}.

Record contact_json := {
  c_id : Z;
  c_name : option pystr;
  c_custom_fields_values : list custom_field
}.

Record lead_json := {
  l_id : Z;
  l_status_id : option Z;
  l_price : option Z;
  l_contacts : list (option Z)         (* [_embedded.contacts[i].get("id")] *)
}.

Record status_json := { s_id : Z; s_name : pystr }.

Record body := {
  emb_contacts : list contact_json;    (* [_embedded.contacts] *)
  emb_leads : list lead_json;          (* [_embedded.leads] *)
  emb_statuses : list status_json;     (* [_embedded.statuses] *)
  links_next_href : option pystr       (* [_links.next.href] *)
}.

Record response := {
  status_code : Z;
  json : option body                   (* [None]: the body is not JSON *)
}.

Inductive http_method := GET | POST.

Inductive param_value := PStr (s : pystr) | PInt (z : Z).

Inductive payload :=
| NoPayload
| Params (ps : list (pystr * param_value))
| JsonContact (name : pystr) (custom_fields_values : list (pystr * pystr))
| JsonLead (price status_id pipeline_id contact_id : Z).

Record amo_req := {
  method : http_method;
  url : pystr;
  data : payload
}.

(** The headers (bearer token, content type) and the 30 s timeout are the
    same for every request and are left out. *)

(** One [httpx.request] / [httpx.post]: a response, an [httpx.HTTPError]
    (transport failure), or some other exception. *)
Inductive http_outcome :=
| Responded (r : response)
| TransportFailed
| HttpxOther.

(** ** Spreadsheet wire types *)

Inductive cell := CStr (s : pystr) | CInt (z : Z).

Inductive sheet_call :=
| ValuesGet (range : pystr)
| ValuesUpdate (range : pystr) (values : list (list cell))
| ValuesBatchUpdate (data : list (pystr * list (list cell)))
| ValuesAppend (range : pystr) (values : list (list cell)).

(** One [.execute()]: the result document (only its ["values"] key is
    read), an [HttpError] with its text, or some other exception. *)
Inductive sheet_outcome :=
| Executed (values : option (list (list pystr)))
| SheetHttpError (msg : pystr)
| SheetOther.

(** ** Configuration and backends *)

Record config := {
  SHEET_ID : pystr;
  SHEET_RANGE : pystr;
  AMO_BASE_URL : pystr;
  AMO_PIPELINE_ID : Z;
  AMO_STATUS_ID : Z
}.

(** The outside world: any deterministic state machine answering the
    requests of the program. *)
Record backend := {
  St : Type;
  httpx_request : amo_req -> St -> http_outcome * St;
  sheets_execute : sheet_call -> St -> sheet_outcome * St;
  ensure_credentials : St -> option exn * St
}.

(** What an observer of the process sees, in order. *)
Inductive event :=
| EvHttp (rq : amo_req)
| EvSheet (c : sheet_call)
| EvSleep (seconds : Q).

(** ** The monad: backend state, exceptions, trace of events *)

Section Monad.

Variable B : backend.

Definition M (A : Type) : Type := St B -> list event * res A * St B.

Definition ret {A} (a : A) : M A := fun s => ([], Ok a, s).

Definition raise {A} (e : exn) : M A := fun s => ([], Raise e, s).

Definition out_of_fuel {A} : M A := fun s => ([], Fuel, s).

Definition bind {A C} (m : M A) (k : A -> M C) : M C :=
  fun s =>
    match m s with
    | (t, Ok a, s') =>
        match k a s' with (t', r, s'') => (t ++ t', r, s'') end
    | (t, Raise e, s') => (t, Raise e, s')
    | (t, Fuel, s') => (t, Fuel, s')
    end.

Definition lift {A} (r : res A) : M A := fun s => ([], r, s).

Definition request (rq : amo_req) : M http_outcome :=
  fun s => let (o, s') := httpx_request B rq s in ([EvHttp rq], Ok o, s').

Definition execute (c : sheet_call) : M sheet_outcome :=
  fun s => let (o, s') := sheets_execute B c s in ([EvSheet c], Ok o, s').

Definition sleep (seconds : Q) : M unit :=
  fun s => ([EvSleep seconds], Ok tt, s).

(** [get_sheet_service]: builds the client from [ensure_credentials]. *)
Definition get_sheet_service : M unit :=
  fun s =>
    match ensure_credentials B s with
    | (None, s') => ([], Ok tt, s')
    | (Some e, s') => ([], Raise e, s')
    end.

End Monad.

Arguments ret {B A} a.
Arguments raise {B A} e.
Arguments out_of_fuel {B A}.
Arguments bind {B A C} m k.
Arguments lift {B A} r.
Arguments request {B} rq.
Arguments execute {B} c.
Arguments sleep {B} seconds.
Arguments get_sheet_service {B}.

Notation "x <- m ;; k" := (bind m (fun x => k))
  (at level 100, m at next level, right associativity).
Notation "m ;;; k" := (bind m (fun _ => k))
  (at level 100, right associativity).

(** ** Python helpers used by several functions *)

(** [range(0, n, step)] for a list length [n]. *)
Definition range_step (n : nat) (step : Z) : res (list nat) :=
  if step =? 0 then Raise ValueError
  else if step <? 0 then Ok []
  else
    let k := Z.to_nat step in
    Ok (map (fun j => (j * k)%nat) (seq 0 ((n + k - 1) / k)%nat)).

(** [[l[i : i + step] for i in range(0, len(l), step)]] *)
Definition chunks {A} (l : list A) (step : Z) : res (list (list A)) :=
  match range_step (length l) step with
  | Ok starts => Ok (map (fun i => take (Z.to_nat step) (drop i l)) starts)
  | Raise e => Raise e
  | Fuel => Fuel
  end.

(** [x or ""] for an optional string *)
Definition or_empty (o : option pystr) : pystr :=
  match o with Some s => s | None => [] end.

(** [x or 0] for an optional int *)
Definition or_zero (o : option Z) : Z :=
  match o with Some z => if z =? 0 then 0 else z | None => 0 end.

(** truthiness of an optional id: neither [None] nor [0] *)
Definition truthy_id (o : option Z) : bool :=
  match o with Some z => negb (z =? 0) | None => false end.

(** ** Records returned or built by the program *)

Record intake_row := {
  name : pystr;
  phone : pystr;
  email : pystr;
  budget : Z;
  deal_id : pystr
}.

Record created_entry := {
  row : Z;
  lead_id : Z;
  contact_id : Z
}.

Record push_summary := {
  created : list created_entry;
  checked_rows : nat
}.

Record contact_info := {
  ci_name : pystr;
  ci_phone : pystr;
  ci_email : pystr
}.

Record pull_summary := {
  updated : Z;
  inserted : Z;
  fetched : nat
}.

(** The two work lists of [sync_from_amocrm] with its two counters. *)
Record pull_plan := {
  updates : list (nat * list cell);
  appends : list (list cell);
  n_updated : Z;
  n_inserted : Z
}.

Section Program.

Variable u : interp.
Variable cfg : config.
Variable B : backend.

(** *** Resilient request executor *)

(** [r.raise_for_status()] of httpx: returns on 2xx, raises otherwise. *)
Definition raise_for_status (r : response) : M B unit :=
  if (200 <=? status_code r) && (status_code r <=? 299) then ret tt
  else raise (HTTPStatusError (status_code r)).

(** [r.json()] *)
Definition r_json (r : response) : M B body :=
  match json r with
  | Some b => ret b
  | None => raise JSONDecodeError
  end.

(** [r.status_code in (429,) or 500 <= r.status_code < 600] *)
Definition retry_status (status : Z) : bool :=
  (status =? 429) || ((500 <=? status) && (status <? 600)).

(** The [for attempt in range(5)] loop of [amo_request] (main.py,
    423-440); [r] is the local variable of that name, unbound at first. *)
Fixpoint amo_request_loop (attempts : list Z) (r : option response)
    (rq : amo_req) : M B response :=
  match attempts with
  | [] =>
      match r with
      | Some r => ret r
      | None => raise UnboundLocalError
      end
  | attempt :: rest =>
      o <- request rq ;;
      match o with
      | TransportFailed =>
          if attempt =? 4 then raise HTTPError
          else sleep (2 ^ attempt # 2) ;;; amo_request_loop rest r rq
      | HttpxOther => raise OtherError
      | Responded r' =>
          if retry_status (status_code r') then
            (if attempt =? 4 then raise_for_status r' else ret tt) ;;;
            sleep (2 ^ attempt # 2) ;;;
            amo_request_loop rest (Some r') rq
          else ret r'
      end
  end.

Definition amo_request (rq : amo_req) : M B response :=
  amo_request_loop [0; 1; 2; 3; 4] None rq.

(** The [while True] retry loop that [commit_sheet_changes] wraps around
    each batch request (main.py, 118-132 and 138-154, the same text
    twice). *)
Fixpoint execute_retrying (fuel : nat) (attempt : Z) (c : sheet_call)
    : M B unit :=
  match fuel with
  | O => out_of_fuel
  | S fuel' =>
      o <- execute c ;;
      match o with
      | Executed _ => ret tt
      | SheetHttpError msg =>
          if contains (lit "RATE_LIMIT_EXCEEDED") msg && (attempt <? 5)
          then sleep (2 ^ attempt # 1) ;;;
               execute_retrying fuel' (attempt + 1) c
          else raise (HttpError msg)
      | SheetOther => raise OtherError
      end
  end.

(** A plain [.execute()] with no handler around it. *)
Definition execute_once (c : sheet_call) : M B (option (list (list pystr))) :=
  o <- execute c ;;
  match o with
  | Executed v => ret v
  | SheetHttpError msg => raise (HttpError msg)
  | SheetOther => raise OtherError
  end.

(** *** Spreadsheet access *)

Definition sheet_name : pystr := split_head 33 (SHEET_RANGE cfg).

(** [read_rows] (main.py, 162-170); [read_sheet_all] is the same text. *)
Definition read_rows : M B (list (list pystr)) :=
  get_sheet_service ;;;
  v <- execute_once (ValuesGet (SHEET_RANGE cfg)) ;;
  ret (match v with Some rows => rows | None => [] end).

Definition read_sheet_all : M B (list (list pystr)) := read_rows.

(** [write_deal_id] (main.py, 173-181) *)
Definition write_deal_id (row_index_zero_based : nat) (deal : Z) : M B unit :=
  let target_range :=
    sheet_name ++ lit "!E" ++ str_of_Z (Z.of_nat row_index_zero_based + 2) in
  get_sheet_service ;;;
  execute_once (ValuesUpdate target_range [[CStr (str_of_Z deal)]]) ;;;
  ret tt.

(** *** CRM calls *)

(** [amo_find_contact] (main.py, 190-205) *)
Definition amo_find_contact (query : pystr) : M B (option Z) :=
  if negb (truthy_str query) then ret None
  else
    let q := if negb (contains (lit "@") query)
             then normalize_phone u query else query in
    let url := AMO_BASE_URL cfg ++ lit "/api/v4/contacts" in
    r <- amo_request
           {| method := GET; url := url;
              data := Params [(lit "query", PStr q)] |} ;;
    if status_code r =? 200 then
      b <- r_json r ;;
      match emb_contacts b with
      | c :: _ => ret (Some (c_id c))
      | [] => ret None
      end
    else ret None.

(** [amo_create_contact] (main.py, 208-221) *)
Definition amo_create_contact (name phone email : pystr) : M B Z :=
  let url := AMO_BASE_URL cfg ++ lit "/api/v4/contacts" in
  let nphone := normalize_phone u phone in
  let cfv :=
    (if truthy_str nphone then [(lit "PHONE", nphone)] else []) ++
    (if truthy_str email then [(lit "EMAIL", email)] else []) in
  r <- amo_request
         {| method := POST; url := url; data := JsonContact name cfv |} ;;
  raise_for_status r ;;;
  b <- r_json r ;;
  match emb_contacts b with
  | c :: _ => ret (c_id c)
  | [] => raise LookupError
  end.

(** Whether [str] prints the int [z]: a numeral of more than
    [sys.get_int_max_str_digits()] digits (the sign is not counted) is
    refused, as it is by [int]. *)
Definition within_str_limit (z : Z) : bool :=
  ((max_str_digits u =? 0)
   || (length (str_of_Z (Z.abs z)) <=? max_str_digits u))%nat.

(** [str(z)] for an int that can be of any size. *)
Definition str_int (z : Z) : res pystr :=
  if within_str_limit z then Ok (str_of_Z z) else Raise ValueError.

(** [amo_create_lead] (main.py, 224-240): the request is sent with
    [httpx.post] itself.  [str(price)] is evaluated while the payload is
    built, before anything is sent. *)
Definition amo_create_lead (price contact : Z) : M B Z :=
  let url := AMO_BASE_URL cfg ++ lit "/api/v4/leads" in
  text <- lift (str_int price) ;;
  let rq :=
    {| method := POST; url := url;
       data := JsonLead (if isdigit u text then price else 0)
                        (AMO_STATUS_ID cfg) (AMO_PIPELINE_ID cfg) contact |} in
  o <- request rq ;;
  match o with
  | TransportFailed => raise HTTPError
  | HttpxOther => raise OtherError
  | Responded r =>
      raise_for_status r ;;;
      b <- r_json r ;;
      match emb_leads b with
      | l :: _ => ret (l_id l)
      | [] => raise LookupError
      end
  end.

(** [get_status_map] (main.py, 243-248) *)
Definition get_status_map (pipeline_id : Z) : M B (gmap Z pystr) :=
  let url := AMO_BASE_URL cfg ++ lit "/api/v4/leads/pipelines/" ++
             str_of_Z pipeline_id ++ lit "/statuses" in
  r <- amo_request {| method := GET; url := url; data := NoPayload |} ;;
  raise_for_status r ;;;
  b <- r_json r ;;
  ret (foldl (fun m it => <[s_id it := s_name it]> m) ∅ (emb_statuses b)).

(** [fetch_leads_with_contacts] (main.py, 251-279): a [while True] loop
    over pages, which ends when the backend says so. *)
Fixpoint fetch_leads_loop (fuel : nat) (pipeline_id page : Z)
    (leads : list lead_json) : M B (list lead_json) :=
  match fuel with
  | O => out_of_fuel
  | S fuel' =>
      let url := AMO_BASE_URL cfg ++ lit "/api/v4/leads" in
      r <- amo_request
             {| method := GET; url := url;
                data := Params [(lit "filter[pipeline_id]", PInt pipeline_id);
                                (lit "with", PStr (lit "contacts"));
                                (lit "page", PInt page);
                                (lit "limit", PInt 50)] |} ;;
      raise_for_status r ;;;
      b <- r_json r ;;
      match emb_leads b with
      | [] => ret leads
      | batch =>
          let leads := leads ++ batch in
          if truthy_str (or_empty (links_next_href b))
          then fetch_leads_loop fuel' pipeline_id (page + 1) leads
          else ret leads
      end
  end.

Definition fetch_leads_with_contacts (fuel : nat) (pipeline_id : Z)
    : M B (list lead_json) :=
  fetch_leads_loop fuel pipeline_id 1 [].

(** The body of [for cf in c.get("custom_fields_values") or []]. *)
Definition scan_custom_field (acc : pystr * pystr) (cf : custom_field)
    : pystr * pystr :=
  let '(phone, email) := acc in
  let phone :=
    if bool_decide (field_code cf = Some (lit "PHONE")) then
      match cf_values cf with
      | v :: _ => normalize_phone u (or_empty v)
      | [] => phone
      end
    else phone in
  let email :=
    if bool_decide (field_code cf = Some (lit "EMAIL")) then
      match cf_values cf with
      | v :: _ => or_empty v
      | [] => email
      end
    else email in
  (phone, email).

Definition contact_info_of (c : contact_json) : contact_info :=
  let '(phone, email) :=
    foldl scan_custom_field ([], []) (c_custom_fields_values c) in
  {| ci_name := or_empty (c_name c); ci_phone := phone; ci_email := email |}.

Fixpoint fetch_contact_chunks (cs : list (list Z))
    (out : gmap Z contact_info) : M B (gmap Z contact_info) :=
  match cs with
  | [] => ret out
  | chunk :: rest =>
      let url := AMO_BASE_URL cfg ++ lit "/api/v4/contacts" in
      r <- amo_request
             {| method := GET; url := url;
                data := Params (map (fun cid => (lit "ids[]", PInt cid)) chunk) |} ;;
      raise_for_status r ;;;
      b <- r_json r ;;
      fetch_contact_chunks rest
        (foldl (fun m c => <[c_id c := contact_info_of c]> m) out
               (emb_contacts b))
  end.

(** [fetch_contacts_by_ids] (main.py, 282-312) *)
Definition fetch_contacts_by_ids (ids : list Z) : M B (gmap Z contact_info) :=
  match ids with
  | [] => ret ∅
  | _ => cs <- lift (chunks ids 50) ;; fetch_contact_chunks cs ∅
  end.

(** *** Batch commit planner *)

(** The [data] list built for one chunk of updates. *)
Definition update_data (chunk : list (nat * list cell))
    : list (pystr * list (list cell)) :=
  map (fun '(row_idx, values) =>
         let start_row := Z.of_nat row_idx + 2 in
         (sheet_name ++ lit "!A" ++ str_of_Z start_row ++
            lit ":F" ++ str_of_Z start_row,
          [values]))
      chunk.

Fixpoint send_all (fuel : nat) (calls : list sheet_call) : M B unit :=
  match calls with
  | [] => ret tt
  | c :: rest => execute_retrying fuel 0 c ;;; send_all fuel rest
  end.

(** [commit_sheet_changes] (main.py, 98-154) *)
Definition commit_sheet_changes (fuel : nat)
    (updates : list (nat * list cell)) (appends : list (list cell))
    (chunk_size : Z) : M B unit :=
  get_sheet_service ;;;
  ucs <- lift (chunks updates chunk_size) ;;
  send_all fuel (map (fun ch => ValuesBatchUpdate (update_data ch)) ucs) ;;;
  acs <- lift (chunks appends 500) ;;
  send_all fuel (map (ValuesAppend (sheet_name ++ lit "!A:F")) acs).

(** *** Pull reconciler *)

(** [lead_to_rowidx], the index of the sheet by deal reference. *)
Definition index_row (acc : gmap pystr nat * nat) (row : list pystr)
    : gmap pystr nat * nat :=
  let '(m, i) := acc in
  (match row !! 4%nat with
   | Some c => if truthy_str c then <[strip c := i]> m else m
   | None => m
   end, S i).

Definition lead_to_rowidx (rows : list (list pystr)) : gmap pystr nat :=
  fst (foldl index_row (∅, O) rows).

(** First loop over the leads: [contact_ids] and [lead_contact]. *)
Definition first_contact (L : lead_json) : option Z :=
  match l_contacts L with
  | c :: _ => c
  | [] => None
  end.

Definition collect_contact (acc : list Z * gmap Z (option Z)) (L : lead_json)
    : list Z * gmap Z (option Z) :=
  let '(contact_ids, lead_contact) := acc in
  let cid := first_contact L in
  ((if truthy_id cid then contact_ids ++ [default 0 cid] else contact_ids),
   <[l_id L := cid]> lead_contact).

(** Second loop over the leads, one step. *)
Definition empty_contact : contact_info :=
  {| ci_name := []; ci_phone := []; ci_email := [] |}.

Definition status_label (status_map : gmap Z pystr) (status_id : option Z)
    : pystr :=
  match status_id with
  | Some z => default (str_of_Z z) (status_map !! z)
  | None => lit "None"
  end.

Definition row_values_of (status_map : gmap Z pystr)
    (lead_contact : gmap Z (option Z)) (contacts_map : gmap Z contact_info)
    (L : lead_json) : res (list cell) :=
  let lead_id := str_of_Z (l_id L) in
  let status_name := status_label status_map (l_status_id L) in
  let price := or_zero (l_price L) in
  match lead_contact !! l_id L with
  | None => Raise LookupError
  | Some key =>
      let c := match key with
               | Some cid => default empty_contact (contacts_map !! cid)
               | None => empty_contact
               end in
      Ok [CStr (ci_name c); CStr (ci_phone c); CStr (ci_email c);
          CInt price; CStr lead_id; CStr status_name]
  end.

Definition plan_lead (index : gmap pystr nat) (status_map : gmap Z pystr)
    (lead_contact : gmap Z (option Z)) (contacts_map : gmap Z contact_info)
    (p : pull_plan) (L : lead_json) : res pull_plan :=
  match row_values_of status_map lead_contact contacts_map L with
  | Ok row_values =>
      match index !! str_of_Z (l_id L) with
      | Some i =>
          Ok {| updates := updates p ++ [(i, row_values)];
                appends := appends p;
                n_updated := n_updated p + 1;
                n_inserted := n_inserted p |}
      | None =>
          Ok {| updates := updates p;
                appends := appends p ++ [row_values];
                n_updated := n_updated p;
                n_inserted := n_inserted p + 1 |}
      end
  | Raise e => Raise e
  | Fuel => Fuel
  end.

Fixpoint plan_leads (index : gmap pystr nat) (status_map : gmap Z pystr)
    (lead_contact : gmap Z (option Z)) (contacts_map : gmap Z contact_info)
    (p : pull_plan) (leads : list lead_json) : res pull_plan :=
  match leads with
  | [] => Ok p
  | L :: rest =>
      match plan_lead index status_map lead_contact contacts_map p L with
      | Ok p' => plan_leads index status_map lead_contact contacts_map p' rest
      | Raise e => Raise e
      | Fuel => Fuel
      end
  end.

Definition empty_plan : pull_plan :=
  {| updates := []; appends := []; n_updated := 0; n_inserted := 0 |}.

(** [sync_from_amocrm] (main.py, 352-406) *)
Definition sync_from_amocrm (fuel : nat) : M B pull_summary :=
  rows <- read_sheet_all ;;
  let index := lead_to_rowidx rows in
  status_map <- get_status_map (AMO_PIPELINE_ID cfg) ;;
  leads <- fetch_leads_with_contacts fuel (AMO_PIPELINE_ID cfg) ;;
  let '(contact_ids, lead_contact) := foldl collect_contact ([], ∅) leads in
  contacts_map <- fetch_contacts_by_ids contact_ids ;;
  p <- lift (plan_leads index status_map lead_contact contacts_map
               empty_plan leads) ;;
  commit_sheet_changes fuel (updates p) (appends p) 100 ;;;
  ret {| updated := n_updated p; inserted := n_inserted p;
         fetched := length leads |}.

(** *** Push reconciler *)

(** [int(s)] where [s.strip().isdigit()] holds (so no sign, underscore or
    prefix occurs): [int] skips surrounding whitespace, though not the
    separators 28-31 that [strip] removes, and then wants a non-empty run of
    decimal digits within the length limit. *)
Definition int_of_digits (s : pystr) : res Z :=
  let t := int_strip s in
  if truthy_str t && forallb (is_decimal u) t
     && ((max_str_digits u =? 0) || (length t <=? max_str_digits u))%nat
  then Ok (foldl (fun acc c => 10 * acc + decimal_value u c) 0 t)
  else Raise ValueError.

(** [parse_row] (main.py, 443-455) *)
Definition parse_row (row : list pystr) : res intake_row :=
  let name := match row !! 0%nat with Some c => strip c | None => [] end in
  let phone := match row !! 1%nat with Some c => strip c | None => [] end in
  let email := match row !! 2%nat with Some c => strip c | None => [] end in
  let deal_id := match row !! 4%nat with Some c => strip c | None => [] end in
  match (match row !! 3%nat with
         | Some c => if isdigit u (strip c) then int_of_digits c else Ok 0
         | None => Ok 0
         end) with
  | Ok budget =>
      Ok {| name := name; phone := phone; email := email;
            budget := budget; deal_id := deal_id |}
  | Raise e => Raise e
  | Fuel => Fuel
  end.

(** The inner [for q in [data["email"], data["phone"]]] loop. *)
Fixpoint resolve_contact (queries : list pystr) : M B (option Z) :=
  match queries with
  | [] => ret None
  | q :: rest =>
      cid <- (if truthy_str q then amo_find_contact q else ret None) ;;
      if truthy_id cid then ret cid else resolve_contact rest
  end.

(** One iteration of the loop over [enumerate(rows)]. *)
Definition process_row (idx : nat) (r : list pystr)
    (created : list created_entry) : M B (list created_entry) :=
  data <- lift (parse_row r) ;;
  if truthy_str (deal_id data) then ret created
  else
    found <- resolve_contact [email data; phone data] ;;
    contact <- (if truthy_id found then ret (default 0 found)
                else amo_create_contact (name data) (phone data)
                                        (email data)) ;;
    lead <- amo_create_lead (budget data) contact ;;
    write_deal_id idx lead ;;;
    ret (created ++ [{| row := Z.of_nat idx + 2; lead_id := lead;
                        contact_id := contact |}]).

Fixpoint process_rows (idx : nat) (rows : list (list pystr))
    (created : list created_entry) : M B (list created_entry) :=
  match rows with
  | [] => ret created
  | r :: rest =>
      created' <- process_row idx r created ;;
      process_rows (S idx) rest created'
  end.

(** [process_new_rows] (main.py, 458-477) *)
Definition process_new_rows : M B push_summary :=
  rows <- read_rows ;;
  created <- process_rows 0 rows [] ;;
  ret {| created := created; checked_rows := length rows |}.

End Program.

(** ** [normalize_phone] as the specification words it *)

(** Strip non-digits; 11 digits starting with the trunk prefix 8: replace
    it by 7; exactly 10 digits: prepend 7; otherwise unchanged. *)
Definition normalize_phone_spec (u : interp) (raw : pystr) : pystr :=
  let d := filter (fun c => is_decimal u c = true) raw in
  if bool_decide (length d = 11%nat ∧ head d = Some 56%N)
  then 55%N :: tail d
  else if bool_decide (length d = 10%nat) then 55%N :: d
  else d.

(** ** A scripted backend

    Answers are read off two queues, one per service; an exhausted queue
    answers with a transport failure, respectively an empty result
    document.  Credentials are always valid. *)
Record script := {
  http_script : list http_outcome;
  sheet_script : list sheet_outcome
}.

Definition scripted : backend :=
  {| St := script;
     httpx_request := fun _ s =>
       match http_script s with
       | o :: rest =>
           (o, {| http_script := rest; sheet_script := sheet_script s |})
       | [] => (TransportFailed, s)
       end;
     sheets_execute := fun _ s =>
       match sheet_script s with
       | o :: rest =>
           (o, {| http_script := http_script s; sheet_script := rest |})
       | [] => (Executed None, s)
       end;
     ensure_credentials := fun s => (None, s) |}.

Definition demo_cfg : config :=
  {| SHEET_ID := lit "sheet-1";
     SHEET_RANGE := lit "Leads!A2:F";
     AMO_BASE_URL := lit "https://example.amocrm.ru";
     AMO_PIPELINE_ID := 8237934;
     AMO_STATUS_ID := 67260282 |}.

Definition empty_body : body :=
  {| emb_contacts := []; emb_leads := []; emb_statuses := [];
     links_next_href := None |}.

Definition resp (status : Z) (b : body) : http_outcome :=
  Responded {| status_code := status; json := Some b |}.

(** ** Reading traces and backends *)

Definition is_http (e : event) : bool :=
  match e with EvHttp _ => true | _ => false end.

Definition is_sheet (e : event) : bool :=
  match e with EvSheet _ => true | _ => false end.

(** Number of requests sent to the CRM, respectively to the spreadsheet. *)
Definition http_attempts (t : list event) : nat := length (List.filter is_http t).
Definition sheet_attempts (t : list event) : nat := length (List.filter is_sheet t).

(** The answers the CRM gives to [n] consecutive sends of [rq]. *)
Fixpoint replay_http (B : backend) (rq : amo_req) (n : nat) (s : St B)
    : list http_outcome :=
  match n with
  | O => []
  | S n' =>
      let (o, s') := httpx_request B rq s in o :: replay_http B rq n' s'
  end.

Fixpoint replay_sheet (B : backend) (c : sheet_call) (n : nat) (s : St B)
    : list sheet_outcome :=
  match n with
  | O => []
  | S n' =>
      let (o, s') := sheets_execute B c s in o :: replay_sheet B c n' s'
  end.

(** Outcomes after which [amo_request] tries again. *)
Definition retryable_outcome (o : http_outcome) : bool :=
  match o with
  | Responded r => retry_status (status_code r)
  | TransportFailed => true
  | HttpxOther => false
  end.

(** What the caller of [amo_request] gets for the last outcome. *)
Definition surfaced (o : http_outcome) : res response :=
  match o with
  | Responded r =>
      if retry_status (status_code r)
      then Raise (HTTPStatusError (status_code r)) else Ok r
  | TransportFailed => Raise HTTPError
  | HttpxOther => Raise OtherError
  end.

(** [k] failed sends of [rq], each followed by its pause, attempts numbered
    from [a]. *)
Definition amo_retries (rq : amo_req) (a k : nat) : list event :=
  flat_map (fun i => [EvHttp rq; EvSleep (2 ^ Z.of_nat i # 2)]) (seq a k).

Definition rate_limited (o : sheet_outcome) : bool :=
  match o with
  | SheetHttpError msg => contains (lit "RATE_LIMIT_EXCEEDED") msg
  | _ => false
  end.

Definition sheet_surfaced (o : sheet_outcome) : res unit :=
  match o with
  | Executed _ => Ok tt
  | SheetHttpError msg => Raise (HttpError msg)
  | SheetOther => Raise OtherError
  end.

Definition sheet_retries (c : sheet_call) (a k : nat) : list event :=
  flat_map (fun i => [EvSheet c; EvSleep (2 ^ Z.of_nat i # 1)]) (seq a k).

Definition trace_of {A S : Type} (x : list event * res A * S) : list event :=
  x.1.1.

Definition result_of {A S : Type} (x : list event * res A * S) : res A :=
  x.1.2.

(** A spreadsheet answer carrying the quota error text. *)
Definition quota_error : sheet_outcome :=
  SheetHttpError (lit "<HttpError 429 RATE_LIMIT_EXCEEDED>").

(** Five quota errors, then the write goes through. *)
Definition quota_then_ok : script :=
  {| http_script := [];
     sheet_script := repeat quota_error 5 ++ [Executed None] |}.

(** The events of executing [calls] one after the other, the i-th one
    retried [ks !! i] times. *)
Definition blocks (calls : list sheet_call) (ks : list nat) : list event :=
  flat_map (fun '(c, k) => sheet_retries c 0 k ++ [EvSheet c]) (zip calls ks).

(** The A..F range of a sheet row, as [commit_sheet_changes] writes it. *)
Definition row_range (cfg : config) (sheet_row : Z) : pystr :=
  sheet_name cfg ++ lit "!A" ++ str_of_Z sheet_row ++
    lit ":F" ++ str_of_Z sheet_row.

(** Slices of length [k] taken every [k] positions, [m] of them. *)
Definition slices {A} (k : nat) (l : list A) (m : nat) : list (list A) :=
  map (fun j => take k (drop (j * k) l)) (seq 0 m).

(** 250 updates, row [i] receiving its own number in column A. *)
Definition demo_updates : list (nat * list cell) :=
  map (fun i => (i, [CStr (str_of_Z (Z.of_nat i))])) (seq 0 250).

Definition idle : script := {| http_script := []; sheet_script := [] |}.

(** Kind and size of a batch request, for reading a trace at a glance. *)
Inductive batch_kind := Update | Append.

Definition batch_shape (e : event) : option (batch_kind * nat) :=
  match e with
  | EvSheet (ValuesBatchUpdate data) => Some (Update, length data)
  | EvSheet (ValuesAppend _ values) => Some (Append, length values)
  | _ => None
  end.

(** A sheet whose two rows are both linked to deals already. *)
Definition linked_rows : list (list pystr) :=
  [[lit "Jane Doe"; lit "89991234567"; lit ""; lit "1500"; lit "555"];
   [lit "Ivan"; lit ""; lit "ivan@example.com"; lit ""; lit " 777 "]].

Definition linked_sheet : script :=
  {| http_script := []; sheet_script := [Executed (Some linked_rows)] |}.

(** ** The requests of the push path *)

(** The contact search [amo_find_contact] sends for [query]. *)
Definition lookup_req (u : interp) (cfg : config) (query : pystr) : amo_req :=
  {| method := GET;
     url := AMO_BASE_URL cfg ++ lit "/api/v4/contacts";
     data := Params [(lit "query",
                      PStr (if contains (lit "@") query then query
                            else normalize_phone u query))] |}.

(** The contact creation [amo_create_contact] sends for a parsed row. *)
Definition create_contact_req (u : interp) (cfg : config)
    (d : intake_row) : amo_req :=
  {| method := POST;
     url := AMO_BASE_URL cfg ++ lit "/api/v4/contacts";
     data := JsonContact (name d)
       ((if truthy_str (normalize_phone u (phone d))
         then [(lit "PHONE", normalize_phone u (phone d))] else []) ++
        (if truthy_str (email d) then [(lit "EMAIL", email d)] else [])) |}.

(** The deal creation [amo_create_lead] sends. *)
Definition create_lead_req (u : interp) (cfg : config)
    (price contact : Z) : amo_req :=
  {| method := POST;
     url := AMO_BASE_URL cfg ++ lit "/api/v4/leads";
     data := JsonLead (if isdigit u (str_of_Z price) then price else 0)
                      (AMO_STATUS_ID cfg) (AMO_PIPELINE_ID cfg) contact |}.

(** What [amo_find_contact] makes of the response it is handed. *)
Definition lookup_result (r : response) : res (option Z) :=
  if status_code r =? 200 then
    match json r with
    | Some b => Ok (c_id <$> head (emb_contacts b))
    | None => Raise JSONDecodeError
    end
  else Ok None.

(** A backend that gives the same answer to every CRM request and accepts
    every spreadsheet call. *)
Definition constant_backend (o : http_outcome) : backend :=
  {| St := unit;
     httpx_request := fun _ s => (o, s);
     sheets_execute := fun _ s => (Executed None, s);
     ensure_credentials := fun s => (None, s) |}.

Definition forbidden : http_outcome := resp 403 empty_body.

Definition contact_body (id : Z) : body :=
  {| emb_contacts := [{| c_id := id; c_name := None;
                         c_custom_fields_values := [] |}];
     emb_leads := []; emb_statuses := []; links_next_href := None |}.

Definition lead_body (id : Z) : body :=
  {| emb_contacts := [];
     emb_leads := [{| l_id := id; l_status_id := None; l_price := None;
                      l_contacts := [] |}];
     emb_statuses := []; links_next_href := None |}.

(** A row whose e-mail cell was typed without the at sign. *)
Definition mistyped_row : list pystr :=
  [lit "Ivan"; lit ""; lit "ivan2024.example.com"].

Definition mistyped_sheet : script :=
  {| http_script := [resp 200 (contact_body 42); resp 200 (lead_body 900)];
     sheet_script := [Executed (Some [mistyped_row]); Executed None] |}.

(** Two separate contacts: 42 is found by e-mail, 43 by phone. *)
Definition two_matches : script :=
  {| http_script := [resp 200 (contact_body 42); resp 200 (contact_body 43)];
     sheet_script := [] |}.

(** The row of the specification's example scenario. *)
Definition jane_row : list pystr :=
  [lit "Jane Doe"; lit "89991234567"; lit ""; lit ""].

Definition jane : intake_row :=
  {| name := lit "Jane Doe"; phone := lit "89991234567"; email := [];
     budget := 0; deal_id := [] |}.

Definition too_many_requests : http_outcome := resp 429 empty_body.

(** The CRM is briefly rate limited: the contact creation and the deal
    creation each meet one 429 before the answer they would get. *)
Definition rate_limited_crm : script :=
  {| http_script := [resp 200 empty_body;          (* search by phone: no match *)
                     too_many_requests;            (* POST /contacts *)
                     resp 200 (contact_body 11);   (* POST /contacts again *)
                     too_many_requests;            (* POST /leads *)
                     resp 200 (lead_body 900)];    (* never asked for *)
     sheet_script := [Executed (Some [jane_row])] |}.

(** ** The pull plan as the specification words it *)

(** The deal reference a sheet row is indexed under: its 5th cell, trimmed,
    when that cell exists and is non-empty. *)
Definition row_key (r : list pystr) : option pystr :=
  match r !! 4%nat with
  | Some c => if truthy_str c then Some (strip c) else None
  | None => None
  end.

(** The 6-field row of a deal: name, phone, e-mail of its contact, price
    (0 when absent), deal id as a string, status label or else the status
    id as a string. *)
Definition pull_row (status_map : gmap Z pystr)
    (lead_contact : gmap Z (option Z)) (contacts_map : gmap Z contact_info)
    (L : lead_json) : list cell :=
  let c := match lead_contact !! l_id L with
           | Some (Some cid) => default empty_contact (contacts_map !! cid)
           | _ => empty_contact
           end in
  [CStr (ci_name c); CStr (ci_phone c); CStr (ci_email c);
   CInt (default 0 (l_price L));
   CStr (str_of_Z (l_id L));
   CStr (match l_status_id L with
         | Some z => default (str_of_Z z) (status_map !! z)
         | None => lit "None"
         end)].

(** The deals whose id is in the index, each with the row index found, and
    the deals whose id is not. *)
Definition planned_updates (index : gmap pystr nat)
    (rv : lead_json -> list cell) (leads : list lead_json)
    : list (nat * list cell) :=
  omap (fun L => (fun i => (i, rv L)) <$> index !! str_of_Z (l_id L)) leads.

Definition planned_appends (index : gmap pystr nat)
    (rv : lead_json -> list cell) (leads : list lead_json)
    : list (list cell) :=
  omap (fun L => match index !! str_of_Z (l_id L) with
                 | Some _ => None
                 | None => Some (rv L)
                 end) leads.

(** ** A pull scenario

    The pipeline holds deal 555 (status 67260282, labelled "In progress",
    contact 11, no price) and deal 777 (status 999 without label, price
    2500, no contact); the sheet has one row, linked to deal 777. *)
Definition pull_statuses : body :=
  {| emb_contacts := []; emb_leads := [];
     emb_statuses := [{| s_id := 67260282; s_name := lit "In progress" |}];
     links_next_href := None |}.

Definition pull_leads : list lead_json :=
  [{| l_id := 555; l_status_id := Some 67260282; l_price := None;
      l_contacts := [Some 11] |};
   {| l_id := 777; l_status_id := Some 999; l_price := Some 2500;
      l_contacts := [] |}].

Definition pull_leads_page : body :=
  {| emb_contacts := []; emb_leads := pull_leads; emb_statuses := [];
     links_next_href := None |}.

Definition pull_contacts : body :=
  {| emb_contacts :=
       [{| c_id := 11; c_name := Some (lit "Jane Doe");
           c_custom_fields_values :=
             [{| field_code := Some (lit "PHONE");
                 cf_values := [Some (lit "8 (999) 123-45-67")] |};
              {| field_code := Some (lit "EMAIL");
                 cf_values := [Some (lit "jane@example.com")] |}] |}];
     emb_leads := []; emb_statuses := []; links_next_href := None |}.

Definition pull_rows : list (list pystr) :=
  [[lit "Ivan"; lit ""; lit "ivan@example.com"; lit ""; lit " 777 "]].

Definition pull_world : script :=
  {| http_script := [resp 200 pull_statuses; resp 200 pull_leads_page;
                     resp 200 pull_contacts];
     sheet_script := [Executed (Some pull_rows)] |}.

Definition pull_status_map : gmap Z pystr :=
  {[ 67260282 := lit "In progress" ]}.

Definition pull_contacts_map : gmap Z contact_info :=
  {[ 11 := {| ci_name := lit "Jane Doe"; ci_phone := lit "79991234567";
              ci_email := lit "jane@example.com" |} ]}.

Definition row_555 : list cell :=
  [CStr (lit "Jane Doe"); CStr (lit "79991234567");
   CStr (lit "jane@example.com"); CInt 0; CStr (lit "555");
   CStr (lit "In progress")].

Definition row_777 : list cell :=
  [CStr []; CStr []; CStr []; CInt 2500; CStr (lit "777"); CStr (lit "999")].

(** ** Decimal numerals

    The value of a numeral of [Decimal.uint] read from the left with an
    accumulator, the way [int] reads digits. *)
Fixpoint uint_value (acc : Z) (d : Decimal.uint) : Z :=
  match d with
  | Decimal.Nil => acc
  | Decimal.D0 d => uint_value (10 * acc + 0) d
  | Decimal.D1 d => uint_value (10 * acc + 1) d
  | Decimal.D2 d => uint_value (10 * acc + 2) d
  | Decimal.D3 d => uint_value (10 * acc + 3) d
  | Decimal.D4 d => uint_value (10 * acc + 4) d
  | Decimal.D5 d => uint_value (10 * acc + 5) d
  | Decimal.D6 d => uint_value (10 * acc + 6) d
  | Decimal.D7 d => uint_value (10 * acc + 7) d
  | Decimal.D8 d => uint_value (10 * acc + 8) d
  | Decimal.D9 d => uint_value (10 * acc + 9) d
  end.

(** Seconds spent in [sleep] along a trace, and the number of pauses. *)
Fixpoint total_sleep (t : list event) : Q :=
  match t with
  | [] => 0
  | EvSleep q :: t' => q + total_sleep t'
  | _ :: t' => total_sleep t'
  end.

Definition is_sleep (e : event) : bool :=
  match e with EvSleep _ => true | _ => false end.

Definition pauses (t : list event) : nat := length (List.filter is_sleep t).

(** ** Kinds of events *)

(** Spreadsheet calls that change the sheet (everything but the read). *)
Definition is_write (e : event) : bool :=
  match e with
  | EvSheet (ValuesGet _) => false
  | EvSheet _ => true
  | _ => false
  end.

(** The sheet-changing calls of a trace, in order. *)
Definition sheet_writes (t : list event) : list sheet_call :=
  omap (fun e => match e with
                 | EvSheet (ValuesGet _) => None
                 | EvSheet c => Some c
                 | _ => None
                 end) t.

(** The single-cell write [write_deal_id] makes for a created entry. *)
Definition write_back (cfg : config) (e : created_entry) : sheet_call :=
  ValuesUpdate (sheet_name cfg ++ lit "!E" ++ str_of_Z (row e))
               [[CStr (str_of_Z (lead_id e))]].

(** Sheet row numbers of the rows that parse and carry no deal reference,
    rows being numbered from [idx]. *)
Fixpoint unresolved_rows (u : interp) (idx : nat) (rows : list (list pystr))
    : list Z :=
  match rows with
  | [] => []
  | r :: rest =>
      match parse_row u r with
      | Ok d =>
          if truthy_str (deal_id d) then unresolved_rows u (S idx) rest
          else (Z.of_nat idx + 2) :: unresolved_rows u (S idx) rest
      | _ => unresolved_rows u (S idx) rest
      end
  end.

(** A sheet with one linked row and one new row, and a CRM that knows no
    contact for the new row. *)
Definition push_rows : list (list pystr) :=
  [[lit "Ivan"; lit ""; lit "ivan@example.com"; lit ""; lit "777"]; jane_row].

Definition push_world : script :=
  {| http_script := [resp 200 empty_body; resp 200 (contact_body 11);
                     resp 200 (lead_body 900)];
     sheet_script := [Executed (Some push_rows)] |}.

Definition push_outcome : push_summary :=
  {| created := [{| row := 3; lead_id := 900; contact_id := 11 |}];
     checked_rows := 2 |}.

(** The batched contact request of [fetch_contacts_by_ids] for one chunk. *)
Definition ids_req (cfg : config) (chunk : list Z) : amo_req :=
  {| method := GET;
     url := AMO_BASE_URL cfg ++ lit "/api/v4/contacts";
     data := Params (map (fun cid => (lit "ids[]", PInt cid)) chunk) |}.

(** The statuses request of [get_status_map]. *)
Definition statuses_req (cfg : config) (pipeline_id : Z) : amo_req :=
  {| method := GET;
     url := AMO_BASE_URL cfg ++ lit "/api/v4/leads/pipelines/" ++
            str_of_Z pipeline_id ++ lit "/statuses";
     data := NoPayload |}.

(** The request [fetch_leads_with_contacts] sends for one page. *)
Definition leads_req (cfg : config) (pipeline_id page : Z) : amo_req :=
  {| method := GET;
     url := AMO_BASE_URL cfg ++ lit "/api/v4/leads";
     data := Params [(lit "filter[pipeline_id]", PInt pipeline_id);
                     (lit "with", PStr (lit "contacts"));
                     (lit "page", PInt page);
                     (lit "limit", PInt 50)] |}.

(** A page after which the loop of [fetch_leads_with_contacts] goes on:
    it has deals and a [next] link. *)
Definition has_next (b : body) : Prop :=
  emb_leads b ≠ [] ∧ truthy_str (or_empty (links_next_href b)) = true.

(** A page at which the loop stops: no deals, or no [next] link. *)
Definition is_last (b : body) : Prop :=
  emb_leads b = [] ∨ truthy_str (or_empty (links_next_href b)) = false.

(** A CRM that answers the coming requests with the given pages. *)
Definition serving (pages : list body) (then_ : list http_outcome)
    (sheet : list sheet_outcome) : script :=
  {| http_script := map (resp 200) pages ++ then_; sheet_script := sheet |}.

(** The [custom_fields_values] of a contact as the CRM hands them back,
    when it stores what [amo_create_contact] sent: each
    [{"field_code": code, "values": [{"value": v}]}] as it is. *)
Definition stored_fields (cfv : list (pystr * pystr)) : list custom_field :=
  map (fun '(code, v) => {| field_code := Some code; cf_values := [Some v] |})
      cfv.

(** The contact the CRM holds after a creation request. *)
Definition stored_contact (id : Z) (rq : amo_req) : option contact_json :=
  match data rq with
  | JsonContact name cfv =>
      Some {| c_id := id; c_name := Some name;
              c_custom_fields_values := stored_fields cfv |}
  | _ => None
  end.

(** The chunk requests of one run of [fetch_contacts_by_ids], answered one
    after the other from state [s] on: the request for each chunk of [cs]
    came back, after the retries of [amo_request], with a success status
    and the JSON document at the same place of [bs]; [t] is what was sent
    and slept meanwhile and [s'] the state left. *)
Fixpoint answered (cfg : config) (B : backend) (cs : list (list Z))
    (bs : list body) (s : St B) (t : list event) (s' : St B) : Prop :=
  match cs, bs with
  | [], [] => t = [] ∧ s' = s
  | ch :: cs', b :: bs' =>
      ∃ t1 r s1 t2,
        amo_request B (ids_req cfg ch) s = (t1, Ok r, s1)
        ∧ 200 <= status_code r <= 299
        ∧ json r = Some b
        ∧ t = t1 ++ t2
        ∧ answered cfg B cs' bs' s1 t2 s'
  | _, _ => False
  end.

(** * Properties *)

(** ** Contact normalizer *)

Section NormalizePhone.

Variable u : interp.

Local Abbreviation P := (fun c => is_decimal u c = true).

Lemma is_decimal_7 : is_decimal u 55 = true.
Proof. reflexivity. Qed.

Lemma filter_decimal_id (d : pystr) :
  Forall P d -> filter P d = d.
Proof.
  induction 1 as [|c d Hc _ IH]; [done|].
  rewrite filter_cons. destruct (decide _); [by rewrite IH | done].
Qed.

Lemma Forall_filter_decimal (raw : pystr) : Forall P (filter P raw).
Proof. apply Forall_forall. intros c Hc. by apply list_elem_of_filter in Hc as [? _]. Qed.

Lemma is_prefix_8 (d : pystr) :
  is_prefix (lit "8") d = bool_decide (head d = Some 56%N).
Proof.
  change (lit "8") with [56%N].
  destruct d as [|c d]; [done|]. cbn [is_prefix head].
  rewrite andb_true_r.
  destruct (N.eqb_spec 56 c) as [<-|Hne].
  - by rewrite bool_decide_eq_true_2.
  - rewrite bool_decide_eq_false_2; [done|]. intros [= ->]. done.
Qed.

Lemma normalize_phone_unfold (raw : pystr) :
  normalize_phone u raw = normalize_phone_spec u raw.
Proof.
  unfold normalize_phone, normalize_phone_spec, re_sub_nondigits.
  destruct raw as [|c raw]; [done|].
  cbn [truthy_str negb].
  set (d := filter P (c :: raw)). clearbody d.
  rewrite is_prefix_8.
  destruct (decide (length d = 11%nat)) as [H11|H11].
  - replace (Z.of_nat (length d) =? 11) with true
      by (symmetry; apply Z.eqb_eq; lia).
    rewrite andb_true_r.
    destruct (decide (head d = Some 56%N)) as [H8|H8].
    + rewrite !bool_decide_eq_true_2 by done.
      destruct d as [|x d]; [done|]. cbn in H11.
      change (lit "7") with [55%N].
      cbn [app tail length]. rewrite skipn_cons, drop_0.
      cbn [length].
      replace (Z.of_nat (S (length d)) =? 10) with false; [done|].
      symmetry. apply Z.eqb_neq. lia.
    + rewrite (bool_decide_eq_false_2 (head d = Some 56%N)) by done.
      rewrite bool_decide_eq_false_2 by tauto.
      rewrite H11. change (Z.of_nat 11 =? 10) with false.
      rewrite bool_decide_eq_false_2 by lia. done.
  - replace (Z.of_nat (length d) =? 11) with false
      by (symmetry; apply Z.eqb_neq; lia).
    rewrite andb_false_r.
    rewrite (bool_decide_eq_false_2 (_ ∧ _)) by tauto.
    destruct (decide (length d = 10%nat)) as [H10|H10].
    + rewrite H10. change (Z.of_nat 10 =? 10) with true.
      rewrite bool_decide_eq_true_2 by done. done.
    + replace (Z.of_nat (length d) =? 10) with false
        by (symmetry; apply Z.eqb_neq; lia).
      by rewrite bool_decide_eq_false_2.
Qed.

Lemma normalize_phone_spec_digits (raw : pystr) :
  Forall P (normalize_phone_spec u raw).
Proof.
  unfold normalize_phone_spec.
  pose proof (Forall_filter_decimal raw) as Hd.
  set (d := filter P raw) in *. clearbody d.
  repeat case_bool_decide.
  - constructor; [apply is_decimal_7|].
    destruct d; [done|]. by inversion Hd.
  - constructor; [apply is_decimal_7|done].
  - done.
Qed.

(** A digit string that is already in normal form is left alone. *)
Lemma normalize_phone_spec_fixed (d : pystr) :
  Forall P d ->
  length d ≠ 10%nat ->
  ¬ (length d = 11%nat ∧ head d = Some 56%N) ->
  normalize_phone_spec u d = d.
Proof.
  intros Hd H10 H11. unfold normalize_phone_spec.
  rewrite (filter_decimal_id d Hd).
  rewrite (bool_decide_eq_false_2 (_ ∧ _)) by done.
  by rewrite bool_decide_eq_false_2.
Qed.

End NormalizePhone.

(** C5. [normalize_phone] keeps exactly the decimal digits of its input, in
    order; when 11 digits remain and the first is 8 that digit becomes 7;
    when exactly 10 remain a 7 is put in front; in every other case the
    digit string is the result.  The empty input gives the empty string,
    and the function is defined on every input. *)
Theorem normalize_phone_cases (u : interp) (raw : pystr) :
  normalize_phone u raw = normalize_phone_spec u raw
  ∧ normalize_phone u raw =
      (let d := filter (fun c => is_decimal u c = true) raw in
       if bool_decide (length d = 11%nat ∧ head d = Some 56%N)
       then 55%N :: tail d
       else if bool_decide (length d = 10%nat) then 55%N :: d
       else d)
  ∧ normalize_phone u [] = [].
Proof.
  split; [apply normalize_phone_unfold|].
  split; [apply normalize_phone_unfold|reflexivity].
Qed.

Example normalize_phone_trunk :
  normalize_phone ascii_db (lit "89991234567") = lit "79991234567".
Proof. reflexivity. Qed.

Example normalize_phone_local :
  normalize_phone ascii_db (lit "(999) 123-45-67") = lit "79991234567".
Proof. reflexivity. Qed.

Example normalize_phone_other :
  normalize_phone ascii_db (lit "+44 20 7946 0958") = lit "442079460958".
Proof. reflexivity. Qed.

(** C6. The result of [normalize_phone] consists of digit characters only,
    and normalising a second time changes nothing. *)
Theorem normalize_phone_digits_idempotent (u : interp) (raw : pystr) :
  Forall (fun c => is_decimal u c = true) (normalize_phone u raw)
  ∧ normalize_phone u (normalize_phone u raw) = normalize_phone u raw.
Proof.
  rewrite !normalize_phone_unfold. split.
  - apply normalize_phone_spec_digits.
  - apply normalize_phone_spec_fixed.
    + apply normalize_phone_spec_digits.
    + unfold normalize_phone_spec.
      repeat case_bool_decide; cbn [length]; try lia.
      destruct (filter _ raw); cbn in *; lia.
    + unfold normalize_phone_spec.
      repeat case_bool_decide; cbn [length head]; intros [Hl Hh];
        try done; tauto.
Qed.

(** ** Resilient request executor *)

Section Executor.

Variable B : backend.

Lemma retry_status_raises (r : response) :
  retry_status (status_code r) = true ->
  ∀ s, raise_for_status B r s = ([], Raise (HTTPStatusError (status_code r)), s).
Proof.
  intros H s. unfold raise_for_status, retry_status in *.
  replace ((200 <=? status_code r) && (status_code r <=? 299)) with false; [done|].
  symmetry. apply andb_false_iff.
  apply orb_true_iff in H as [H|H].
  - apply Z.eqb_eq in H. right. apply Z.leb_gt. lia.
  - apply andb_true_iff in H as [H _]. apply Z.leb_le in H.
    right. apply Z.leb_gt. lia.
Qed.

Lemma amo_retries_S (rq : amo_req) (a k : nat) :
  amo_retries rq a (S k) =
  [EvHttp rq; EvSleep (2 ^ Z.of_nat a # 2)] ++ amo_retries rq (S a) k.
Proof. reflexivity. Qed.

(** The loop over attempts [a, a+1, ..., 4]. *)
Lemma amo_request_loop_trace (rq : amo_req) (n : nat) :
  ∀ (a : nat) (r0 : option response) (s : St B),
    (a + S n = 5)%nat ->
    ∃ (k : nat) (os : list http_outcome) (o : http_outcome) (s' : St B),
      (k ≤ n)%nat
      ∧ replay_http B rq (S k) s = os ++ [o]
      ∧ length os = k
      ∧ Forall (fun o => retryable_outcome o = true) os
      ∧ amo_request_loop B (map Z.of_nat (seq a (S n))) r0 rq s
        = (amo_retries rq a k ++ [EvHttp rq], surfaced o, s')
      ∧ (retryable_outcome o = false ∨ (a + k = 4)%nat).
Proof.
  induction n as [|n IH]; intros a r0 s Ha.
  - (* the fifth attempt *)
    assert (a = 4%nat) as -> by lia.
    destruct (httpx_request B rq s) as [o s1] eqn:E.
    exists 0%nat, [], o, s1.
    split; [lia|]. split; [cbn; by rewrite E|].
    split; [done|]. split; [constructor|].
    split; [|destruct (retryable_outcome o); auto].
    cbn [seq map amo_request_loop amo_retries flat_map app].
    unfold bind, request. rewrite E.
    destruct o as [r'| |]; cbn [surfaced]; try done.
    destruct (retry_status (status_code r')) eqn:Er; [|done].
    change (Z.of_nat 4 =? 4) with true. cbn iota.
    by rewrite (retry_status_raises r' Er).
  - destruct (httpx_request B rq s) as [o s1] eqn:E.
    assert ((Z.of_nat a =? 4) = false) as Hne by (apply Z.eqb_neq; lia).
    destruct (retryable_outcome o) eqn:Ero.
    + (* pause, then the remaining attempts *)
      destruct (IH (S a) (match o with Responded r' => Some r' | _ => r0 end)
                   s1 ltac:(lia))
        as (k & os & o' & s' & Hk & Hrep & Hlen & Hall & Hrun & Hlast).
      exists (S k), (o :: os), o', s'.
      split; [lia|]. split; [cbn; rewrite E; cbn in Hrep; by rewrite Hrep|].
      split; [cbn; lia|]. split; [by constructor|].
      split; [|destruct Hlast; [by left|right; lia]].
      rewrite amo_retries_S.
      change (seq a (S (S n))) with (a :: seq (S a) (S n)).
      cbn [map amo_request_loop].
      unfold bind at 1. unfold request at 1. rewrite E.
      destruct o as [r'| |]; cbn in Ero; try done.
      * rewrite Ero, Hne. unfold bind, ret, sleep.
        fold (@bind B). rewrite Hrun. done.
      * rewrite Hne. unfold bind, sleep. rewrite Hrun. done.
    + exists 0%nat, [], o, s1.
      split; [lia|]. split; [cbn; by rewrite E|].
      split; [done|]. split; [constructor|].
      split; [|by left].
      change (seq a (S (S n))) with (a :: seq (S a) (S n)).
      cbn [map amo_request_loop amo_retries flat_map seq app].
      unfold bind at 1. unfold request at 1. rewrite E.
      destruct o as [r'| |]; cbn in Ero; try done.
      cbn [surfaced]. by rewrite Ero.
Qed.

Lemma sheet_retries_S (c : sheet_call) (a k : nat) :
  sheet_retries c a (S k) =
  [EvSheet c; EvSleep (2 ^ Z.of_nat a # 1)] ++ sheet_retries c (S a) k.
Proof. reflexivity. Qed.

(** The [while True] loop entered with [attempt = a], [m = 5 - a] pauses
    still allowed. *)
Lemma execute_retrying_trace (c : sheet_call) (m : nat) :
  ∀ (a fuel : nat) (s : St B),
    (a + m = 5)%nat -> (S m ≤ fuel)%nat ->
    ∃ (k : nat) (os : list sheet_outcome) (o : sheet_outcome) (s' : St B),
      (k ≤ m)%nat
      ∧ replay_sheet B c (S k) s = os ++ [o]
      ∧ length os = k
      ∧ Forall (fun o => rate_limited o = true) os
      ∧ execute_retrying B fuel (Z.of_nat a) c s
        = (sheet_retries c a k ++ [EvSheet c], sheet_surfaced o, s')
      ∧ (rate_limited o = false ∨ (a + k = 5)%nat).
Proof.
  induction m as [|m IH]; intros a fuel s Ha Hfuel;
    (destruct fuel as [|fuel]; [lia|]);
    destruct (sheets_execute B c s) as [o s1] eqn:E.
  - (* attempt = 5: no pause left *)
    exists 0%nat, [], o, s1.
    split; [lia|]. split; [cbn; by rewrite E|].
    split; [done|]. split; [constructor|].
    split; [|destruct (rate_limited o); auto with lia].
    cbn [execute_retrying sheet_retries flat_map seq app].
    unfold bind, execute. rewrite E.
    destruct o as [v|msg|]; cbn [sheet_surfaced]; try done.
    replace (Z.of_nat a <? 5) with false
      by (symmetry; apply Z.ltb_ge; lia).
    by rewrite andb_false_r.
  - destruct (rate_limited o) eqn:Ero.
    + destruct (IH (S a) fuel s1 ltac:(lia) ltac:(lia))
        as (k & os & o' & s' & Hk & Hrep & Hlen & Hall & Hrun & Hlast).
      exists (S k), (o :: os), o', s'.
      split; [lia|]. split; [cbn; rewrite E; cbn in Hrep; by rewrite Hrep|].
      split; [cbn; lia|]. split; [by constructor|].
      split; [|destruct Hlast; [by left|right; lia]].
      rewrite sheet_retries_S.
      cbn [execute_retrying].
      unfold bind at 1. unfold execute at 1. rewrite E.
      destruct o as [v|msg|]; cbn [rate_limited] in Ero; try done.
      rewrite Ero.
      replace (Z.of_nat a <? 5) with true
        by (symmetry; apply Z.ltb_lt; lia).
      cbn [andb]. unfold bind, sleep.
      replace (Z.of_nat a + 1) with (Z.of_nat (S a)) by lia.
      rewrite Hrun. done.
    + exists 0%nat, [], o, s1.
      split; [lia|]. split; [cbn; by rewrite E|].
      split; [done|]. split; [constructor|].
      split; [|by left].
      cbn [execute_retrying sheet_retries flat_map seq app].
      unfold bind at 1. unfold execute at 1. rewrite E.
      destruct o as [v|msg|]; cbn [rate_limited] in Ero; try done.
      cbn [sheet_surfaced]. by rewrite Ero.
Qed.

Lemma http_attempts_retries (rq : amo_req) (a k : nat) :
  http_attempts (amo_retries rq a k ++ [EvHttp rq]) = S k.
Proof.
  unfold http_attempts. revert a.
  induction k as [|k IH]; intros a; [done|].
  rewrite amo_retries_S. cbn. f_equal. apply IH.
Qed.

Lemma sheet_attempts_retries (c : sheet_call) (a k : nat) :
  sheet_attempts (sheet_retries c a k ++ [EvSheet c]) = S k.
Proof.
  unfold sheet_attempts. revert a.
  induction k as [|k IH]; intros a; [done|].
  rewrite sheet_retries_S. cbn. f_equal. apply IH.
Qed.

End Executor.

(** C3, as stated, fails on the spreadsheet path: with five quota errors in
    a row the batch request is executed a sixth time (and succeeds), so the
    write path is not bounded at five attempts. *)
Lemma sheet_write_sixth_attempt :
  let run := commit_sheet_changes demo_cfg scripted 6
               [] [[CStr (lit "Jane Doe")]] 100 quota_then_ok in
  sheet_attempts (trace_of run) = 6%nat
  ∧ result_of run = Ok tt
  ∧ ¬ (sheet_attempts (trace_of run) ≤ 5)%nat.
Proof. vm_compute. repeat split; lia. Qed.

(** C3 (amended). [amo_request] sends the request at most 5 times: it sends
    again exactly after HTTP 429, a 5xx status or a transport failure,
    pausing [2^attempt / 2] seconds in between, hands any other response
    back at once, and on the fifth send raises instead of trying again.
    The retry loop around a spreadsheet batch request pauses
    [2^attempt] seconds after a rate-limit error for [attempt = 0..4], so
    the request is executed at most 6 times (5 retries) before the error is
    raised again; other errors are raised at once. *)
Theorem retry_paths_bounded (B : backend) (rq : amo_req) (c : sheet_call)
    (extra : nat) (s : St B) :
  (∃ (k : nat) (os : list http_outcome) (o : http_outcome),
      (k ≤ 4)%nat
      ∧ replay_http B rq (S k) s = os ++ [o]
      ∧ length os = k
      ∧ Forall (fun o => retryable_outcome o = true) os
      ∧ trace_of (amo_request B rq s) = amo_retries rq 0 k ++ [EvHttp rq]
      ∧ result_of (amo_request B rq s) = surfaced o
      ∧ (retryable_outcome o = false ∨ k = 4%nat)
      ∧ (http_attempts (trace_of (amo_request B rq s)) ≤ 5)%nat)
  ∧ (∃ (k : nat) (os : list sheet_outcome) (o : sheet_outcome),
      (k ≤ 5)%nat
      ∧ replay_sheet B c (S k) s = os ++ [o]
      ∧ length os = k
      ∧ Forall (fun o => rate_limited o = true) os
      ∧ trace_of (execute_retrying B (6 + extra) 0 c s)
        = sheet_retries c 0 k ++ [EvSheet c]
      ∧ result_of (execute_retrying B (6 + extra) 0 c s) = sheet_surfaced o
      ∧ (rate_limited o = false ∨ k = 5%nat)
      ∧ (sheet_attempts (trace_of (execute_retrying B (6 + extra) 0 c s)) ≤ 6)%nat).
Proof.
  split.
  - destruct (amo_request_loop_trace B rq 4 0 None s eq_refl)
      as (k & os & o & s' & Hk & Hrep & Hlen & Hall & Hrun & Hlast).
    exists k, os, o. unfold amo_request.
    change [0; 1; 2; 3; 4] with (map Z.of_nat (seq 0 5)).
    rewrite Hrun. unfold trace_of, result_of. cbn [fst snd].
    rewrite http_attempts_retries.
    repeat split; try done; try lia;
      try (destruct Hlast; [by left|right; lia]).
  - destruct (execute_retrying_trace B c 5 0 (6 + extra) s eq_refl ltac:(lia))
      as (k & os & o & s' & Hk & Hrep & Hlen & Hall & Hrun & Hlast).
    exists k, os, o.
    change (Z.of_nat 0) with 0 in Hrun.
    rewrite Hrun. unfold trace_of, result_of. cbn [fst snd].
    rewrite sheet_attempts_retries.
    repeat split; try done; try lia;
      try (destruct Hlast; [by left|right; lia]).
Qed.

(** ** Batch commit planner *)

Section Chunks.

Context {A : Type}.

Lemma range_step_pos (n : nat) (step : Z) :
  0 < step ->
  range_step n step =
    Ok (map (fun j => (j * Z.to_nat step)%nat)
            (seq 0 ((n + Z.to_nat step - 1) / Z.to_nat step)%nat)).
Proof.
  intros H. unfold range_step.
  replace (step =? 0) with false by (symmetry; apply Z.eqb_neq; lia).
  replace (step <? 0) with false by (symmetry; apply Z.ltb_ge; lia).
  done.
Qed.

Lemma slices_S (k : nat) (l : list A) (m : nat) :
  slices k l (S m) = take k l :: slices k (drop k l) m.
Proof.
  unfold slices. cbn [seq map]. rewrite Nat.mul_0_l, drop_0. f_equal.
  rewrite <- seq_shift, map_map. apply map_ext. intros j.
  by rewrite drop_drop.
Qed.

Lemma concat_slices (k : nat) (m : nat) :
  ∀ l : list A, (length l ≤ m * k)%nat -> concat (slices k l m) = l.
Proof.
  induction m as [|m IH]; intros l Hl.
  - destruct l; [done|cbn in Hl; lia].
  - rewrite slices_S. cbn [concat]. rewrite IH.
    + apply take_drop.
    + rewrite length_drop. lia.
Qed.

Lemma slices_lengths (k : nat) (m : nat) :
  ∀ l : list A,
    map length (slices k l m)
    = map (fun j => Nat.min k (length l - j * k)) (seq 0 m).
Proof.
  intros l. unfold slices. rewrite map_map. apply map_ext. intros j.
  by rewrite length_take, length_drop.
Qed.

Lemma count_bound (n k : nat) :
  (0 < k)%nat ->
  let m := ((n + k - 1) / k)%nat in
  (n ≤ m * k)%nat ∧ (0 < n -> (m - 1) * k < n)%nat.
Proof.
  intros Hk m.
  pose proof (Nat.div_mod_eq (n + k - 1) k) as E.
  pose proof (Nat.mod_upper_bound (n + k - 1) k ltac:(lia)) as Hr.
  fold m in E. split; [nia|].
  intros Hn. destruct m as [|m']; [lia|]. nia.
Qed.

Lemma chunks_pos (l : list A) (step : Z) :
  0 < step ->
  chunks l step =
    Ok (slices (Z.to_nat step) l
          ((length l + Z.to_nat step - 1) / Z.to_nat step)%nat).
Proof.
  intros H. unfold chunks. rewrite (range_step_pos _ _ H).
  unfold slices. by rewrite map_map.
Qed.

(** What [chunks] gives for a positive step: a partition of the list into
    consecutive non-empty pieces of at most [step] elements. *)
Lemma chunks_partition (l : list A) (step : Z) :
  0 < step ->
  ∃ cs : list (list A),
    chunks l step = Ok cs
    ∧ concat cs = l
    ∧ Forall (fun ch => (0 < length ch ≤ Z.to_nat step)%nat) cs
    ∧ map length cs
      = map (fun j => Nat.min (Z.to_nat step) (length l - j * Z.to_nat step))
            (seq 0 (length cs)).
Proof.
  intros H. set (k := Z.to_nat step). assert (0 < k)%nat as Hk by lia.
  destruct (count_bound (length l) k Hk) as [Hm1 Hm2].
  set (m := ((length l + k - 1) / k)%nat) in *.
  exists (slices k l m).
  split; [by apply chunks_pos|].
  split; [by apply concat_slices|].
  assert (length (slices k l m) = m) as Hlen
    by (unfold slices; by rewrite length_map, length_seq).
  split; [|rewrite Hlen; apply slices_lengths].
  apply Forall_forall. intros ch Hch.
  unfold slices in Hch. apply list_elem_of_fmap in Hch as (j & -> & Hj).
  apply elem_of_seq in Hj.
  rewrite length_take, length_drop.
  assert (j * k ≤ (m - 1) * k)%nat by nia.
  destruct (decide (length l = 0%nat)) as [E|E].
  - exfalso. subst m. rewrite E in Hj.
    rewrite Nat.div_small in Hj; lia.
  - lia.
Qed.

End Chunks.

Section Commit.

Variable cfg : config.
Variable B : backend.

Lemma blocks_nil (calls : list sheet_call) : blocks calls [] = [].
Proof. unfold blocks. by destruct calls. Qed.

Lemma blocks_cons (c : sheet_call) (calls : list sheet_call) (k : nat)
    (ks : list nat) :
  blocks (c :: calls) (k :: ks)
  = (sheet_retries c 0 k ++ [EvSheet c]) ++ blocks calls ks.
Proof. reflexivity. Qed.

(** Sending a list of batch requests: the requests go out in list order,
    each retried at most five times, and the first one that fails ends
    the run. *)
Lemma send_all_trace (calls : list sheet_call) :
  ∀ (fuel : nat) (s : St B),
    (6 ≤ fuel)%nat ->
    ∃ (ks : list nat) (r : res unit) (s' : St B),
      send_all B fuel calls s = (blocks calls ks, r, s')
      ∧ (length ks ≤ length calls)%nat
      ∧ Forall (fun k => (k ≤ 5)%nat) ks
      ∧ r ≠ Fuel
      ∧ (r = Ok tt -> length ks = length calls).
Proof.
  induction calls as [|c calls IH]; intros fuel s Hfuel.
  - exists [], (Ok tt), s. repeat split; done.
  - destruct (execute_retrying_trace B c 5 0 fuel s eq_refl ltac:(lia))
      as (k & os & o & s1 & Hk & _ & _ & _ & Hrun & _).
    change (Z.of_nat 0) with 0 in Hrun.
    cbn [send_all]. unfold bind. rewrite Hrun.
    destruct o as [v|msg|]; cbn [sheet_surfaced].
    + destruct (IH fuel s1 Hfuel) as (ks & r & s' & Hrest & Hlen & Hall & Hr & Hok).
      rewrite Hrest. exists (k :: ks), r, s'.
      rewrite blocks_cons.
      split; [done|]. split; [cbn; lia|].
      split; [by constructor|]. split; [done|].
      intros E. cbn. by rewrite Hok.
    + exists [k], (Raise (HttpError msg)), s1.
      rewrite blocks_cons, blocks_nil, app_nil_r.
      split; [done|]. split; [cbn; lia|].
      split; [by constructor|]. by split.
    + exists [k], (Raise OtherError), s1.
      rewrite blocks_cons, blocks_nil, app_nil_r.
      split; [done|]. split; [cbn; lia|].
      split; [by constructor|]. by split.
Qed.

(** A batch request that ends in an exception was executed last, and the
    exception is the one its answer carried. *)
Lemma execute_retrying_raise (c : sheet_call) (fuel : nat) :
  ∀ (a : Z) (s s' : St B) (t : list event) (e : exn),
    execute_retrying B fuel a c s = (t, Raise e, s') ->
    last t = Some (EvSheet c)
    ∧ ∃ o sA sB, sheets_execute B c sA = (o, sB) ∧ sheet_surfaced o = Raise e.
Proof.
  induction fuel as [|fuel IH]; intros a s s' t e Hrun; [done|].
  cbn [execute_retrying] in Hrun. unfold bind at 1, execute in Hrun.
  destruct (sheets_execute B c s) as [o s1] eqn:E.
  destruct o as [v|msg|].
  - done.
  - destruct (contains (lit "RATE_LIMIT_EXCEEDED") msg && (a <? 5)).
    + unfold bind, sleep in Hrun.
      destruct (execute_retrying B fuel (a + 1) c s1) as [[t1 r1] s2] eqn:E1.
      injection Hrun as <- -> <-.
      destruct (IH _ _ _ _ _ E1) as [Hlast Hans].
      split; [|exact Hans].
      cbn [app]. by rewrite !last_cons, Hlast.
    + injection Hrun as <- <- <-. split; [done|].
      by exists (SheetHttpError msg), s, s1.
  - injection Hrun as <- <- <-. split; [done|].
    by exists SheetOther, s, s1.
Qed.

Lemma send_all_raise (fuel : nat) (calls : list sheet_call) :
  ∀ (s s' : St B) (t : list event) (e : exn),
    send_all B fuel calls s = (t, Raise e, s') ->
    ∃ c o sA sB,
      last t = Some (EvSheet c)
      ∧ sheets_execute B c sA = (o, sB)
      ∧ sheet_surfaced o = Raise e.
Proof.
  induction calls as [|c calls IH]; intros s s' t e Hrun; [done|].
  cbn [send_all] in Hrun. unfold bind in Hrun.
  destruct (execute_retrying B fuel 0 c s) as [[t1 r1] s1] eqn:E1.
  destruct r1 as [[]|e1|]; [| |done].
  - destruct (send_all B fuel calls s1) as [[t2 r2] s2] eqn:E2.
    injection Hrun as <- -> <-.
    destruct (IH _ _ _ _ E2) as (c' & o & sA & sB & Hlast & Hans).
    exists c', o, sA, sB. split; [|exact Hans].
    by rewrite last_app, Hlast.
  - injection Hrun as <- <- <-.
    destruct (execute_retrying_raise c fuel _ _ _ _ _ E1)
      as (Hlast & o & sA & sB & Hans).
    by exists c, o, sA, sB.
Qed.

Lemma update_data_rows (ch : list (nat * list cell)) :
  update_data cfg ch
  = map (fun '(i, v) => (row_range cfg (Z.of_nat i + 2), [v])) ch.
Proof. reflexivity. Qed.

End Commit.

(** C8. For a positive [chunk_size], [commit_sheet_changes] cuts the
    updates into consecutive chunks of at most [chunk_size] entries (250
    updates and [chunk_size = 100] give chunks of 100, 100 and 50), each
    sent as one batch request whose ranges are rows [row_index + 2]; it cuts
    the appends into consecutive chunks of at most 500 rows in input order;
    and on any backend the requests leave in this order: update chunks
    first, append chunks only once every update chunk has been sent.
    Every chunk is sent unless the run raises, and it raises only when the
    credentials are refused (nothing is sent then) or with the error that
    the sheet answered to the request sent last. *)
Theorem commit_plan (cfg : config) (B : backend) (extra : nat)
    (updates : list (nat * list cell)) (appends : list (list cell))
    (chunk_size : Z) (s : St B) :
  0 < chunk_size ->
  ∃ (ucs : list (list (nat * list cell))) (acs : list (list (list cell)))
    (ks1 ks2 : list nat),
    chunks updates chunk_size = Ok ucs
    ∧ concat ucs = updates
    ∧ Forall (fun ch => 0 < Z.of_nat (length ch) <= chunk_size) ucs
    ∧ (length updates = 250%nat ∧ chunk_size = 100 ->
       map length ucs = [100; 100; 50]%nat)
    ∧ chunks appends 500 = Ok acs
    ∧ concat acs = appends
    ∧ Forall (fun ch => 0 < Z.of_nat (length ch) <= 500) acs
    ∧ let ucalls :=
        map (fun ch =>
               ValuesBatchUpdate
                 (map (fun '(i, v) => (row_range cfg (Z.of_nat i + 2), [v])) ch))
            ucs in
      let acalls := map (ValuesAppend (sheet_name cfg ++ lit "!A:F")) acs in
      let run :=
        commit_sheet_changes cfg B (6 + extra) updates appends chunk_size s in
      trace_of run = blocks ucalls ks1 ++ blocks acalls ks2
      ∧ (length ks1 ≤ length ucalls)%nat
      ∧ (length ks2 ≤ length acalls)%nat
      ∧ (ks2 = [] ∨ length ks1 = length ucalls)
      ∧ result_of run ≠ Fuel
      ∧ (result_of run = Ok tt ->
         length ks1 = length ucalls ∧ length ks2 = length acalls)
      ∧ (∀ e, result_of run = Raise e ->
           (trace_of run = []
            ∧ ∃ s0, ensure_credentials B s = (Some e, s0))
           ∨ ∃ c o sA sB,
               last (trace_of run) = Some (EvSheet c)
               ∧ sheets_execute B c sA = (o, sB)
               ∧ sheet_surfaced o = Raise e).
Proof.
  intros Hcs.
  destruct (chunks_partition updates chunk_size Hcs) as (ucs & Hu & Huc & Hul & Hulen).
  destruct (chunks_partition appends 500 ltac:(lia)) as (acs & Ha & Hac & Hal & _).
  set (ucalls := map (fun ch => ValuesBatchUpdate (update_data cfg ch)) ucs).
  set (acalls := map (ValuesAppend (sheet_name cfg ++ lit "!A:F")) acs).
  assert (∃ ks1 ks2 r s',
    commit_sheet_changes cfg B (6 + extra) updates appends chunk_size s
    = (blocks ucalls ks1 ++ blocks acalls ks2, r, s')
    ∧ (length ks1 ≤ length ucalls)%nat
    ∧ (length ks2 ≤ length acalls)%nat
    ∧ (ks2 = [] ∨ length ks1 = length ucalls)
    ∧ r ≠ Fuel
    ∧ (r = Ok tt ->
       length ks1 = length ucalls ∧ length ks2 = length acalls)
    ∧ (∀ e, r = Raise e ->
         (blocks ucalls ks1 ++ blocks acalls ks2 = []
          ∧ ∃ s0, ensure_credentials B s = (Some e, s0))
         ∨ ∃ c o sA sB,
             last (blocks ucalls ks1 ++ blocks acalls ks2) = Some (EvSheet c)
             ∧ sheets_execute B c sA = (o, sB)
             ∧ sheet_surfaced o = Raise e))
    as (ks1 & ks2 & r & s' & Hrun & Hrest).
  { unfold commit_sheet_changes, bind at 1, get_sheet_service.
    destruct (ensure_credentials B s) as [[e|] s0] eqn:Ecred.
    { exists [], [], (Raise e), s0. rewrite !blocks_nil.
      split; [done|]. split; [cbn; lia|]. split; [cbn; lia|].
      split; [by left|]. split; [done|]. split; [done|].
      intros e' [= <-]. left. split; [done|]. by exists s0. }
    unfold bind at 1, lift at 1. rewrite Hu.
    fold ucalls. unfold bind at 1.
    destruct (send_all_trace B ucalls (6 + extra) s0 ltac:(lia))
      as (ks1 & r1 & s1 & Hr1 & Hl1 & _ & Hf1 & Hok1).
    rewrite Hr1.
    destruct r1 as [[]|e|]; [| |done].
    2:{ exists ks1, [], (Raise e), s1. rewrite blocks_nil, app_nil_r.
        split; [done|]. split; [lia|]. split; [cbn; lia|]. split; [by left|].
        split; [done|]. split; [done|].
        intros e' [= <-]. right.
        exact (send_all_raise B (6 + extra) ucalls _ _ _ _ Hr1). }
    unfold bind at 1, lift at 1. rewrite Ha. fold acalls.
    destruct (send_all_trace B acalls (6 + extra) s1 ltac:(lia))
      as (ks2 & r2 & s2 & Hr2 & Hl2 & _ & Hf2 & Hok2).
    rewrite Hr2. exists ks1, ks2, r2, s2. cbn [app].
    split; [done|]. split; [lia|]. split; [lia|].
    split; [right; by apply Hok1|]. split; [done|].
    split; [intros E; split; [by apply Hok1|by apply Hok2]|].
    intros e ->. right.
    destruct (send_all_raise B (6 + extra) acalls _ _ _ _ Hr2)
      as (c & o & sA & sB & Hlast & Hans).
    exists c, o, sA, sB. split; [|exact Hans].
    by rewrite last_app, Hlast. }
  exists ucs, acs, ks1, ks2.
  split; [done|]. split; [done|].
  split; [eapply Forall_impl; [exact Hul|]; cbn; intros; lia|].
  split.
  { intros [H250 ->]. rewrite Hulen.
    assert (length ucs = 3%nat) as ->.
    { rewrite chunks_pos in Hu by lia. injection Hu as <-.
      unfold slices. rewrite length_map, length_seq, H250. reflexivity. }
    rewrite H250. reflexivity. }
  split; [done|]. split; [done|].
  split; [eapply Forall_impl; [exact Hal|]; cbn; intros; lia|].
  cbn zeta. rewrite Hrun. split; [reflexivity|]. exact Hrest.
Qed.

Lemma commit_plan_250 :
  0 < 100
  ∧ ∃ (ucs : list (list (nat * list cell))) (acs : list (list (list cell)))
      (ks1 ks2 : list nat),
      chunks demo_updates 100 = Ok ucs
      ∧ concat ucs = demo_updates
      ∧ map length ucs = [100; 100; 50]%nat
      ∧ acs = [[[CStr (lit "Jane Doe")]]]
      ∧ let run := commit_sheet_changes demo_cfg scripted 6 demo_updates
                     [[CStr (lit "Jane Doe")]] 100 idle in
        trace_of run
        = blocks (map (fun ch =>
                         ValuesBatchUpdate
                           (map (fun '(i, v) =>
                                   (row_range demo_cfg (Z.of_nat i + 2), [v]))
                                ch))
                      ucs) ks1
          ++ blocks (map (ValuesAppend (sheet_name demo_cfg ++ lit "!A:F")) acs)
                    ks2
        ∧ length ks1 = 3%nat
        ∧ length ks2 = 1%nat
        ∧ result_of run = Ok tt.
Proof.
  split; [lia|].
  destruct (commit_plan demo_cfg scripted 0 demo_updates
              [[CStr (lit "Jane Doe")]] 100 idle ltac:(lia))
    as (ucs & acs & ks1 & ks2 & Hu & Huc & _ & Hlen & Ha & _ & _ & Hrun).
  cbv zeta in Hrun.
  destruct Hrun as (Htr & _ & _ & _ & _ & Hok & _).
  assert (result_of (commit_sheet_changes demo_cfg scripted 6 demo_updates
                       [[CStr (lit "Jane Doe")]] 100 idle) = Ok tt) as Hres
    by (vm_compute; reflexivity).
  destruct (Hok Hres) as [H1 H2]. rewrite length_map in H1, H2.
  specialize (Hlen (conj eq_refl eq_refl)).
  assert (acs = [[[CStr (lit "Jane Doe")]]]) as Hacs
    by (vm_compute in Ha; by injection Ha as <-).
  exists ucs, acs, ks1, ks2.
  split; [exact Hu|]. split; [exact Huc|]. split; [exact Hlen|].
  split; [exact Hacs|]. cbv zeta.
  split; [exact Htr|].
  split; [by rewrite H1, <- (length_map length ucs), Hlen|].
  split; [by rewrite H2, Hacs|exact Hres].
Defined.

(** The same run, read off its trace: three update batches, then the
    append, and row index 0 is written to sheet row 2. *)
Example commit_250_trace :
  let run := commit_sheet_changes demo_cfg scripted 6 demo_updates
               [[CStr (lit "Jane Doe")]] 100 idle in
  omap batch_shape (trace_of run)
    = [(Update, 100%nat); (Update, 100%nat); (Update, 50%nat); (Append, 1%nat)]
  ∧ result_of run = Ok tt
  ∧ head (update_data demo_cfg demo_updates)
    = Some (lit "Leads!A2:F2", [[CStr (lit "0")]]).
Proof. vm_compute. repeat split. Qed.

(** Outside the positive range the loop over updates sends nothing: a
    zero step is rejected by [range], a negative one gives an empty range. *)
Example commit_nonpositive_chunk_size :
  result_of (commit_sheet_changes demo_cfg scripted 6 demo_updates [] 0 idle)
    = Raise ValueError
  ∧ trace_of (commit_sheet_changes demo_cfg scripted 6 demo_updates [] (-1) idle)
    = [].
Proof. vm_compute. split; reflexivity. Qed.

(** ** Running the monad *)

Section Running.

Variable B : backend.

Lemma bind_ok_inv {A C} (m : M B A) (k : A -> M B C) (s : St B)
    (t : list event) (c : C) (s' : St B) :
  bind m k s = (t, Ok c, s') ->
  ∃ t1 a s1 t2,
    m s = (t1, Ok a, s1) ∧ k a s1 = (t2, Ok c, s') ∧ t = t1 ++ t2.
Proof.
  unfold bind. destruct (m s) as [[t1 [a|e|]] s1]; try discriminate.
  destruct (k a s1) as [[t2 r] s2] eqn:E. intros [= <- -> <-].
  by exists t1, a, s1, t2.
Qed.

Lemma bind_run_ok {A C} (m : M B A) (k : A -> M B C) (s : St B)
    (t1 : list event) (a : A) (s1 : St B) :
  m s = (t1, Ok a, s1) ->
  bind m k s = (t1 ++ trace_of (k a s1), result_of (k a s1), (k a s1).2).
Proof.
  intros E. unfold bind. rewrite E. by destruct (k a s1) as [[t2 r] s2].
Qed.

Lemma bind_run_raise {A C} (m : M B A) (k : A -> M B C) (s : St B)
    (t1 : list event) (e : exn) (s1 : St B) :
  m s = (t1, Raise e, s1) -> bind m k s = (t1, Raise e, s1).
Proof. intros E. unfold bind. by rewrite E. Qed.

Lemma bind_trace_prefix {A C} (m : M B A) (k : A -> M B C) (s : St B) :
  trace_of (m s) `prefix_of` trace_of (bind m k s).
Proof.
  unfold bind. destruct (m s) as [[t1 [a|e|]] s1]; cbn; try done.
  destruct (k a s1) as [[t2 r] s2]. cbn. by apply prefix_app_r.
Qed.

End Running.

(** ** Push reconciler *)

Section Push.

Variable u : interp.
Variable cfg : config.
Variable B : backend.

Lemma truthy_str_true (x : pystr) : truthy_str x = true <-> x ≠ [].
Proof. by destruct x. Qed.

Lemma truthy_str_false (x : pystr) : truthy_str x = false <-> x = [].
Proof. by destruct x. Qed.

(** A row that already carries a deal reference costs nothing: no request,
    no pause, no write, and [created] is handed on as it is. *)
Lemma process_row_skip (idx : nat) (r : list pystr) (data : intake_row)
    (created : list created_entry) (s : St B) :
  parse_row u r = Ok data ->
  deal_id data ≠ [] ->
  process_row u cfg B idx r created s = ([], Ok created, s).
Proof.
  intros Hp Hd. unfold process_row, bind, lift. rewrite Hp.
  apply truthy_str_true in Hd. by rewrite Hd.
Qed.

(** What a completed iteration did to [created]. *)
Lemma process_row_ok (idx : nat) (r : list pystr)
    (created out : list created_entry) (s s' : St B) (t : list event) :
  process_row u cfg B idx r created s = (t, Ok out, s') ->
  ∃ data,
    parse_row u r = Ok data
    ∧ ((deal_id data ≠ [] ∧ out = created ∧ t = [] ∧ s' = s)
       ∨ (deal_id data = []
          ∧ ∃ lead contact,
              out = created ++ [{| row := Z.of_nat idx + 2; lead_id := lead;
                                   contact_id := contact |}])).
Proof.
  unfold process_row. intros H.
  apply bind_ok_inv in H as (t1 & data & s1 & t2 & Hp & H & ->).
  unfold lift in Hp. destruct (parse_row u r) as [d| |] eqn:Ep; try discriminate.
  injection Hp as <- <- <-. exists d. split; [done|].
  destruct (truthy_str (deal_id d)) eqn:Ed.
  - left. apply truthy_str_true in Ed. unfold ret in H.
    injection H as <- <- <-. done.
  - right. apply truthy_str_false in Ed. split; [done|].
    apply bind_ok_inv in H as (t3 & found & s3 & t4 & _ & H & ->).
    apply bind_ok_inv in H as (t5 & contact & s5 & t6 & _ & H & ->).
    apply bind_ok_inv in H as (t7 & lead & s7 & t8 & _ & H & ->).
    apply bind_ok_inv in H as (t9 & [] & s9 & t10 & _ & H & ->).
    unfold ret in H. injection H as <- <- <-.
    by exists lead, contact.
Qed.

Lemma process_rows_created (rows : list (list pystr)) :
  ∀ (idx : nat) (created out : list created_entry) (s s' : St B)
    (t : list event),
    process_rows u cfg B idx rows created s = (t, Ok out, s') ->
    ∃ new,
      out = created ++ new
      ∧ Forall (fun e =>
                  ∃ i r data,
                    rows !! i = Some r ∧ parse_row u r = Ok data
                    ∧ deal_id data = []
                    ∧ row e = Z.of_nat (idx + i) + 2) new.
Proof.
  induction rows as [|r rows IH]; intros idx created out s s' t H.
  - cbn in H. injection H as <- <- <-. exists []. by rewrite app_nil_r.
  - cbn [process_rows] in H.
    apply bind_ok_inv in H as (t1 & mid & s1 & t2 & Hrow & Hrest & ->).
    apply process_row_ok in Hrow as (data & Hp & Hcase).
    apply IH in Hrest as (new & -> & Hnew).
    assert (Forall (fun e => ∃ i r0 data0,
               (r :: rows) !! i = Some r0 ∧ parse_row u r0 = Ok data0
               ∧ deal_id data0 = [] ∧ row e = Z.of_nat (idx + i) + 2) new)
      as Hnew'.
    { eapply Forall_impl; [exact Hnew|]. cbn.
      intros e (i & r0 & d0 & Hi & Hp0 & Hd0 & He).
      exists (S i), r0, d0. repeat split; try done.
      rewrite He. f_equal. lia. }
    destruct Hcase as [(_ & -> & _)|(Hd & lead & contact & ->)].
    + by exists new.
    + exists ({| row := Z.of_nat idx + 2; lead_id := lead;
                 contact_id := contact |} :: new).
      split; [by rewrite <- app_assoc|].
      constructor; [|done].
      exists 0%nat, r, data. repeat split; try done.
      cbn. f_equal. lia.
Qed.

(** When every row carries a deal reference the loop does nothing. *)
Lemma process_rows_all_skipped (rows : list (list pystr)) :
  ∀ (idx : nat) (created : list created_entry) (s : St B),
    Forall (fun r => ∃ data, parse_row u r = Ok data ∧ deal_id data ≠ []) rows ->
    process_rows u cfg B idx rows created s = ([], Ok created, s).
Proof.
  induction rows as [|r rows IH]; intros idx created s H; [done|].
  inversion H as [|? ? (data & Hp & Hd) Hrest]; subst.
  cbn [process_rows]. unfold bind.
  rewrite (process_row_skip idx r data created s Hp Hd).
  by rewrite IH.
Qed.

(** Reading the sheet sends nothing to the CRM. *)
Lemma read_rows_no_http (s : St B) :
  http_attempts (trace_of (read_rows cfg B s)) = 0%nat.
Proof.
  unfold read_rows, bind, get_sheet_service, execute_once, bind, execute, ret.
  destruct (ensure_credentials B s) as [[e|] s0]; [done|].
  destruct (sheets_execute B _ s0) as [[v|msg|] s1]; done.
Qed.

End Push.

(** C1. Let [rows] be the snapshot [process_new_rows] reads.  A row whose
    parsed [deal_id] is non-empty is passed over without any event (no CRM
    request, hence no contact and no deal, and no write), and no entry of
    the returned [created] list has its row number.  Consequently, on a
    snapshot in which every row carries a deal reference, the whole run
    consists of the sheet read alone and returns an empty [created]. *)
Theorem processed_rows_untouched (u : interp) (cfg : config) (B : backend)
    (s s1 : St B) (t0 : list event) (rows : list (list pystr)) :
  read_rows cfg B s = (t0, Ok rows, s1) ->
  (∀ idx r data,
      rows !! idx = Some r -> parse_row u r = Ok data -> deal_id data ≠ [] ->
      (∀ created s', process_row u cfg B idx r created s' = ([], Ok created, s'))
      ∧ (∀ summary,
            result_of (process_new_rows u cfg B s) = Ok summary ->
            Forall (fun e => row e ≠ Z.of_nat idx + 2) (created summary)))
  ∧ (Forall (fun r => ∃ data, parse_row u r = Ok data ∧ deal_id data ≠ []) rows ->
     process_new_rows u cfg B s
       = (t0, Ok {| created := []; checked_rows := length rows |}, s1)
     ∧ http_attempts (trace_of (process_new_rows u cfg B s)) = 0%nat).
Proof.
  intros Hread.
  assert (process_new_rows u cfg B s
          = (t0 ++ trace_of (process_rows u cfg B 0 rows [] s1),
             match result_of (process_rows u cfg B 0 rows [] s1) with
             | Ok created =>
                 Ok {| created := created; checked_rows := length rows |}
             | Raise e => Raise e
             | Fuel => Fuel
             end,
             (process_rows u cfg B 0 rows [] s1).2)) as Hrun.
  { unfold process_new_rows. rewrite (bind_run_ok B _ _ s t0 rows s1 Hread).
    unfold bind, ret, trace_of, result_of.
    destruct (process_rows u cfg B 0 rows [] s1) as [[t [c|e|]] s2]; cbn;
      by rewrite ?app_nil_r. }
  split.
  - intros idx r data Hidx Hp Hd. split.
    + intros created s'. by apply (process_row_skip u cfg B idx r data).
    + intros summary Hs. rewrite Hrun in Hs. unfold result_of in Hs. cbn in Hs.
      destruct (process_rows u cfg B 0 rows [] s1) as [[t [c|e|]] s2] eqn:E;
        try discriminate.
      cbn in Hs. injection Hs as <-. cbn [created].
      apply process_rows_created in E as (new & -> & Hnew). cbn [app].
      eapply Forall_impl; [exact Hnew|]. cbn.
      intros e (i & r' & d' & Hi & Hp' & Hd' & He) Heq.
      assert (i = idx) as -> by lia.
      rewrite Hidx in Hi. injection Hi as <-.
      rewrite Hp in Hp'. injection Hp' as <-. done.
  - intros Hall.
    rewrite Hrun, (process_rows_all_skipped u cfg B rows 0 [] s1 Hall).
    unfold trace_of, result_of. cbn. rewrite app_nil_r. split; [done|].
    pose proof (read_rows_no_http cfg B s) as Hh. by rewrite Hread in Hh.
Qed.

Lemma processed_rows_untouched_linked :
  read_rows demo_cfg scripted linked_sheet
    = ([EvSheet (ValuesGet (lit "Leads!A2:F"))], Ok linked_rows, idle)
  ∧ process_new_rows ascii_db demo_cfg scripted linked_sheet
    = ([EvSheet (ValuesGet (lit "Leads!A2:F"))],
       Ok {| created := []; checked_rows := 2 |}, idle).
Proof.
  split; [reflexivity|].
  apply (processed_rows_untouched ascii_db demo_cfg scripted linked_sheet idle
           [EvSheet (ValuesGet (lit "Leads!A2:F"))] linked_rows eq_refl).
  repeat constructor;
    (eexists; split; [vm_compute; reflexivity|discriminate]).
Defined.

Section Lookup.

Variable u : interp.
Variable cfg : config.
Variable B : backend.

Lemma amo_request_run (rq : amo_req) (s : St B) :
  ∃ k o s',
    (k ≤ 4)%nat
    ∧ amo_request B rq s = (amo_retries rq 0 k ++ [EvHttp rq], surfaced o, s').
Proof.
  destruct (amo_request_loop_trace B rq 4 0 None s eq_refl)
    as (k & os & o & s' & Hk & _ & _ & _ & Hrun & _).
  exists k, o, s'. split; [lia|]. exact Hrun.
Qed.

Lemma amo_request_first_event (rq : amo_req) (s : St B) :
  [EvHttp rq] `prefix_of` trace_of (amo_request B rq s).
Proof.
  destruct (amo_request_run rq s) as (k & o & s' & _ & ->).
  unfold trace_of. cbn [fst]. destruct k as [|k].
  - done.
  - rewrite amo_retries_S. cbn [app]. by eexists.
Qed.

(** [amo_find_contact] on a non-empty query: one pass through the executor
    with the search request, then the reading of the response. *)
Lemma amo_find_contact_run (q : pystr) (s : St B) :
  q ≠ [] ->
  amo_find_contact u cfg B q s
  = (trace_of (amo_request B (lookup_req u cfg q) s),
     match result_of (amo_request B (lookup_req u cfg q) s) with
     | Ok r => lookup_result r
     | Raise e => Raise e
     | Fuel => Fuel
     end,
     (amo_request B (lookup_req u cfg q) s).2).
Proof.
  intros Hq. unfold amo_find_contact.
  apply truthy_str_true in Hq. rewrite Hq. cbn [negb].
  assert ((if negb (contains (lit "@") q) then normalize_phone u q else q)
          = (if contains (lit "@") q then q else normalize_phone u q)) as ->
    by (by destruct (contains (lit "@") q)).
  fold (lookup_req u cfg q). unfold bind, trace_of, result_of.
  destruct (amo_request B (lookup_req u cfg q) s) as [[t [r|e|]] s']; cbn;
    try done.
  unfold lookup_result, r_json, ret, raise.
  destruct (status_code r =? 200); [|by rewrite app_nil_r].
  destruct (json r) as [b|]; cbn; [|by rewrite app_nil_r].
  destruct (emb_contacts b); cbn; by rewrite !app_nil_r.
Qed.

Lemma amo_find_contact_empty (s : St B) :
  amo_find_contact u cfg B [] s = ([], Ok None, s).
Proof. reflexivity. Qed.

(** A row without deal reference goes through resolution, creation and
    write-back. *)
Lemma process_row_unresolved (idx : nat) (r : list pystr) (d : intake_row)
    (created : list created_entry) (s : St B) :
  parse_row u r = Ok d ->
  deal_id d = [] ->
  process_row u cfg B idx r created s
  = (found <- resolve_contact u cfg B [email d; phone d] ;;
     contact <- (if truthy_id found then ret (default 0 found)
                 else amo_create_contact u cfg B (name d) (phone d)
                                         (email d)) ;;
     lead <- amo_create_lead u cfg B (budget d) contact ;;
     write_deal_id cfg B idx lead ;;;
     ret (created ++ [{| row := Z.of_nat idx + 2; lead_id := lead;
                         contact_id := contact |}])) s.
Proof.
  intros Hp Hd. unfold process_row. unfold bind at 1. unfold lift.
  rewrite Hp. apply truthy_str_false in Hd. rewrite Hd.
  match goal with |- context [let (_, _) := ?m s in _] =>
    by destruct (m s) as [[t0 r0] s0] end.
Qed.

(** The loop over [[email, phone]], unrolled. *)
Lemma resolve_contact_first_wins (e p : pystr) (s s' : St B)
    (t : list event) (c : Z) :
  e ≠ [] ->
  amo_find_contact u cfg B e s = (t, Ok (Some c), s') ->
  c ≠ 0 ->
  resolve_contact u cfg B [e; p] s = (t, Ok (Some c), s').
Proof.
  intros He Hrun Hc. cbn [resolve_contact].
  apply truthy_str_true in He. rewrite He.
  unfold bind. rewrite Hrun. cbn [truthy_id].
  replace (c =? 0) with false by (symmetry; by apply Z.eqb_neq).
  cbn. by rewrite app_nil_r.
Qed.

Lemma resolve_contact_second (e p : pystr) (s s' : St B)
    (t : list event) (cid : option Z) :
  (if truthy_str e then amo_find_contact u cfg B e else ret None) s
    = (t, Ok cid, s') ->
  truthy_id cid = false ->
  resolve_contact u cfg B [e; p] s
  = if truthy_str p
    then (t ++ trace_of (amo_find_contact u cfg B p s'),
          match result_of (amo_find_contact u cfg B p s') with
          | Ok c2 => if truthy_id c2 then Ok c2 else Ok None
          | other => other
          end,
          (amo_find_contact u cfg B p s').2)
    else (t, Ok None, s').
Proof.
  intros Hrun Hc. cbn [resolve_contact].
  unfold bind at 1. rewrite Hrun, Hc.
  destruct (truthy_str p).
  - unfold bind, ret, trace_of, result_of.
    destruct (amo_find_contact u cfg B p s') as [[t2 [c2|e2|]] s2]; cbn;
      try done.
    destruct (truthy_id c2); cbn; by rewrite ?app_nil_r.
  - unfold bind, ret. cbn. by rewrite app_nil_r.
Qed.

Lemma resolve_contact_raise (e p : pystr) (s s' : St B)
    (t : list event) (x : exn) :
  (if truthy_str e then amo_find_contact u cfg B e else ret None) s
    = (t, Raise x, s') ->
  resolve_contact u cfg B [e; p] s = (t, Raise x, s').
Proof.
  intros Hrun. cbn [resolve_contact]. unfold bind at 1. by rewrite Hrun.
Qed.

End Lookup.

(** C7, as stated, fails on the query string: for an e-mail cell without an
    at sign the contact search is made with the digits of the cell, not
    with the raw e-mail (the row has no phone, so this is the e-mail
    lookup). *)
Lemma email_lookup_not_raw :
  let run := process_new_rows ascii_db demo_cfg scripted mistyped_sheet in
  parse_row ascii_db mistyped_row
    = Ok {| name := lit "Ivan"; phone := [];
            email := lit "ivan2024.example.com"; budget := 0; deal_id := [] |}
  ∧ List.filter is_http (trace_of run)
    = [EvHttp {| method := GET;
                 url := lit "https://example.amocrm.ru/api/v4/contacts";
                 data := Params [(lit "query", PStr (lit "2024"))] |};
       EvHttp (create_lead_req ascii_db demo_cfg 0 42)]
  ∧ result_of run
    = Ok {| created := [{| row := 2; lead_id := 900; contact_id := 42 |}];
            checked_rows := 1 |}
  ∧ lit "2024" ≠ lit "ivan2024.example.com".
Proof. vm_compute. repeat split. discriminate. Qed.

(** C7 (amended). For a row without deal reference the contact is looked
    up by e-mail first (when the e-mail is non-empty), and by phone only
    when that gave no contact (no match, or id 0) and the phone is
    non-empty; the first lookup that returns a contact decides, so an
    e-mail match wins over a phone match, and an exception of the first
    lookup ends the resolution.  Every request of a lookup is the contact
    search whose query string is the looked-up text itself when it contains
    an at sign and [normalize_phone] of it otherwise (the raw e-mail for an
    e-mail with an at sign, the normalised digits for a phone without). *)
Theorem contact_resolution_order (u : interp) (cfg : config) (B : backend)
    (idx : nat) (r : list pystr) (d : intake_row)
    (created : list created_entry) (s : St B) :
  parse_row u r = Ok d ->
  deal_id d = [] ->
  trace_of (resolve_contact u cfg B [email d; phone d] s)
    `prefix_of` trace_of (process_row u cfg B idx r created s)
  ∧ (∀ q s0, q ≠ [] ->
       ∃ k, (k ≤ 4)%nat
            ∧ trace_of (amo_find_contact u cfg B q s0)
              = amo_retries (lookup_req u cfg q) 0 k
                ++ [EvHttp (lookup_req u cfg q)])
  ∧ (∀ q, lookup_req u cfg q
          = {| method := GET; url := AMO_BASE_URL cfg ++ lit "/api/v4/contacts";
               data := Params [(lit "query",
                                PStr (if contains (lit "@") q then q
                                      else normalize_phone u q))] |})
  ∧ (∀ t c s',
       email d ≠ [] ->
       amo_find_contact u cfg B (email d) s = (t, Ok (Some c), s') ->
       c ≠ 0 ->
       resolve_contact u cfg B [email d; phone d] s = (t, Ok (Some c), s'))
  ∧ (∀ t cid s',
       (if truthy_str (email d) then amo_find_contact u cfg B (email d)
        else ret None) s = (t, Ok cid, s') ->
       truthy_id cid = false ->
       resolve_contact u cfg B [email d; phone d] s
       = if truthy_str (phone d)
         then (t ++ trace_of (amo_find_contact u cfg B (phone d) s'),
               match result_of (amo_find_contact u cfg B (phone d) s') with
               | Ok c2 => if truthy_id c2 then Ok c2 else Ok None
               | other => other
               end,
               (amo_find_contact u cfg B (phone d) s').2)
         else (t, Ok None, s'))
  ∧ (∀ t x s',
       (if truthy_str (email d) then amo_find_contact u cfg B (email d)
        else ret None) s = (t, Raise x, s') ->
       resolve_contact u cfg B [email d; phone d] s = (t, Raise x, s')).
Proof.
  intros Hp Hd.
  split.
  { rewrite (process_row_unresolved u cfg B idx r d created s Hp Hd).
    apply bind_trace_prefix. }
  split.
  { intros q s0 Hq. rewrite (amo_find_contact_run u cfg B q s0 Hq).
    destruct (amo_request_run B (lookup_req u cfg q) s0) as (k & o & s' & Hk & ->).
    by exists k. }
  split; [done|].
  split; [intros; by apply resolve_contact_first_wins|].
  split; [intros t cid s' H1 H2; by apply (resolve_contact_second u cfg B _ _ s s' t cid)|].
  intros; by eapply resolve_contact_raise.
Qed.

Lemma contact_resolution_email_wins :
  let d := {| name := lit "Jane Doe"; phone := lit "89991234567";
              email := lit "jane@example.com"; budget := 0; deal_id := [] |} in
  parse_row ascii_db
    [lit "Jane Doe"; lit "89991234567"; lit "jane@example.com"] = Ok d
  ∧ resolve_contact ascii_db demo_cfg scripted [email d; phone d] two_matches
    = ([EvHttp (lookup_req ascii_db demo_cfg (lit "jane@example.com"))],
       Ok (Some 42),
       {| http_script := [resp 200 (contact_body 43)]; sheet_script := [] |}).
Proof.
  split; [reflexivity|].
  eapply (contact_resolution_order ascii_db demo_cfg scripted 0
            [lit "Jane Doe"; lit "89991234567"; lit "jane@example.com"]
            _ [] two_matches eq_refl eq_refl);
    [discriminate|vm_compute; reflexivity|discriminate].
Defined.

Section FailedLookup.

Variable u : interp.
Variable cfg : config.
Variable B : backend.

Lemma amo_find_contact_not_200 (q : pystr) (s s' : St B) (t : list event)
    (rsp : response) :
  q ≠ [] ->
  amo_request B (lookup_req u cfg q) s = (t, Ok rsp, s') ->
  status_code rsp ≠ 200 ->
  amo_find_contact u cfg B q s = (t, Ok None, s').
Proof.
  intros Hq Hrun Hst. rewrite (amo_find_contact_run u cfg B q s Hq), Hrun.
  unfold trace_of, result_of, lookup_result. cbn [fst snd].
  replace (status_code rsp =? 200) with false
    by (symmetry; by apply Z.eqb_neq).
  done.
Qed.

(** A response outside 429 / 5xx comes back from the executor at once. *)
Lemma amo_request_hands_back (rq : amo_req) (s s' : St B) (rsp : response) :
  httpx_request B rq s = (Responded rsp, s') ->
  retry_status (status_code rsp) = false ->
  amo_request B rq s = ([EvHttp rq], Ok rsp, s').
Proof.
  intros E Hst. unfold amo_request. cbn [amo_request_loop].
  unfold bind, request. rewrite E, Hst. done.
Qed.

Lemma amo_create_contact_first_event (d : intake_row) (s : St B) :
  [EvHttp (create_contact_req u cfg d)]
    `prefix_of` trace_of (amo_create_contact u cfg B (name d) (phone d)
                            (email d) s).
Proof.
  unfold amo_create_contact. fold (create_contact_req u cfg d).
  etransitivity; [apply amo_request_first_event|apply bind_trace_prefix].
Qed.

Hypothesis lookups_refused :
  ∀ q s0, ∃ t rsp s',
    amo_request B (lookup_req u cfg q) s0 = (t, Ok rsp, s')
    ∧ status_code rsp ≠ 200.

Lemma lookup_refused (q : pystr) (s0 : St B) :
  ∃ t s',
    (if truthy_str q then amo_find_contact u cfg B q else ret None) s0
    = (t, Ok None, s').
Proof.
  destruct q as [|c q]; [by exists [], s0|].
  destruct (lookups_refused (c :: q) s0) as (t & rsp & s' & Hrun & Hst).
  exists t, s'. cbn [truthy_str].
  by apply (amo_find_contact_not_200 _ s0 s' t rsp).
Qed.

Lemma resolve_contact_refused (e p : pystr) (s : St B) :
  ∃ t s', resolve_contact u cfg B [e; p] s = (t, Ok None, s').
Proof.
  destruct (lookup_refused e s) as (t1 & s1 & H1).
  destruct (lookup_refused p s1) as (t2 & s2 & H2).
  rewrite (resolve_contact_second u cfg B e p s s1 t1 None H1 eq_refl).
  destruct (truthy_str p); [|by exists t1, s1].
  rewrite H2. by exists (t1 ++ t2), s2.
Qed.

End FailedLookup.

(** C10. [amo_find_contact] answers [None] to the empty query without
    sending anything, and [None] whenever the executor hands it a response
    whose status is not 200, which the executor does at once for every
    status outside 429 and 5xx (401, 403, 404, ...).  So when the lookups of
    an unresolved row are refused, resolution ends with "no contact" and the
    push path goes on to send the contact creation request. *)
Theorem failed_lookup_is_no_match (u : interp) (cfg : config) (B : backend)
    (idx : nat) (r : list pystr) (d : intake_row)
    (created : list created_entry) (s : St B) :
  parse_row u r = Ok d ->
  deal_id d = [] ->
  (∀ q s0, ∃ t rsp s',
      amo_request B (lookup_req u cfg q) s0 = (t, Ok rsp, s')
      ∧ status_code rsp ≠ 200) ->
  (∀ s0, amo_find_contact u cfg B [] s0 = ([], Ok None, s0))
  ∧ (∀ q s0 s' t rsp,
       q ≠ [] ->
       amo_request B (lookup_req u cfg q) s0 = (t, Ok rsp, s') ->
       status_code rsp ≠ 200 ->
       amo_find_contact u cfg B q s0 = (t, Ok None, s'))
  ∧ (∀ rq s0 s' rsp,
       httpx_request B rq s0 = (Responded rsp, s') ->
       retry_status (status_code rsp) = false ->
       amo_request B rq s0 = ([EvHttp rq], Ok rsp, s'))
  ∧ ∃ t1 s1,
      resolve_contact u cfg B [email d; phone d] s = (t1, Ok None, s1)
      ∧ (t1 ++ [EvHttp (create_contact_req u cfg d)])
          `prefix_of` trace_of (process_row u cfg B idx r created s).
Proof.
  intros Hp Hd Hrefused.
  split; [done|].
  split; [intros; by eapply amo_find_contact_not_200|].
  split; [intros; by apply amo_request_hands_back|].
  destruct (resolve_contact_refused u cfg B Hrefused (email d) (phone d) s)
    as (t1 & s1 & Hres).
  exists t1, s1. split; [done|].
  rewrite (process_row_unresolved u cfg B idx r d created s Hp Hd).
  rewrite (bind_run_ok B _ _ s t1 None s1 Hres).
  unfold trace_of at 1. cbn [fst].
  apply prefix_app.
  etransitivity; [apply amo_create_contact_first_event|].
  apply bind_trace_prefix.
Qed.

Lemma failed_lookup_forbidden :
  parse_row ascii_db jane_row = Ok jane
  ∧ ∃ t1 s1,
      resolve_contact ascii_db demo_cfg (constant_backend forbidden)
        [email jane; phone jane] tt = (t1, Ok None, s1)
      ∧ (t1 ++ [EvHttp (create_contact_req ascii_db demo_cfg jane)])
          `prefix_of`
          trace_of (process_row ascii_db demo_cfg (constant_backend forbidden)
                      0 jane_row [] tt).
Proof.
  split; [reflexivity|].
  apply (failed_lookup_is_no_match ascii_db demo_cfg
           (constant_backend forbidden) 0 jane_row jane [] tt
           eq_refl eq_refl).
  intros q []. eexists _, _, _. split; [reflexivity|]. discriminate.
Defined.

(** The refused lookup is followed by the creation attempt, whose own
    refusal is what the run reports. *)
Example failed_lookup_forbidden_trace :
  process_row ascii_db demo_cfg (constant_backend forbidden) 0 jane_row [] tt
  = ([EvHttp (lookup_req ascii_db demo_cfg (lit "89991234567"));
      EvHttp (create_contact_req ascii_db demo_cfg jane)],
     Raise (HTTPStatusError 403), tt).
Proof. reflexivity. Qed.

(** [amo_create_lead] sends its request exactly once, whatever comes back;
    for a price that [str] refuses to print it raises before sending. *)
Lemma amo_create_lead_within (u : interp) (cfg : config)
    (B : backend) (price contact : Z) (s : St B) :
  within_str_limit u price = true ->
  ∃ r s',
    amo_create_lead u cfg B price contact s
    = ([EvHttp (create_lead_req u cfg price contact)], r, s').
Proof.
  intros Hlim. unfold amo_create_lead, str_int. rewrite Hlim.
  unfold bind at 1, lift. cbn [app].
  fold (create_lead_req u cfg price contact).
  unfold bind at 1. unfold request.
  destruct (httpx_request B _ s) as [[rsp| |] s1]; try by eexists _, _.
  unfold bind, raise_for_status, r_json, ret, raise.
  destruct ((200 <=? status_code rsp) && (status_code rsp <=? 299));
    cbn; [|by eexists _, _].
  destruct (json rsp) as [b|]; cbn; [|by eexists _, _].
  destruct (emb_leads b); by eexists _, _.
Qed.

Lemma amo_create_lead_beyond (u : interp) (cfg : config)
    (B : backend) (price contact : Z) (s : St B) :
  within_str_limit u price = false ->
  amo_create_lead u cfg B price contact s = ([], Raise ValueError, s).
Proof.
  intros Hlim. unfold amo_create_lead, str_int. rewrite Hlim. reflexivity.
Qed.

(** C4 fails on the deal creation.  On every backend [amo_create_lead]
    sends its request a single time (and not at all for a price too long
    for [str] to print, which makes it raise while the payload is built).
    With the CRM answering 429 once to each creation request, the contact
    creation (sent through [amo_request]) is repeated after half a second
    and succeeds, while the deal creation is not repeated and its 429 ends
    the run: the answer that a second attempt would have received is still
    waiting. *)
Theorem create_lead_not_retried :
  (∀ (u : interp) (cfg : config) (B : backend) (price contact : Z) (s : St B),
      if within_str_limit u price
      then ∃ r s',
             amo_create_lead u cfg B price contact s
             = ([EvHttp (create_lead_req u cfg price contact)], r, s')
      else amo_create_lead u cfg B price contact s
           = ([], Raise ValueError, s))
  ∧ process_new_rows ascii_db demo_cfg scripted rate_limited_crm
    = ([EvSheet (ValuesGet (lit "Leads!A2:F"));
        EvHttp (lookup_req ascii_db demo_cfg (lit "89991234567"));
        EvHttp (create_contact_req ascii_db demo_cfg jane);
        EvSleep (1 # 2);
        EvHttp (create_contact_req ascii_db demo_cfg jane);
        EvHttp (create_lead_req ascii_db demo_cfg 0 11)],
       Raise (HTTPStatusError 429),
       {| http_script := [resp 200 (lead_body 900)]; sheet_script := [] |}).
Proof.
  split.
  - intros. destruct (within_str_limit u price) eqn:Hlim.
    + by apply amo_create_lead_within.
    + by apply amo_create_lead_beyond.
  - reflexivity.
Qed.

(** With no rate limiting the same row goes through as the specification's
    example scenario tells it: phone normalised, no contact found, contact
    and deal (price 0) created, deal id written to column E of row 2. *)
Example push_scenario :
  process_new_rows ascii_db demo_cfg scripted
    {| http_script := [resp 200 empty_body; resp 200 (contact_body 11);
                       resp 200 (lead_body 900)];
       sheet_script := [Executed (Some [jane_row])] |}
  = ([EvSheet (ValuesGet (lit "Leads!A2:F"));
      EvHttp (lookup_req ascii_db demo_cfg (lit "89991234567"));
      EvHttp (create_contact_req ascii_db demo_cfg jane);
      EvHttp (create_lead_req ascii_db demo_cfg 0 11);
      EvSheet (ValuesUpdate (lit "Leads!E2") [[CStr (lit "900")]])],
     Ok {| created := [{| row := 2; lead_id := 900; contact_id := 11 |}];
           checked_rows := 1 |},
     idle)
  ∧ data (lookup_req ascii_db demo_cfg (lit "89991234567"))
    = Params [(lit "query", PStr (lit "79991234567"))].
Proof. split; reflexivity. Qed.

(** Cells on which [isdigit] and [int] disagree make [parse_row] raise. *)
Example parse_row_superscript :
  parse_row {| nd_extra := fun _ => false; nd_value := fun _ => 0;
               digit_extra := fun c => (c =? 178)%N; max_str_digits := 4300 |}
            [lit "Ann"; lit ""; lit ""; [178%N]]
  = Raise ValueError
  ∧ parse_row ascii_db [lit "Ann"; lit ""; lit ""; 28%N :: lit "15"]
    = Raise ValueError
  ∧ budget <$> (match parse_row ascii_db
                        [lit "Ann"; lit ""; lit ""; lit " 15 "] with
                | Ok d => Some d
                | _ => None
                end) = Some 15.
Proof. repeat split; reflexivity. Qed.

(** ** Pull reconciler *)

Section Index.

Lemma index_rows_snoc (rows : list (list pystr)) (r : list pystr)
    (m : gmap pystr nat) (n : nat) :
  foldl index_row (m, n) (rows ++ [r])
  = index_row (foldl index_row (m, n) rows) r.
Proof. by rewrite foldl_app. Qed.

Lemma index_rows_count (rows : list (list pystr)) :
  ∀ (m : gmap pystr nat) (n : nat),
    (foldl index_row (m, n) rows).2 = (n + length rows)%nat.
Proof.
  induction rows as [|r rows IH]; intros m n; cbn [foldl length].
  - cbn. lia.
  - unfold index_row at 2. rewrite IH. lia.
Qed.

Lemma lead_to_rowidx_snoc (rows : list (list pystr)) (r : list pystr) :
  lead_to_rowidx (rows ++ [r])
  = match row_key r with
    | Some k => <[k := length rows]> (lead_to_rowidx rows)
    | None => lead_to_rowidx rows
    end.
Proof.
  unfold lead_to_rowidx. rewrite index_rows_snoc.
  pose proof (index_rows_count rows ∅ 0) as Hn.
  destruct (foldl index_row (∅, 0%nat) rows) as [m n]. cbn in Hn. subst n.
  unfold index_row, row_key. cbn [fst].
  destruct (r !! 4%nat) as [c|]; [|done].
  by destruct (truthy_str c).
Qed.

(** The index maps a key to the last row carrying it. *)
Lemma lead_to_rowidx_Some (rows : list (list pystr)) (key : pystr) (i : nat) :
  lead_to_rowidx rows !! key = Some i
  <-> (∃ r, rows !! i = Some r ∧ row_key r = Some key)
      ∧ (∀ j r, (i < j)%nat -> rows !! j = Some r -> row_key r ≠ Some key).
Proof.
  revert i. induction rows as [|r rows IH] using rev_ind; intros i.
  - unfold lead_to_rowidx. cbn. rewrite lookup_empty. split; [done|].
    intros [(r & Hr & _) _]. done.
  - rewrite lead_to_rowidx_snoc.
    assert (∀ j r', (rows ++ [r]) !! j = Some r' ->
                    (j < length rows)%nat ∧ rows !! j = Some r'
                    ∨ j = length rows ∧ r' = r) as Hsplit.
    { intros j r' Hj. apply lookup_app_Some in Hj as [Hj|[Hlen Hj]].
      - left. split; [by eapply lookup_lt_Some|done].
      - right. apply list_lookup_singleton_Some in Hj as [Hj ->].
        split; [lia|done]. }
    destruct (row_key r) as [k|] eqn:Ek.
    + destruct (decide (k = key)) as [->|Hne].
      * rewrite lookup_insert_eq. split.
        -- intros [= <-]. split.
           ++ exists r. split; [|done].
              rewrite lookup_app_r by lia. by rewrite Nat.sub_diag.
           ++ intros j r' Hj Hr'. apply Hsplit in Hr' as [[? _]|[? _]]; lia.
        -- intros [(r' & Hr' & Hk') Hlast]. f_equal.
           apply Hsplit in Hr' as [[Hlt Hr']|[-> _]]; [|done].
           exfalso. apply (Hlast (length rows) r Hlt); [|done].
           rewrite lookup_app_r by lia. by rewrite Nat.sub_diag.
      * rewrite lookup_insert_ne by done. rewrite IH. split.
        -- intros [(r' & Hr' & Hk') Hlast]. split.
           ++ exists r'. split; [|done]. by apply lookup_app_l_Some.
           ++ intros j r'' Hj Hr''. apply Hsplit in Hr'' as [[_ Hr'']|[_ ->]].
              ** by eapply Hlast.
              ** rewrite Ek. congruence.
        -- intros [(r' & Hr' & Hk') Hlast].
           apply Hsplit in Hr' as [[Hlt Hr']|[_ ->]]; [|congruence].
           split; [by exists r'|].
           intros j r'' Hj Hr''. eapply Hlast; [exact Hj|].
           by apply lookup_app_l_Some.
    + rewrite IH. split.
      * intros [(r' & Hr' & Hk') Hlast]. split.
        -- exists r'. split; [|done]. by apply lookup_app_l_Some.
        -- intros j r'' Hj Hr''. apply Hsplit in Hr'' as [[_ Hr'']|[_ ->]].
           ++ by eapply Hlast.
           ++ by rewrite Ek.
      * intros [(r' & Hr' & Hk') Hlast].
        apply Hsplit in Hr' as [[Hlt Hr']|[_ ->]]; [|congruence].
        split; [by exists r'|].
        intros j r'' Hj Hr''. eapply Hlast; [exact Hj|].
        by apply lookup_app_l_Some.
Qed.

(** A key is absent from the index exactly when no row carries it. *)
Lemma lead_to_rowidx_None (rows : list (list pystr)) (key : pystr) :
  lead_to_rowidx rows !! key = None
  <-> ∀ j r, rows !! j = Some r -> row_key r ≠ Some key.
Proof.
  induction rows as [|r rows IH] using rev_ind.
  - unfold lead_to_rowidx. cbn. rewrite lookup_empty. split; [|done].
    intros _ j r Hj. by rewrite lookup_nil in Hj.
  - rewrite lead_to_rowidx_snoc.
    destruct (row_key r) as [k|] eqn:Ek.
    + destruct (decide (k = key)) as [->|Hne].
      * rewrite lookup_insert_eq. split; [done|].
        intros H. exfalso. apply (H (length rows) r); [|done].
        rewrite lookup_app_r by lia. by rewrite Nat.sub_diag.
      * rewrite lookup_insert_ne by done. rewrite IH. split.
        -- intros H j r' Hj. apply lookup_app_Some in Hj as [Hj|[_ Hj]].
           ++ by eapply H.
           ++ apply list_lookup_singleton_Some in Hj as [_ <-].
              rewrite Ek. congruence.
        -- intros H j r' Hj. eapply H. by apply lookup_app_l_Some.
    + rewrite IH. split.
      * intros H j r' Hj. apply lookup_app_Some in Hj as [Hj|[_ Hj]].
        -- by eapply H.
        -- apply list_lookup_singleton_Some in Hj as [_ <-]. by rewrite Ek.
      * intros H j r' Hj. eapply H. by apply lookup_app_l_Some.
Qed.

End Index.

Section Plan.

Variable index : gmap pystr nat.
Variable status_map : gmap Z pystr.
Variable contacts_map : gmap Z contact_info.

Lemma or_zero_default (p : option Z) : or_zero p = default 0 p.
Proof.
  destruct p as [z|]; [|done]. cbn.
  destruct (Z.eqb_spec z 0) as [->|]; done.
Qed.

(** Every lead of the list has an entry in [lead_contact]. *)
Lemma collect_contact_covers (leads : list lead_json) :
  ∀ (acc : list Z * gmap Z (option Z)) (id : Z),
    (is_Some (acc.2 !! id) ∨ ∃ L, L ∈ leads ∧ l_id L = id) ->
    is_Some ((foldl collect_contact acc leads).2 !! id).
Proof.
  induction leads as [|L leads IH]; intros [ids lc] id H.
  - destruct H as [H|(L & HL & _)]; [done|]. by apply elem_of_nil in HL.
  - cbn [foldl]. apply IH. cbn [collect_contact snd].
    destruct (decide (l_id L = id)) as [<-|Hne].
    + left. rewrite lookup_insert_eq. by eexists.
    + rewrite lookup_insert_ne by done.
      destruct H as [H|(L' & HL' & Hid)]; [by left|].
      apply elem_of_cons in HL' as [->|HL']; [done|].
      right. by exists L'.
Qed.

Lemma row_values_of_ok (lead_contact : gmap Z (option Z)) (L : lead_json) :
  is_Some (lead_contact !! l_id L) ->
  row_values_of status_map lead_contact contacts_map L
  = Ok (pull_row status_map lead_contact contacts_map L).
Proof.
  intros [key Hkey]. unfold row_values_of, pull_row, status_label.
  rewrite Hkey, or_zero_default. by destruct key.
Qed.

(** The second loop, from any intermediate plan. *)
Lemma plan_leads_run (lead_contact : gmap Z (option Z))
    (leads : list lead_json) :
  ∀ p : pull_plan,
    Forall (fun L => is_Some (lead_contact !! l_id L)) leads ->
    plan_leads index status_map lead_contact contacts_map p leads
    = Ok {| updates := updates p
              ++ planned_updates index
                   (pull_row status_map lead_contact contacts_map) leads;
            appends := appends p
              ++ planned_appends index
                   (pull_row status_map lead_contact contacts_map) leads;
            n_updated := n_updated p
              + Z.of_nat (length (planned_updates index
                   (pull_row status_map lead_contact contacts_map) leads));
            n_inserted := n_inserted p
              + Z.of_nat (length (planned_appends index
                   (pull_row status_map lead_contact contacts_map) leads)) |}.
Proof.
  induction leads as [|L leads IH]; intros p Hcov.
  - cbn. rewrite !app_nil_r, !Z.add_0_r. by destruct p.
  - inversion Hcov as [|? ? HL Hrest]; subst.
    cbn [plan_leads]. unfold plan_lead.
    rewrite (row_values_of_ok lead_contact L HL).
    unfold planned_updates, planned_appends. cbn [omap list_omap].
    destruct (index !! str_of_Z (l_id L)) as [i|] eqn:Ei; cbn [fmap option_fmap option_map];
      rewrite (IH _ Hrest); cbn [updates appends n_updated n_inserted];
      unfold planned_updates, planned_appends;
      f_equal; f_equal; rewrite <- ?app_assoc; cbn [app length]; try done;
      lia.
Qed.

(** The two counters add up to the number of leads, whenever the loop
    completes. *)
Lemma plan_leads_counts (lead_contact : gmap Z (option Z))
    (leads : list lead_json) :
  ∀ p p' : pull_plan,
    plan_leads index status_map lead_contact contacts_map p leads = Ok p' ->
    n_updated p' + n_inserted p'
    = n_updated p + n_inserted p + Z.of_nat (length leads)
    ∧ n_updated p <= n_updated p' ∧ n_inserted p <= n_inserted p'.
Proof.
  induction leads as [|L leads IH]; intros p p' H.
  - cbn in H. injection H as <-. cbn. lia.
  - cbn [plan_leads] in H.
    destruct (plan_lead index status_map lead_contact contacts_map p L)
      as [p1| |] eqn:E1; try discriminate.
    apply IH in H. unfold plan_lead in E1.
    destruct (row_values_of _ _ _ L) as [rv| |]; try discriminate.
    destruct (index !! str_of_Z (l_id L)); injection E1 as <-;
      cbn [n_updated n_inserted length] in *; lia.
Qed.

End Plan.

Section Pull.

Variable u : interp.
Variable cfg : config.
Variable B : backend.

Lemma collected_covers (leads : list lead_json) :
  Forall (fun L => is_Some ((foldl collect_contact ([], ∅) leads).2 !! l_id L))
         leads.
Proof.
  apply Forall_forall. intros L HL.
  apply collect_contact_covers. right. by exists L.
Qed.

(** The run of [sync_from_amocrm] once its four reads have succeeded: the
    plan is a function of what was read, and the commit is the last step. *)
Lemma sync_from_amocrm_run (fuel : nat) (s s1 s2 s3 s4 : St B)
    (t1 t2 t3 t4 : list event) (rows : list (list pystr))
    (status_map : gmap Z pystr) (leads : list lead_json)
    (contacts_map : gmap Z contact_info) :
  read_sheet_all cfg B s = (t1, Ok rows, s1) ->
  get_status_map cfg B (AMO_PIPELINE_ID cfg) s1 = (t2, Ok status_map, s2) ->
  fetch_leads_with_contacts cfg B fuel (AMO_PIPELINE_ID cfg) s2
    = (t3, Ok leads, s3) ->
  fetch_contacts_by_ids u cfg B (foldl collect_contact ([], ∅) leads).1 s3
    = (t4, Ok contacts_map, s4) ->
  let rv := pull_row status_map (foldl collect_contact ([], ∅) leads).2
                     contacts_map in
  let ups := planned_updates (lead_to_rowidx rows) rv leads in
  let apps := planned_appends (lead_to_rowidx rows) rv leads in
  let commit := commit_sheet_changes cfg B fuel ups apps 100 s4 in
  sync_from_amocrm u cfg B fuel s
  = (t1 ++ t2 ++ t3 ++ t4 ++ trace_of commit,
     match result_of commit with
     | Ok _ => Ok {| updated := Z.of_nat (length ups);
                     inserted := Z.of_nat (length apps);
                     fetched := length leads |}
     | Raise e => Raise e
     | Fuel => Fuel
     end,
     commit.2).
Proof.
  intros H1 H2 H3 H4 rv ups apps commit.
  unfold sync_from_amocrm.
  unfold bind at 1. rewrite H1.
  unfold bind at 1. rewrite H2.
  unfold bind at 1. rewrite H3.
  pose proof (collected_covers leads) as Hcov.
  subst commit ups apps rv. revert H4 Hcov.
  destruct (foldl collect_contact ([], ∅) leads) as [ids lc].
  cbn [fst snd]. intros H4 Hcov.
  unfold bind at 1. rewrite H4.
  unfold bind at 1. unfold lift at 1.
  rewrite (plan_leads_run _ status_map contacts_map lc leads empty_plan Hcov).
  cbn [updates appends n_updated n_inserted empty_plan app].
  unfold bind. unfold ret, trace_of, result_of.
  destruct (commit_sheet_changes _ _ _ _ _ _ s4) as [[tc [[]|e|]] sc];
    cbn [fst snd]; rewrite ?app_nil_r, ?Z.add_0_l; done.
Qed.

End Pull.

Lemma planned_lengths (index : gmap pystr nat) (rv : lead_json -> list cell)
    (leads : list lead_json) :
  (length (planned_updates index rv leads)
   + length (planned_appends index rv leads) = length leads)%nat.
Proof.
  unfold planned_updates, planned_appends.
  induction leads as [|L leads IH]; [done|].
  cbn [omap list_omap length].
  destruct (index !! str_of_Z (l_id L)); cbn [fmap option_fmap option_map length];
    lia.
Qed.

Lemma row_key_Some (r : list pystr) (k : pystr) :
  row_key r = Some k <-> ∃ c, r !! 4%nat = Some c ∧ c ≠ [] ∧ strip c = k.
Proof.
  unfold row_key. destruct (r !! 4%nat) as [c|].
  - destruct c as [|x c]; cbn [truthy_str].
    + split; [done|]. by intros (c' & [= <-] & Hne & _).
    + split.
      * intros [= <-]. by exists (x :: c).
      * by intros (c' & [= <-] & _ & ->).
  - split; [done|]. by intros (c & Hc & _).
Qed.

(** C2. Once [sync_from_amocrm] has read the sheet, the status map, the
    deals and their contacts, it commits this plan: every fetched deal
    gives the 6-field row [name, phone, email, price (0 when absent), deal
    id as a string, status label or else the status id as a string]; a deal
    whose id string is the trimmed content of a non-empty deal-reference
    cell is queued as an update at the index of the (last) row holding it,
    every other deal as an append, one entry per deal. *)
Theorem pull_plan_by_deal_id (u : interp) (cfg : config) (B : backend)
    (fuel : nat) (s s1 s2 s3 s4 : St B) (t1 t2 t3 t4 : list event)
    (rows : list (list pystr)) (status_map : gmap Z pystr)
    (leads : list lead_json) (contacts_map : gmap Z contact_info) :
  read_sheet_all cfg B s = (t1, Ok rows, s1) ->
  get_status_map cfg B (AMO_PIPELINE_ID cfg) s1 = (t2, Ok status_map, s2) ->
  fetch_leads_with_contacts cfg B fuel (AMO_PIPELINE_ID cfg) s2
    = (t3, Ok leads, s3) ->
  fetch_contacts_by_ids u cfg B (foldl collect_contact ([], ∅) leads).1 s3
    = (t4, Ok contacts_map, s4) ->
  let index := lead_to_rowidx rows in
  let rv := pull_row status_map (foldl collect_contact ([], ∅) leads).2
                     contacts_map in
  let ups :=
    omap (fun L => (fun i => (i, rv L)) <$> index !! str_of_Z (l_id L)) leads in
  let apps :=
    omap (fun L => match index !! str_of_Z (l_id L) with
                   | Some _ => None
                   | None => Some (rv L)
                   end) leads in
  let commit := commit_sheet_changes cfg B fuel ups apps 100 s4 in
  sync_from_amocrm u cfg B fuel s
  = (t1 ++ t2 ++ t3 ++ t4 ++ trace_of commit,
     match result_of commit with
     | Ok _ => Ok {| updated := Z.of_nat (length ups);
                     inserted := Z.of_nat (length apps);
                     fetched := length leads |}
     | Raise e => Raise e
     | Fuel => Fuel
     end,
     commit.2)
  ∧ (∀ L, ∃ c,
       rv L = [CStr (ci_name c); CStr (ci_phone c); CStr (ci_email c);
               CInt (default 0 (l_price L));
               CStr (str_of_Z (l_id L));
               CStr (match l_status_id L with
                     | Some z => default (str_of_Z z) (status_map !! z)
                     | None => lit "None"
                     end)])
  ∧ (∀ L i,
       index !! str_of_Z (l_id L) = Some i
       <-> (∃ r c, rows !! i = Some r ∧ r !! 4%nat = Some c ∧ c ≠ []
                   ∧ strip c = str_of_Z (l_id L))
           ∧ (∀ j r, (i < j)%nat -> rows !! j = Some r ->
                     row_key r ≠ Some (str_of_Z (l_id L))))
  ∧ (∀ L,
       index !! str_of_Z (l_id L) = None
       <-> ∀ j r c, rows !! j = Some r -> r !! 4%nat = Some c -> c ≠ [] ->
                    strip c ≠ str_of_Z (l_id L))
  ∧ (length ups + length apps = length leads)%nat.
Proof.
  intros H1 H2 H3 H4 index rv ups apps commit.
  split.
  { apply (sync_from_amocrm_run u cfg B fuel s s1 s2 s3 s4 t1 t2 t3 t4 rows
             status_map leads contacts_map H1 H2 H3 H4). }
  split; [intros L; by eexists|].
  split.
  { intros L i. unfold index. rewrite lead_to_rowidx_Some.
    split; intros [(r & Hr) Hlast]; (split; [|done]).
    - destruct Hr as [Hr Hk]. apply row_key_Some in Hk as (c & ? & ? & ?).
      by exists r, c.
    - destruct Hr as (c & Hr & Hc & Hne & Hs). exists r. split; [done|].
      apply row_key_Some. by exists c. }
  split.
  { intros L. unfold index. rewrite lead_to_rowidx_None.
    split.
    - intros H j r c Hj Hc Hne Hs. apply (H j r Hj).
      apply row_key_Some. by exists c.
    - intros H j r Hj Hk. apply row_key_Some in Hk as (c & Hc & Hne & Hs).
      by apply (H j r c). }
  apply planned_lengths.
Qed.

Lemma pull_plan_scenario :
  let commit :=
    commit_sheet_changes demo_cfg scripted 6 [(0%nat, row_777)] [row_555] 100
      idle in
  trace_of commit
    = [EvSheet (ValuesBatchUpdate [(lit "Leads!A2:F2", [row_777])]);
       EvSheet (ValuesAppend (lit "Leads!A:F") [row_555])]
  ∧ sync_from_amocrm ascii_db demo_cfg scripted 6 pull_world
    = ([EvSheet (ValuesGet (lit "Leads!A2:F"))]
       ++ trace_of (get_status_map demo_cfg scripted 8237934
                      {| http_script := http_script pull_world;
                         sheet_script := [] |})
       ++ trace_of (fetch_leads_with_contacts demo_cfg scripted 6 8237934
                      {| http_script := drop 1 (http_script pull_world);
                         sheet_script := [] |})
       ++ trace_of (fetch_contacts_by_ids ascii_db demo_cfg scripted [11]
                      {| http_script := drop 2 (http_script pull_world);
                         sheet_script := [] |})
       ++ trace_of commit,
       Ok {| updated := 1; inserted := 1; fetched := 2 |}, idle).
Proof.
  split; [reflexivity|].
  refine (proj1 (pull_plan_by_deal_id ascii_db demo_cfg scripted 6 pull_world
                   _ _ _ _ _ _ _ _ pull_rows pull_status_map pull_leads
                   pull_contacts_map _ _ _ _)); reflexivity.
Defined.

(** ** The loop bound of the model

    A run that ends within its bound ends the same way within any larger
    one: results other than [Fuel] do not depend on the bound. *)

Section MoreFuel.

Variable u : interp.
Variable cfg : config.
Variable B : backend.

Lemma bind_more_fuel {A C} (m m' : M B A) (k k' : A -> M B C) (s : St B) :
  (result_of (m s) ≠ Fuel -> m' s = m s) ->
  (∀ a s1, result_of (k a s1) ≠ Fuel -> k' a s1 = k a s1) ->
  result_of (bind m k s) ≠ Fuel ->
  bind m' k' s = bind m k s.
Proof.
  intros Hm Hk. unfold bind, result_of in *.
  destruct (m s) as [[t [a|e|]] s1] eqn:E; cbn [fst snd] in *.
  - rewrite Hm by done. intros H. rewrite Hk; [done|].
    destruct (k a s1) as [[t2 r2] s2]. exact H.
  - intros _. by rewrite Hm.
  - done.
Qed.

Lemma execute_retrying_more_fuel (c : sheet_call) (fuel : nat) :
  ∀ (attempt : Z) (s : St B) (extra : nat),
    result_of (execute_retrying B fuel attempt c s) ≠ Fuel ->
    execute_retrying B (fuel + extra) attempt c s
    = execute_retrying B fuel attempt c s.
Proof.
  induction fuel as [|fuel IH]; intros attempt s extra H; [done|].
  cbn [execute_retrying Nat.add] in *.
  apply bind_more_fuel; [done| |exact H].
  intros [v|msg|] s1 Ho; try done.
  destruct (contains _ msg && (attempt <? 5)); [|done].
  apply bind_more_fuel; [done| |exact Ho].
  intros [] s2. apply IH.
Qed.

Lemma send_all_more_fuel (calls : list sheet_call) :
  ∀ (fuel extra : nat) (s : St B),
    result_of (send_all B fuel calls s) ≠ Fuel ->
    send_all B (fuel + extra) calls s = send_all B fuel calls s.
Proof.
  induction calls as [|c calls IH]; intros fuel extra s H; [done|].
  cbn [send_all] in *.
  apply bind_more_fuel; [|intros [] s1; apply IH|exact H].
  apply execute_retrying_more_fuel.
Qed.

Lemma commit_more_fuel (fuel extra : nat) (ups : list (nat * list cell))
    (apps : list (list cell)) (chunk_size : Z) (s : St B) :
  result_of (commit_sheet_changes cfg B fuel ups apps chunk_size s) ≠ Fuel ->
  commit_sheet_changes cfg B (fuel + extra) ups apps chunk_size s
  = commit_sheet_changes cfg B fuel ups apps chunk_size s.
Proof.
  unfold commit_sheet_changes. intros H.
  apply bind_more_fuel; [done| |exact H]. intros [] s1 H1.
  apply bind_more_fuel; [done| |exact H1]. intros ucs s2 H2.
  apply bind_more_fuel; [apply send_all_more_fuel| |exact H2]. intros [] s3 H3.
  apply bind_more_fuel; [done| |exact H3]. intros acs s4.
  apply send_all_more_fuel.
Qed.

Lemma fetch_leads_loop_more_fuel (pipeline_id : Z) (fuel : nat) :
  ∀ (page : Z) (leads : list lead_json) (s : St B) (extra : nat),
    result_of (fetch_leads_loop cfg B fuel pipeline_id page leads s) ≠ Fuel ->
    fetch_leads_loop cfg B (fuel + extra) pipeline_id page leads s
    = fetch_leads_loop cfg B fuel pipeline_id page leads s.
Proof.
  induction fuel as [|fuel IH]; intros page leads s extra H; [done|].
  cbn [fetch_leads_loop Nat.add] in *.
  apply bind_more_fuel; [done| |exact H]. intros r s1 H1.
  apply bind_more_fuel; [done| |exact H1]. intros [] s2 H2.
  apply bind_more_fuel; [done| |exact H2]. intros b s3.
  destruct (emb_leads b); [done|].
  destruct (truthy_str _); [apply IH|done].
Qed.

Lemma sync_from_amocrm_more_fuel (fuel extra : nat) (s : St B) :
  result_of (sync_from_amocrm u cfg B fuel s) ≠ Fuel ->
  sync_from_amocrm u cfg B (fuel + extra) s = sync_from_amocrm u cfg B fuel s.
Proof.
  unfold sync_from_amocrm. intros H.
  apply bind_more_fuel; [done| |exact H]. intros rows s1 H1.
  apply bind_more_fuel; [done| |exact H1]. intros status_map s2 H2.
  apply bind_more_fuel; [apply fetch_leads_loop_more_fuel| |exact H2].
  intros leads s3.
  destruct (foldl collect_contact ([], ∅) leads) as [ids lc]. intros H3.
  apply bind_more_fuel; [done| |exact H3]. intros contacts_map s4 H4.
  apply bind_more_fuel; [done| |exact H4]. intros p s5 H5.
  apply bind_more_fuel; [apply commit_more_fuel|done|exact H5].
Qed.

End MoreFuel.

(** C9. Whenever [sync_from_amocrm] returns a summary, [fetched] is the
    number of deals the pipeline fetch returned, and [updated] and
    [inserted] (both non-negative) add up to it: each fetched deal was
    counted once, as an update or as an insert.  The summary does not
    depend on the loop bound of the model. *)
Theorem pull_summary_adds_up (u : interp) (cfg : config) (B : backend)
    (fuel : nat) (s s' : St B) (t : list event) (summary : pull_summary) :
  sync_from_amocrm u cfg B fuel s = (t, Ok summary, s') ->
  (∃ (leads : list lead_json) (t3 : list event) (s2 s3 : St B),
      fetch_leads_with_contacts cfg B fuel (AMO_PIPELINE_ID cfg) s2
        = (t3, Ok leads, s3)
      ∧ fetched summary = length leads
      ∧ updated summary + inserted summary = Z.of_nat (fetched summary)
      ∧ 0 <= updated summary
      ∧ 0 <= inserted summary)
  ∧ (∀ extra : nat,
       sync_from_amocrm u cfg B (fuel + extra) s = (t, Ok summary, s')).
Proof.
  intros Hrun. split.
  - unfold sync_from_amocrm in Hrun. rename Hrun into H.
    apply bind_ok_inv in H as (t1 & rows & s1 & ? & _ & H & ->).
    apply bind_ok_inv in H as (t2 & status_map & s2 & ? & _ & H & ->).
    apply bind_ok_inv in H as (t3 & leads & s3 & ? & Hleads & H & ->).
    exists leads, t3, s2, s3. split; [exact Hleads|].
    destruct (foldl collect_contact ([], ∅) leads) as [ids lc].
    apply bind_ok_inv in H as (t4 & contacts_map & s4 & ? & _ & H & ->).
    apply bind_ok_inv in H as (t5 & p & s5 & ? & Hplan & H & ->).
    apply bind_ok_inv in H as (t6 & [] & s6 & ? & _ & H & ->).
    unfold ret in H. injection H as <- <- <-.
    unfold lift in Hplan.
    destruct (plan_leads _ _ _ _ _ leads) as [p'| |] eqn:Ep; try discriminate.
    injection Hplan as <- -> <-.
    apply plan_leads_counts in Ep. cbn in Ep. cbn [fetched updated inserted].
    lia.
  - intros extra. rewrite sync_from_amocrm_more_fuel; [exact Hrun|].
    by rewrite Hrun.
Qed.

Lemma pull_summary_scenario :
  sync_from_amocrm ascii_db demo_cfg scripted 6 pull_world
    = (trace_of (sync_from_amocrm ascii_db demo_cfg scripted 6 pull_world),
       Ok {| updated := 1; inserted := 1; fetched := 2 |}, idle)
  ∧ ∃ (leads : list lead_json) (t3 : list event) (s2 s3 : script),
      fetch_leads_with_contacts demo_cfg scripted 6 8237934 s2
        = (t3, Ok leads, s3)
      ∧ 2%nat = length leads
      ∧ 1 + 1 = Z.of_nat 2.
Proof.
  split; [vm_compute; reflexivity|].
  destruct (pull_summary_adds_up ascii_db demo_cfg scripted 6 pull_world idle
              (trace_of (sync_from_amocrm ascii_db demo_cfg scripted 6 pull_world))
              {| updated := 1; inserted := 1; fetched := 2 |}
              ltac:(vm_compute; reflexivity))
    as [(leads & t3 & s2 & s3 & Hfetch & Hlen & Hsum & _) _].
  by exists leads, t3, s2, s3.
Defined.

(** * Further properties of the code *)

(** ** Contact normalizer: canonical form *)

(** X1. A normalised phone is never a bare 10-digit number and never an
    11-digit number with the trunk prefix 8: both shapes are rewritten. *)
Theorem normalize_phone_canonical (u : interp) (raw : pystr) :
  length (normalize_phone u raw) ≠ 10%nat
  ∧ ¬ (length (normalize_phone u raw) = 11%nat
       ∧ head (normalize_phone u raw) = Some 56%N).
Proof.
  rewrite normalize_phone_unfold. unfold normalize_phone_spec.
  set (d := filter _ raw). clearbody d.
  repeat case_bool_decide; cbn [length head]; split; try lia;
    try (intros [Hl Hh]; first [done | tauto]).
  destruct d; cbn in *; lia.
Qed.

(** X2. The result depends on the decimal digits of the input only, and a
    national number of 10 digits gets the same normal form whether it is
    written bare, with the trunk prefix 8 or with the country code 7. *)
Theorem normalize_phone_formats_agree (u : interp) (raw1 raw2 d : pystr) :
  filter (fun c => is_decimal u c = true) raw1
    = filter (fun c => is_decimal u c = true) raw2 ->
  Forall (fun c => is_decimal u c = true) d ->
  length d = 10%nat ->
  normalize_phone u raw1 = normalize_phone u raw2
  ∧ normalize_phone u d = 55%N :: d
  ∧ normalize_phone u (56%N :: d) = 55%N :: d
  ∧ normalize_phone u (55%N :: d) = 55%N :: d.
Proof.
  intros Hsame Hd Hlen. rewrite !normalize_phone_unfold.
  unfold normalize_phone_spec.
  split; [by rewrite Hsame|].
  assert (Forall (fun c => is_decimal u c = true) (56%N :: d)) as H8
    by (constructor; [reflexivity|done]).
  assert (Forall (fun c => is_decimal u c = true) (55%N :: d)) as H7
    by (constructor; [reflexivity|done]).
  rewrite (filter_decimal_id u d Hd), (filter_decimal_id u _ H8),
    (filter_decimal_id u _ H7).
  cbn [length head tail]. rewrite Hlen.
  repeat split; repeat case_bool_decide; try done;
    try (exfalso; intuition congruence); exfalso; intuition lia.
Qed.

Lemma normalize_phone_formats_agree_moscow :
  normalize_phone ascii_db (lit "+7 (495) 123-45-67")
    = normalize_phone ascii_db (lit "74951234567")
  ∧ normalize_phone ascii_db (lit "4951234567") = lit "74951234567"
  ∧ normalize_phone ascii_db (lit "84951234567") = lit "74951234567"
  ∧ normalize_phone ascii_db (lit "74951234567") = lit "74951234567".
Proof.
  apply (normalize_phone_formats_agree ascii_db
           (lit "+7 (495) 123-45-67") (lit "74951234567") (lit "4951234567")).
  - reflexivity.
  - repeat constructor.
  - reflexivity.
Defined.

(** ** Row parsing *)

Section Strip.

Context {A : Type}.
Variable p : A -> bool.

Lemma drop_while_suffix (l : list A) : ∃ k, l = k ++ drop_while p l.
Proof.
  induction l as [|x l [k IH]]; [by exists []|].
  cbn. destruct (p x); [|by exists []].
  exists (x :: k). cbn. by f_equal.
Qed.

Lemma drop_while_head (l : list A) (x : A) :
  head (drop_while p l) = Some x -> p x = false.
Proof.
  induction l as [|y l IH]; [done|]. cbn.
  destruct (p y) eqn:E; [done|]. cbn. by intros [= <-].
Qed.

Lemma drop_while_fixed (l : list A) :
  (∀ x, head l = Some x -> p x = false) -> drop_while p l = l.
Proof.
  destruct l as [|y l]; [done|]. intros H. cbn. by rewrite (H y).
Qed.

Lemma drop_while_idem (l : list A) :
  drop_while p (drop_while p l) = drop_while p l.
Proof. apply drop_while_fixed. apply drop_while_head. Qed.

Lemma drop_while_clean (l : list A) :
  Forall (fun x => p x = false) l -> drop_while p l = l.
Proof.
  intros H. apply drop_while_fixed. intros x Hx.
  destruct l; [done|]. injection Hx as <-. by inversion H.
Qed.

(** Trimming both ends, as [strip] and [int] do it. *)
Lemma trim_idem (s : list A) :
  let trim l := reverse (drop_while p (reverse (drop_while p l))) in
  trim (trim s) = trim s.
Proof.
  cbv zeta beta.
  set (a := drop_while p s).
  set (b := drop_while p (reverse a)).
  assert (drop_while p (reverse b) = reverse b) as ->.
  { apply drop_while_fixed. intros x Hx.
    destruct (drop_while_suffix (reverse a)) as [k Hk]. fold b in Hk.
    apply (f_equal reverse) in Hk. rewrite reverse_involutive, reverse_app in Hk.
    apply (drop_while_head s). fold a. rewrite Hk.
    destruct (reverse b); [done|]. exact Hx. }
  rewrite reverse_involutive. unfold b. by rewrite drop_while_idem.
Qed.

Lemma trim_clean (s : list A) :
  Forall (fun x => p x = false) s ->
  reverse (drop_while p (reverse (drop_while p s))) = s.
Proof.
  intros H. rewrite (drop_while_clean s H).
  rewrite drop_while_clean; [apply reverse_involutive|].
  by apply Forall_reverse.
Qed.

End Strip.

Lemma strip_idem (s : pystr) : strip (strip s) = strip s.
Proof. apply (trim_idem is_space). Qed.

(** X3. [parse_row] can fail on the budget cell only: a row with fewer
    than four cells, or with a fourth cell that is not all digits once
    trimmed, always parses, and its budget is 0. *)
Theorem parse_row_defaults (u : interp) (r : list pystr) :
  (length r ≤ 3)%nat
  ∨ (∃ c, r !! 3%nat = Some c ∧ isdigit u (strip c) = false) ->
  ∃ d, parse_row u r = Ok d ∧ budget d = 0.
Proof.
  intros H. unfold parse_row.
  destruct H as [H|(c & Hc & Hd)].
  - rewrite (lookup_ge_None_2 r 3) by lia. by eexists.
  - rewrite Hc, Hd. by eexists.
Qed.

Lemma parse_row_defaults_words :
  ∃ d, parse_row ascii_db
         [lit "Ann"; lit "+7 999 000-00-00"; lit ""; lit "about 5000"] = Ok d
       ∧ budget d = 0.
Proof.
  apply parse_row_defaults. right. eexists. split; reflexivity.
Defined.

(** X4. The text fields of a parsed row are trimmed (trimming them again
    changes nothing), and a field whose cell is missing from the row is the
    empty string. *)
Theorem parse_row_trimmed (u : interp) (r : list pystr) (d : intake_row) :
  parse_row u r = Ok d ->
  strip (name d) = name d
  ∧ strip (phone d) = phone d
  ∧ strip (email d) = email d
  ∧ strip (deal_id d) = deal_id d
  ∧ ((length r ≤ 0)%nat -> name d = [])
  ∧ ((length r ≤ 1)%nat -> phone d = [])
  ∧ ((length r ≤ 2)%nat -> email d = [])
  ∧ ((length r ≤ 4)%nat -> deal_id d = []).
Proof.
  unfold parse_row. intros H.
  destruct (match r !! 3%nat with Some _ => _ | None => _ end) as [b| |];
    try discriminate.
  injection H as <-. cbn [name phone email deal_id].
  repeat split;
    try (destruct (r !! _); [apply strip_idem|reflexivity]);
    intros Hlen; by rewrite lookup_ge_None_2 by lia.
Qed.

Lemma parse_row_trimmed_short :
  parse_row ascii_db [lit "  Ann "; lit " 8 999 000-00-00"] =
    Ok {| name := lit "Ann"; phone := lit "8 999 000-00-00"; email := [];
          budget := 0; deal_id := [] |}
  ∧ strip (lit "Ann") = lit "Ann"
  ∧ strip (lit "8 999 000-00-00") = lit "8 999 000-00-00".
Proof.
  split; [reflexivity|].
  destruct (parse_row_trimmed ascii_db [lit "  Ann "; lit " 8 999 000-00-00"]
              _ eq_refl) as (Hn & Hp & _).
  split; [exact Hn|exact Hp].
Defined.

(** ** Numerals: [str] of an int and [int] of a cell *)

Section Numerals.

Variable u : interp.

Lemma lit_String (c : Ascii.ascii) (s : string) :
  lit (String c s) = Ascii.N_of_ascii c :: lit s.
Proof. reflexivity. Qed.

Lemma uint_chars_digits (d : Decimal.uint) :
  Forall (fun c => is_ascii_digit c = true) (lit (NilEmpty.string_of_uint d)).
Proof.
  induction d; cbn [NilEmpty.string_of_uint]; rewrite ?lit_String;
    constructor; done.
Qed.

Lemma uint_chars_value (d : Decimal.uint) :
  ∀ acc,
    foldl (fun acc c => 10 * acc + decimal_value u c) acc
          (lit (NilEmpty.string_of_uint d))
    = uint_value acc d.
Proof.
  induction d; intros acc; cbn [NilEmpty.string_of_uint uint_value];
    rewrite ?lit_String; cbn [foldl]; try done; by rewrite <- IHd.
Qed.

Lemma uint_value_pos (d : Decimal.uint) :
  ∀ acc : positive,
    uint_value (Z.pos acc) d = Z.pos (Pos.of_uint_acc d acc).
Proof.
  induction d; intros acc; cbn [uint_value Pos.of_uint_acc]; try done;
    rewrite <- IHd; f_equal; lia.
Qed.

Lemma uint_value_0 (d : Decimal.uint) :
  uint_value 0 d = Z.of_N (Pos.of_uint d).
Proof.
  induction d; cbn [uint_value Pos.of_uint]; try done;
    change (10 * 0 + _) with (Z.pos 1%positive) at 1 ||
    change (10 * 0 + 2) with (Z.pos 2) || change (10 * 0 + 3) with (Z.pos 3) ||
    change (10 * 0 + 4) with (Z.pos 4) || change (10 * 0 + 5) with (Z.pos 5) ||
    change (10 * 0 + 6) with (Z.pos 6) || change (10 * 0 + 7) with (Z.pos 7) ||
    change (10 * 0 + 8) with (Z.pos 8) || change (10 * 0 + 9) with (Z.pos 9);
    by rewrite uint_value_pos.
Qed.

(** The numeral [str] prints for a non-negative int. *)
Lemma str_of_Z_numeral (z : Z) :
  0 <= z ->
  ∃ d, str_of_Z z = lit (NilEmpty.string_of_uint d)
       ∧ str_of_Z z ≠ []
       ∧ uint_value 0 d = z.
Proof.
  intros Hz. destruct z as [|p|p]; [| |lia].
  - exists (Decimal.D0 Decimal.Nil). by repeat split.
  - exists (Pos.to_uint p). unfold str_of_Z. cbn [Z.to_int NilZero.string_of_int].
    pose proof (DecimalPos.Unsigned.to_uint_nonnil p) as Hnil.
    assert (NilZero.string_of_uint (Pos.to_uint p)
            = NilEmpty.string_of_uint (Pos.to_uint p)) as ->.
    { unfold NilZero.string_of_uint. by destruct (Pos.to_uint p). }
    split; [done|]. split.
    + destruct (Pos.to_uint p); try done;
        cbn [NilEmpty.string_of_uint]; by rewrite lit_String.
    + by rewrite uint_value_0, DecimalPos.Unsigned.of_to.
Qed.

Lemma lit_uint_length (d : Decimal.uint) :
  length (lit (NilEmpty.string_of_uint d)) = Decimal.nb_digits d.
Proof.
  induction d; cbn [NilEmpty.string_of_uint Decimal.nb_digits];
    [reflexivity|..]; rewrite lit_String; cbn [length]; by rewrite IHd.
Qed.

Lemma uint_value_lower (d : Decimal.uint) :
  ∀ acc, 0 <= acc ->
         acc * 10 ^ Z.of_nat (Decimal.nb_digits d) <= uint_value acc d.
Proof.
  induction d; intros acc Hacc; cbn [uint_value Decimal.nb_digits];
    [cbn; lia|..];
    rewrite Nat2Z.inj_succ, Z.pow_succ_r by lia;
    (etransitivity; [|apply IHd; lia]);
    pose proof (Z.pow_pos_nonneg 10 (Z.of_nat (Decimal.nb_digits d))
                  ltac:(lia) ltac:(lia));
    nia.
Qed.

(** The numeral of a positive number does not start with 0. *)
Lemma to_uint_no_leading_zero (p : positive) (d : Decimal.uint) :
  Pos.to_uint p ≠ Decimal.D0 d.
Proof.
  intros E.
  pose proof (DecimalPos.Unsigned.to_of (Pos.to_uint p)) as Hn.
  rewrite DecimalPos.Unsigned.of_to in Hn.
  change (N.to_uint (N.pos p)) with (Pos.to_uint p) in Hn.
  pose proof (DecimalPos.Unsigned.to_uint_nonzero p) as Hz.
  rewrite E in Hn, Hz. unfold Decimal.unorm in Hn. cbn [Decimal.nzhead] in Hn.
  pose proof (DecimalFacts.nb_digits_nzhead d) as Hlen.
  destruct (Decimal.nzhead d) eqn:Eh;
    try (rewrite <- Hn in Hlen; cbn [Decimal.nb_digits] in Hlen; lia).
  injection Hn as Hd. subst d. by apply Hz.
Qed.

(** A number below [10 ^ n] is printed with at most [n] digits. *)
Lemma str_of_Z_length (z : Z) (n : nat) :
  0 <= z < 10 ^ Z.of_nat n ->
  (1 ≤ n)%nat ->
  (length (str_of_Z z) ≤ n)%nat.
Proof.
  intros [Hz Hlt] Hn. destruct z as [|p|p]; [exact Hn| |lia].
  unfold str_of_Z. cbn [Z.to_int NilZero.string_of_int].
  pose proof (DecimalPos.Unsigned.to_uint_nonnil p) as Hnil.
  pose proof (to_uint_no_leading_zero p) as Hhead.
  assert (uint_value 0 (Pos.to_uint p) = Z.pos p) as Hv
    by (by rewrite uint_value_0, DecimalPos.Unsigned.of_to).
  assert (NilZero.string_of_uint (Pos.to_uint p)
          = NilEmpty.string_of_uint (Pos.to_uint p)) as ->
    by (unfold NilZero.string_of_uint; by destruct (Pos.to_uint p)).
  rewrite lit_uint_length.
  destruct (Pos.to_uint p) as [|d|d|d|d|d|d|d|d|d|d]; [done|by destruct (Hhead d)|..];
    cbn [uint_value Decimal.nb_digits] in *;
    (destruct (decide (Decimal.nb_digits d < n)%nat) as [Hok|Hbig]; [lia|]);
    exfalso;
    match type of Hv with uint_value ?a _ = _ =>
      pose proof (uint_value_lower d a ltac:(lia)) as Hlow end;
    pose proof (Z.pow_le_mono_r 10 (Z.of_nat n) (Z.of_nat (Decimal.nb_digits d))
                  ltac:(lia) ltac:(lia)) as Hpow;
    nia.
Qed.

Lemma ascii_digit_not_space (c : N) :
  is_ascii_digit c = true -> is_space c = false.
Proof.
  unfold is_ascii_digit, is_space. intros H.
  apply andb_true_iff in H as [H1 H2].
  apply N.leb_le in H1. apply N.leb_le in H2.
  repeat (apply orb_false_intro);
    first [ apply N.eqb_neq; lia
          | apply andb_false_iff; first [ left; apply N.leb_gt; lia
                                        | right; apply N.leb_gt; lia ] ].
Qed.

Lemma digits_strip (s : pystr) :
  Forall (fun c => is_ascii_digit c = true) s ->
  strip s = s ∧ int_strip s = s.
Proof.
  intros H. split.
  - apply (trim_clean is_space). eapply Forall_impl; [exact H|].
    apply ascii_digit_not_space.
  - apply (trim_clean is_int_space). eapply Forall_impl; [exact H|].
    intros c Hc. unfold is_int_space. by rewrite (ascii_digit_not_space c Hc).
Qed.

Lemma digits_forallb (s : pystr) :
  Forall (fun c => is_ascii_digit c = true) s ->
  forallb (is_decimal u) s = true ∧ forallb (is_digit u) s = true.
Proof.
  induction 1 as [|c s Hc _ [IH1 IH2]]; [done|].
  cbn [forallb]. rewrite IH1, IH2.
  unfold is_digit, is_decimal. by rewrite Hc.
Qed.

Lemma isdigit_str_of_Z (z : Z) : 0 <= z -> isdigit u (str_of_Z z) = true.
Proof.
  intros Hz. destruct (str_of_Z_numeral z Hz) as (d & Hs & Hne & _).
  unfold isdigit. apply andb_true_iff. split.
  - by apply truthy_str_true.
  - rewrite Hs. apply digits_forallb, uint_chars_digits.
Qed.

Lemma int_of_digits_str_of_Z (z : Z) :
  0 <= z ->
  (max_str_digits u = 0 ∨ length (str_of_Z z) ≤ max_str_digits u)%nat ->
  int_of_digits u (str_of_Z z) = Ok z.
Proof.
  intros Hz Hlim. destruct (str_of_Z_numeral z Hz) as (d & Hs & Hne & Hv).
  pose proof (uint_chars_digits d) as Hd. rewrite <- Hs in Hd.
  unfold int_of_digits.
  rewrite (proj2 (digits_strip _ Hd)).
  apply truthy_str_true in Hne. rewrite Hne.
  rewrite (proj1 (digits_forallb _ Hd)).
  replace ((max_str_digits u =? 0)%nat
           || (length (str_of_Z z) <=? max_str_digits u)%nat) with true.
  - cbn [andb]. rewrite Hs, uint_chars_value. by rewrite Hv.
  - symmetry. apply orb_true_iff.
    destruct Hlim as [H0|Hle]; [left; by apply Nat.eqb_eq|right; by apply Nat.leb_le].
Qed.

End Numerals.

(** X5. A budget cell holding the decimal numeral of a non-negative
    integer, as [str] prints it, is read back as that integer (when the
    numeral is within the interpreter's digit limit). *)
Theorem budget_round_trip (u : interp) (z : Z) (a b c : pystr)
    (rest : list pystr) :
  0 <= z ->
  (max_str_digits u = 0 ∨ length (str_of_Z z) ≤ max_str_digits u)%nat ->
  parse_row u (a :: b :: c :: str_of_Z z :: rest)
  = Ok {| name := strip a; phone := strip b; email := strip c; budget := z;
          deal_id := match rest with x :: _ => strip x | [] => [] end |}.
Proof.
  intros Hz Hlim. unfold parse_row. cbn [lookup list_lookup].
  destruct (str_of_Z_numeral z Hz) as (d & Hs & Hne & Hv).
  pose proof (uint_chars_digits d) as Hd. rewrite <- Hs in Hd.
  rewrite (proj1 (digits_strip _ Hd)).
  rewrite (isdigit_str_of_Z u z Hz), (int_of_digits_str_of_Z u z Hz Hlim).
  by destruct rest.
Qed.

Lemma budget_round_trip_1500 :
  parse_row ascii_db [lit " Jane "; lit ""; lit ""; lit "1500"; lit "555"]
  = Ok {| name := lit "Jane"; phone := []; email := []; budget := 1500;
          deal_id := lit "555" |}.
Proof.
  apply (budget_round_trip ascii_db 1500 (lit " Jane ") (lit "") (lit "")
           [lit "555"]); [lia|right; vm_compute; lia].
Defined.

Lemma decimal_value_nonneg (u : interp) (c : N) :
  (∀ c, 0 <= nd_value u c) -> 0 <= decimal_value u c.
Proof.
  intros Hnd. unfold decimal_value.
  destruct (is_ascii_digit c) eqn:E; [|apply Hnd].
  unfold is_ascii_digit in E. apply andb_true_iff in E as [E _].
  apply N.leb_le in E. lia.
Qed.

Lemma digits_fold_nonneg (u : interp) (t : pystr) :
  (∀ c, 0 <= nd_value u c) ->
  ∀ acc, 0 <= acc ->
         0 <= foldl (fun acc c => 10 * acc + decimal_value u c) acc t.
Proof.
  intros Hnd. induction t as [|c t IH]; intros acc Hacc; [done|].
  cbn [foldl]. apply IH.
  pose proof (decimal_value_nonneg u c Hnd). lia.
Qed.

Lemma decimal_value_range (u : interp) (c : N) :
  (∀ c, 0 <= nd_value u c <= 9) -> 0 <= decimal_value u c <= 9.
Proof.
  intros Hnd. unfold decimal_value.
  destruct (is_ascii_digit c) eqn:E; [|apply Hnd].
  unfold is_ascii_digit in E. apply andb_true_iff in E as [E1 E2].
  apply N.leb_le in E1. apply N.leb_le in E2. lia.
Qed.

Lemma digits_fold_range (u : interp) (t : pystr) :
  (∀ c, 0 <= nd_value u c <= 9) ->
  ∀ acc, 0 <= acc ->
         0 <= foldl (fun acc c => 10 * acc + decimal_value u c) acc t
           < (acc + 1) * 10 ^ Z.of_nat (length t).
Proof.
  intros Hnd. induction t as [|c t IH]; intros acc Hacc; [cbn; lia|].
  cbn [foldl length]. rewrite Nat2Z.inj_succ, Z.pow_succ_r by lia.
  pose proof (decimal_value_range u c Hnd) as Hc.
  destruct (IH (10 * acc + decimal_value u c) ltac:(lia)) as [H1 H2].
  split; [exact H1|].
  pose proof (Z.pow_pos_nonneg 10 (Z.of_nat (length t)) ltac:(lia) ltac:(lia)).
  nia.
Qed.

(** A parsed budget is a non-negative number that [str] prints: it has
    no more digits than the cell [int] accepted. *)
Lemma parsed_budget_printable (u : interp) (r : list pystr) (d : intake_row) :
  parse_row u r = Ok d ->
  (∀ c, 0 <= nd_value u c <= 9) ->
  0 <= budget d ∧ within_str_limit u (budget d) = true.
Proof.
  intros Hp Hnd.
  assert (within_str_limit u 0 = true) as H0.
  { unfold within_str_limit. change (length (str_of_Z (Z.abs 0))) with 1%nat.
    destruct (max_str_digits u) as [|m]; [done|].
    apply orb_true_iff. right. apply Nat.leb_le. lia. }
  unfold parse_row in Hp.
  destruct (r !! 3%nat) as [c|]; [|injection Hp as <-; by split].
  destruct (isdigit u (strip c)); [|injection Hp as <-; by split].
  unfold int_of_digits in Hp.
  destruct (_ && _) eqn:Hcond; [|discriminate].
  injection Hp as <-. cbn [budget].
  apply andb_true_iff in Hcond as [Hcond Hlim].
  apply andb_true_iff in Hcond as [Hne _].
  destruct (digits_fold_range u (int_strip c) Hnd 0 ltac:(lia)) as [Hlo Hhi].
  split; [exact Hlo|].
  unfold within_str_limit. rewrite Z.abs_eq by exact Hlo.
  apply orb_true_iff in Hlim as [Hlim|Hlim]; [by rewrite Hlim|].
  apply orb_true_iff. right. apply Nat.leb_le. apply Nat.leb_le in Hlim.
  etransitivity; [|exact Hlim].
  apply str_of_Z_length; [lia|].
  destruct (int_strip c); [done|cbn; lia].
Qed.

(** X6. The budget of a parsed row is never negative and never too long
    for [str] to print, and the digit test of [amo_create_lead] lets it
    through unchanged: the deal of a row is created with the row's budget
    as its price.  (The value of a decimal character is a digit 0..9.) *)
Theorem parsed_budget_is_price (u : interp) (cfg : config) (B : backend)
    (r : list pystr) (d : intake_row) (contact : Z) (s : St B) :
  parse_row u r = Ok d ->
  (∀ c, 0 <= nd_value u c <= 9) ->
  0 <= budget d
  ∧ within_str_limit u (budget d) = true
  ∧ ∃ result s',
      amo_create_lead u cfg B (budget d) contact s
      = ([EvHttp {| method := POST;
                    url := AMO_BASE_URL cfg ++ lit "/api/v4/leads";
                    data := JsonLead (budget d) (AMO_STATUS_ID cfg)
                                     (AMO_PIPELINE_ID cfg) contact |}],
         result, s').
Proof.
  intros Hp Hnd.
  destruct (parsed_budget_printable u r d Hp Hnd) as [Hb Hlim].
  split; [exact Hb|]. split; [exact Hlim|].
  destruct (amo_create_lead_within u cfg B (budget d) contact s Hlim)
    as (result & s' & Hrun).
  exists result, s'. rewrite Hrun. unfold create_lead_req.
  by rewrite (isdigit_str_of_Z u (budget d) Hb).
Qed.

Lemma parsed_budget_is_price_1500 :
  0 <= 1500
  ∧ within_str_limit ascii_db 1500 = true
  ∧ ∃ result s',
      amo_create_lead ascii_db demo_cfg (constant_backend forbidden) 1500 11 tt
      = ([EvHttp {| method := POST;
                    url := lit "https://example.amocrm.ru/api/v4/leads";
                    data := JsonLead 1500 67260282 8237934 11 |}],
         result, s').
Proof.
  apply (parsed_budget_is_price ascii_db demo_cfg (constant_backend forbidden)
           [lit " Jane "; lit ""; lit ""; lit "1500"; lit "555"]
           {| name := lit "Jane"; phone := []; email := []; budget := 1500;
              deal_id := lit "555" |} 11 tt eq_refl).
  intros c. cbn. lia.
Defined.

(** X7. [amo_create_lead] never sends a negative price.  For a price that
    [str] prints, the price of the one request is the argument when that
    is non-negative and 0 otherwise; for a price with more digits than
    [str] prints the call raises [ValueError] and sends nothing. *)
Theorem create_lead_price_clamped (u : interp) (cfg : config) (B : backend)
    (price contact : Z) (s : St B) :
  nd_extra u 45 = false ->
  digit_extra u 45 = false ->
  if within_str_limit u price
  then ∃ result s',
         amo_create_lead u cfg B price contact s
         = ([EvHttp {| method := POST;
                       url := AMO_BASE_URL cfg ++ lit "/api/v4/leads";
                       data := JsonLead (Z.max 0 price) (AMO_STATUS_ID cfg)
                                        (AMO_PIPELINE_ID cfg) contact |}],
            result, s')
  else amo_create_lead u cfg B price contact s = ([], Raise ValueError, s).
Proof.
  intros Hnd Hdg.
  destruct (within_str_limit u price) eqn:Hlim;
    [|by apply amo_create_lead_beyond].
  destruct (amo_create_lead_within u cfg B price contact s Hlim)
    as (result & s' & Hrun).
  exists result, s'. rewrite Hrun. unfold create_lead_req.
  destruct (Z.leb_spec 0 price) as [Hle|Hlt].
  - rewrite (isdigit_str_of_Z u price Hle). by rewrite Z.max_r.
  - replace (isdigit u (str_of_Z price)) with false; [by rewrite Z.max_l by lia|].
    destruct price as [|p|p]; try lia.
    unfold str_of_Z. cbn [Z.to_int NilZero.string_of_int].
    rewrite lit_String. unfold isdigit. cbn [truthy_str forallb andb].
    replace (Ascii.N_of_ascii _) with 45%N by reflexivity.
    unfold is_digit at 1, is_decimal. by rewrite Hnd, Hdg.
Qed.

Lemma create_lead_price_clamped_debt :
  ∃ result s',
    amo_create_lead ascii_db demo_cfg (constant_backend forbidden) (-250) 11 tt
    = ([EvHttp {| method := POST;
                  url := lit "https://example.amocrm.ru/api/v4/leads";
                  data := JsonLead 0 67260282 8237934 11 |}],
       result, s').
Proof.
  exact (create_lead_price_clamped ascii_db demo_cfg
           (constant_backend forbidden) (-250) 11 tt eq_refl eq_refl).
Defined.

(** ** Time spent backing off *)

(** X8. One call of [amo_request] pauses once between two consecutive
    sends and never for more than 7.5 seconds in total
    (0.5 + 1 + 2 + 4). *)
Theorem amo_request_backoff_budget (B : backend) (rq : amo_req) (s : St B) :
  (total_sleep (trace_of (amo_request B rq s)) <= 15 # 2)%Q
  ∧ S (pauses (trace_of (amo_request B rq s)))
    = http_attempts (trace_of (amo_request B rq s))
  ∧ (total_sleep (trace_of (amo_request B rq s))
     == (2 ^ Z.of_nat (pauses (trace_of (amo_request B rq s))) - 1) # 2)%Q.
Proof.
  destruct (amo_request_run B rq s) as (k & o & s' & Hk & ->).
  unfold trace_of. cbn [fst].
  do 5 (destruct k as [|k]; [vm_compute; repeat split; discriminate|]).
  lia.
Qed.

(** X9. Around one batch request [commit_sheet_changes] pauses at most 31
    seconds in total (1 + 2 + 4 + 8 + 16), once between two consecutive
    executions of the request. *)
Theorem sheet_retry_backoff_budget (B : backend) (c : sheet_call)
    (extra : nat) (s : St B) :
  let t := trace_of (execute_retrying B (6 + extra) 0 c s) in
  (total_sleep t <= 31 # 1)%Q
  ∧ S (pauses t) = sheet_attempts t
  ∧ (total_sleep t == (2 ^ Z.of_nat (pauses t) - 1) # 1)%Q.
Proof.
  destruct (execute_retrying_trace B c 5 0 (6 + extra) s eq_refl ltac:(lia))
    as (k & os & o & s' & Hk & _ & _ & _ & Hrun & _).
  change (Z.of_nat 0) with 0 in Hrun. cbn zeta. rewrite Hrun.
  unfold trace_of. cbn [fst].
  do 6 (destruct k as [|k]; [vm_compute; repeat split; discriminate|]).
  lia.
Qed.

(** ** Which events a function can produce *)

Section TraceClasses.

Variable u : interp.
Variable cfg : config.
Variable B : backend.

Lemma bind_Forall {A C} (P : event -> Prop) (m : M B A) (k : A -> M B C)
    (s : St B) :
  Forall P (trace_of (m s)) ->
  (∀ a s1, Forall P (trace_of (k a s1))) ->
  Forall P (trace_of (bind m k s)).
Proof.
  intros Hm Hk. unfold bind, trace_of in *.
  destruct (m s) as [[t [a|e|]] s1]; cbn [fst] in *; try done.
  specialize (Hk a s1). destruct (k a s1) as [[t2 r2] s2]. cbn in *.
  by apply Forall_app.
Qed.

Lemma amo_request_crm (rq : amo_req) (s : St B) :
  Forall (fun e => is_sheet e = false) (trace_of (amo_request B rq s)).
Proof.
  destruct (amo_request_run B rq s) as (k & o & s' & _ & ->).
  unfold trace_of. cbn [fst]. apply Forall_app. split; [|by repeat constructor].
  unfold amo_retries. generalize 0%nat.
  induction k as [|k IH]; intros a; [constructor|].
  cbn [seq flat_map]. repeat constructor. apply IH.
Qed.

Lemma ret_trace {A} (a : A) (s : St B) (P : event -> Prop) :
  Forall P (trace_of (ret (B := B) a s)).
Proof. constructor. Qed.

Lemma raise_trace {A} (e : exn) (s : St B) (P : event -> Prop) :
  Forall P (trace_of (raise (B := B) (A := A) e s)).
Proof. constructor. Qed.

Lemma raise_for_status_trace (r : response) (s : St B) (P : event -> Prop) :
  Forall P (trace_of (raise_for_status B r s)).
Proof. unfold raise_for_status. destruct (_ && _); constructor. Qed.

Lemma r_json_trace (r : response) (s : St B) (P : event -> Prop) :
  Forall P (trace_of (r_json B r s)).
Proof. unfold r_json. destruct (json r); constructor. Qed.

Lemma amo_find_contact_crm (q : pystr) (s : St B) :
  Forall (fun e => is_sheet e = false) (trace_of (amo_find_contact u cfg B q s)).
Proof.
  destruct q as [|c q]; [constructor|].
  rewrite amo_find_contact_run by done. apply amo_request_crm.
Qed.

Lemma resolve_contact_crm (qs : list pystr) :
  ∀ s, Forall (fun e => is_sheet e = false)
              (trace_of (resolve_contact u cfg B qs s)).
Proof.
  induction qs as [|q qs IH]; intros s; [constructor|].
  cbn [resolve_contact]. apply bind_Forall.
  - destruct (truthy_str q); [apply amo_find_contact_crm|constructor].
  - intros cid s1. destruct (truthy_id cid); [constructor|apply IH].
Qed.

Lemma amo_create_contact_crm (n p e : pystr) (s : St B) :
  Forall (fun e => is_sheet e = false)
         (trace_of (amo_create_contact u cfg B n p e s)).
Proof.
  unfold amo_create_contact.
  apply bind_Forall; [apply amo_request_crm|intros r s1].
  apply bind_Forall; [apply raise_for_status_trace|intros [] s2].
  apply bind_Forall; [apply r_json_trace|intros b s3].
  destruct (emb_contacts b); constructor.
Qed.

Lemma amo_create_lead_crm (price contact : Z) (s : St B) :
  Forall (fun e => is_sheet e = false)
         (trace_of (amo_create_lead u cfg B price contact s)).
Proof.
  destruct (within_str_limit u price) eqn:Hlim.
  - destruct (amo_create_lead_within u cfg B price contact s Hlim)
      as (r & s' & ->).
    by repeat constructor.
  - rewrite (amo_create_lead_beyond u cfg B price contact s Hlim).
    constructor.
Qed.

Lemma get_status_map_crm (pid : Z) (s : St B) :
  Forall (fun e => is_sheet e = false) (trace_of (get_status_map cfg B pid s)).
Proof.
  unfold get_status_map.
  apply bind_Forall; [apply amo_request_crm|intros r s1].
  apply bind_Forall; [apply raise_for_status_trace|intros [] s2].
  apply bind_Forall; [apply r_json_trace|intros b s3]. constructor.
Qed.

Lemma fetch_leads_loop_crm (pid : Z) (fuel : nat) :
  ∀ page leads s,
    Forall (fun e => is_sheet e = false)
           (trace_of (fetch_leads_loop cfg B fuel pid page leads s)).
Proof.
  induction fuel as [|fuel IH]; intros page leads s; [constructor|].
  cbn [fetch_leads_loop].
  apply bind_Forall; [apply amo_request_crm|intros r s1].
  apply bind_Forall; [apply raise_for_status_trace|intros [] s2].
  apply bind_Forall; [apply r_json_trace|intros b s3].
  destruct (emb_leads b); [constructor|].
  destruct (truthy_str _); [apply IH|constructor].
Qed.

Lemma fetch_contact_chunks_crm (cs : list (list Z)) :
  ∀ out s,
    Forall (fun e => is_sheet e = false)
           (trace_of (fetch_contact_chunks u cfg B cs out s)).
Proof.
  induction cs as [|ch cs IH]; intros out s; [constructor|].
  cbn [fetch_contact_chunks].
  apply bind_Forall; [apply amo_request_crm|intros r s1].
  apply bind_Forall; [apply raise_for_status_trace|intros [] s2].
  apply bind_Forall; [apply r_json_trace|intros b s3]. apply IH.
Qed.

Lemma fetch_contacts_by_ids_crm (ids : list Z) (s : St B) :
  Forall (fun e => is_sheet e = false)
         (trace_of (fetch_contacts_by_ids u cfg B ids s)).
Proof.
  unfold fetch_contacts_by_ids. destruct ids as [|i ids]; [constructor|].
  apply bind_Forall; [unfold lift; constructor|intros cs s1].
  apply fetch_contact_chunks_crm.
Qed.

Lemma read_rows_no_write (s : St B) :
  Forall (fun e => is_write e = false) (trace_of (read_rows cfg B s)).
Proof.
  unfold read_rows, bind, get_sheet_service, execute_once, bind, execute, ret,
    raise, trace_of.
  destruct (ensure_credentials B s) as [[e|] s0]; [constructor|].
  destruct (sheets_execute B _ s0) as [[v|msg|] s1]; by repeat constructor.
Qed.

Lemma execute_retrying_no_http (c : sheet_call) (fuel : nat) :
  ∀ attempt s,
    Forall (fun e => is_http e = false)
           (trace_of (execute_retrying B fuel attempt c s)).
Proof.
  induction fuel as [|fuel IH]; intros attempt s; [constructor|].
  cbn [execute_retrying]. apply bind_Forall.
  - unfold execute, trace_of. destruct (sheets_execute B c s).
    by repeat constructor.
  - intros [v|msg|] s1; try constructor.
    destruct (_ && _); [|constructor].
    apply bind_Forall; [by repeat constructor|intros [] s2; apply IH].
Qed.

Lemma send_all_no_http (fuel : nat) (calls : list sheet_call) :
  ∀ s, Forall (fun e => is_http e = false)
              (trace_of (send_all B fuel calls s)).
Proof.
  induction calls as [|c calls IH]; intros s; [constructor|].
  cbn [send_all]. apply bind_Forall; [apply execute_retrying_no_http|].
  intros [] s1. apply IH.
Qed.

Lemma commit_no_http (fuel : nat) (ups : list (nat * list cell))
    (apps : list (list cell)) (cs : Z) (s : St B) :
  Forall (fun e => is_http e = false)
         (trace_of (commit_sheet_changes cfg B fuel ups apps cs s)).
Proof.
  unfold commit_sheet_changes.
  apply bind_Forall.
  { unfold get_sheet_service, trace_of.
    destruct (ensure_credentials B s) as [[e|] s0]; constructor. }
  intros [] s1. apply bind_Forall; [unfold lift; constructor|intros ucs s2].
  apply bind_Forall; [apply send_all_no_http|intros [] s3].
  apply bind_Forall; [unfold lift; constructor|intros acs s4].
  apply send_all_no_http.
Qed.

Lemma not_sheet_not_write (t : list event) :
  Forall (fun e => is_sheet e = false) t ->
  Forall (fun e => is_write e = false) t.
Proof.
  intros H. eapply Forall_impl; [exact H|]. by intros [rq|c|q].
Qed.

Lemma not_sheet_no_writes (t : list event) :
  Forall (fun e => is_sheet e = false) t -> sheet_writes t = [].
Proof.
  induction 1 as [|e t He _ IH]; [done|].
  unfold sheet_writes in *. cbn [omap list_omap]. rewrite IH.
  by destruct e.
Qed.

End TraceClasses.

(** ** Push reconciler: what a run leaves behind *)

Section PushRun.

Variable u : interp.
Variable cfg : config.
Variable B : backend.

Lemma no_write_no_writes (t : list event) :
  Forall (fun e => is_write e = false) t -> sheet_writes t = [].
Proof.
  induction 1 as [|e t He _ IH]; [done|].
  unfold sheet_writes in *. cbn [omap list_omap]. rewrite IH.
  destruct e as [rq|c|q]; try done. by destruct c.
Qed.

Lemma sheet_writes_app (t1 t2 : list event) :
  sheet_writes (t1 ++ t2) = sheet_writes t1 ++ sheet_writes t2.
Proof. apply omap_app. Qed.

Lemma write_deal_id_ok (idx : nat) (lead : Z) (s s' : St B)
    (t : list event) :
  write_deal_id cfg B idx lead s = (t, Ok tt, s') ->
  t = [EvSheet (ValuesUpdate
                  (sheet_name cfg ++ lit "!E" ++ str_of_Z (Z.of_nat idx + 2))
                  [[CStr (str_of_Z lead)]])].
Proof.
  unfold write_deal_id, bind, get_sheet_service, execute_once, bind, execute,
    ret, raise.
  destruct (ensure_credentials B s) as [[e|] s0]; [discriminate|].
  destruct (sheets_execute B _ s0) as [[v|msg|] s1]; try discriminate.
  by intros [= <- <-].
Qed.

(** A completed iteration, with its writes. *)
Lemma process_row_done (idx : nat) (r : list pystr)
    (created out : list created_entry) (s s' : St B) (t : list event) :
  process_row u cfg B idx r created s = (t, Ok out, s') ->
  ∃ d,
    parse_row u r = Ok d
    ∧ ((deal_id d ≠ [] ∧ out = created ∧ t = [])
       ∨ (deal_id d = []
          ∧ ∃ e, out = created ++ [e]
                 ∧ row e = Z.of_nat idx + 2
                 ∧ sheet_writes t = [write_back cfg e])).
Proof.
  unfold process_row. intros H.
  apply bind_ok_inv in H as (t1 & data & s1 & t2 & Hp & H & ->).
  unfold lift in Hp. destruct (parse_row u r) as [d| |] eqn:Ep; try discriminate.
  injection Hp as <- <- <-. exists d. split; [done|].
  destruct (truthy_str (deal_id d)) eqn:Ed.
  - left. apply truthy_str_true in Ed. unfold ret in H.
    by injection H as <- <- <-.
  - right. apply truthy_str_false in Ed. split; [done|].
    apply bind_ok_inv in H as (t3 & found & s3 & t4 & Hres & H & ->).
    apply bind_ok_inv in H as (t5 & contact & s5 & t6 & Hcon & H & ->).
    apply bind_ok_inv in H as (t7 & lead & s7 & t8 & Hlead & H & ->).
    apply bind_ok_inv in H as (t9 & [] & s9 & t10 & Hw & H & ->).
    unfold ret in H. injection H as <- <- <-.
    eexists. split; [reflexivity|]. split; [reflexivity|].
    cbn [app]. rewrite !sheet_writes_app.
    pose proof (resolve_contact_crm u cfg B [email d; phone d] s) as H3.
    rewrite Hres in H3.
    assert (Forall (fun e => is_sheet e = false) t5) as H5.
    { destruct (truthy_id found).
      - unfold ret in Hcon. injection Hcon as <- _ _. constructor.
      - pose proof (amo_create_contact_crm u cfg B (name d) (phone d)
                      (email d) s3) as H5.
        rewrite Hcon in H5. exact H5. }
    pose proof (amo_create_lead_crm u cfg B (budget d) contact s5) as H7.
    rewrite Hlead in H7.
    unfold trace_of in H3, H7. cbn [fst] in H3, H7.
    rewrite (not_sheet_no_writes _ H3), (not_sheet_no_writes _ H5),
      (not_sheet_no_writes _ H7).
    apply write_deal_id_ok in Hw as ->. reflexivity.
Qed.

Lemma process_rows_done (rows : list (list pystr)) :
  ∀ (idx : nat) (created out : list created_entry) (s s' : St B)
    (t : list event),
    process_rows u cfg B idx rows created s = (t, Ok out, s') ->
    ∃ new,
      out = created ++ new
      ∧ map row new = unresolved_rows u idx rows
      ∧ sheet_writes t = map (write_back cfg) new.
Proof.
  induction rows as [|r rows IH]; intros idx created out s s' t H.
  - cbn in H. injection H as <- <- <-. exists []. by rewrite app_nil_r.
  - cbn [process_rows] in H.
    apply bind_ok_inv in H as (t1 & mid & s1 & t2 & Hrow & Hrest & ->).
    apply process_row_done in Hrow as (d & Hp & Hcase).
    apply IH in Hrest as (new & -> & Hrows & Hwrites).
    cbn [unresolved_rows]. rewrite Hp, sheet_writes_app, Hwrites.
    destruct Hcase as [(Hd & -> & ->)|(Hd & e & -> & He & Hw)].
    + apply truthy_str_true in Hd. rewrite Hd. by exists new.
    + apply truthy_str_false in Hd. rewrite Hd, Hw.
      exists (e :: new). rewrite <- app_assoc. cbn [app map].
      by rewrite He, Hrows.
Qed.

(** The loop over the rows composes: the rows may be cut anywhere. *)
Lemma process_rows_app (rows1 rows2 : list (list pystr)) :
  ∀ (idx : nat) (created : list created_entry) (s : St B),
    process_rows u cfg B idx (rows1 ++ rows2) created s
    = (c <- process_rows u cfg B idx rows1 created ;;
       process_rows u cfg B (idx + length rows1) rows2 c) s.
Proof.
  induction rows1 as [|r rows1 IH]; intros idx created s.
  - cbn [app process_rows length]. rewrite Nat.add_0_r.
    unfold bind, ret. by destruct (process_rows _ _ _ _ rows2 created s) as [[? ?] ?].
  - cbn [app process_rows length]. unfold bind.
    destruct (process_row u cfg B idx r created s) as [[t1 [mid|e|]] s1];
      try done.
    specialize (IH (S idx) mid s1). unfold bind in IH. rewrite IH.
    replace (S idx + length rows1)%nat
      with (idx + S (length rows1))%nat by lia.
    destruct (process_rows u cfg B (S idx) rows1 mid s1) as [[t2 [c|e|]] s2];
      try done.
    destruct (process_rows u cfg B (idx + S (length rows1)) rows2 c s2)
      as [[t3 r3] s3].
    by rewrite app_assoc.
Qed.

End PushRun.

(** X10. A successful run of [process_new_rows] returns exactly one created
    entry per row that had no deal reference, in row order and with that
    row's sheet number ([index + 2]); [checked_rows] is the number of rows
    read. *)
Theorem push_one_deal_per_unresolved_row (u : interp) (cfg : config)
    (B : backend) (s s1 s' : St B) (t0 t : list event)
    (rows : list (list pystr)) (summary : push_summary) :
  read_rows cfg B s = (t0, Ok rows, s1) ->
  process_new_rows u cfg B s = (t, Ok summary, s') ->
  map row (created summary) = unresolved_rows u 0 rows
  ∧ checked_rows summary = length rows.
Proof.
  intros Hread H. unfold process_new_rows in H.
  apply bind_ok_inv in H as (t1 & rows' & s1' & t2 & Hread' & H & ->).
  rewrite Hread in Hread'. injection Hread' as <- <- <-.
  apply bind_ok_inv in H as (t3 & out & s3 & t4 & Hrows & H & ->).
  unfold ret in H. injection H as <- <- <-. cbn [created checked_rows].
  apply process_rows_done in Hrows as (new & -> & Hnew & _).
  by split.
Qed.

(** X11. In a successful run of [process_new_rows] the only changes made to
    the sheet are single-cell writes, one per created entry and in the same
    order, each putting the id of the created deal into column E of the
    entry's row. *)
Theorem push_writes_back_created_ids (u : interp) (cfg : config) (B : backend)
    (s s' : St B) (t : list event) (summary : push_summary) :
  process_new_rows u cfg B s = (t, Ok summary, s') ->
  sheet_writes t
  = map (fun e => ValuesUpdate
                    (sheet_name cfg ++ lit "!E" ++ str_of_Z (row e))
                    [[CStr (str_of_Z (lead_id e))]])
        (created summary).
Proof.
  intros H. unfold process_new_rows in H.
  apply bind_ok_inv in H as (t1 & rows & s1 & t2 & Hread & H & ->).
  apply bind_ok_inv in H as (t3 & out & s3 & t4 & Hrows & H & ->).
  unfold ret in H. injection H as <- <- <-. cbn [created].
  apply process_rows_done in Hrows as (new & -> & _ & Hw).
  pose proof (read_rows_no_write cfg B s) as Hr. rewrite Hread in Hr.
  unfold trace_of in Hr. cbn [fst] in Hr.
  rewrite !sheet_writes_app, (no_write_no_writes _ Hr), Hw. cbn [app].
  by rewrite app_nil_r.
Qed.

(** X12. The row loop of [process_new_rows] can be cut at any row: running
    it over [rows1 ++ rows2] is running it over [rows1] and then over
    [rows2] with the indices shifted.  So when the run over [rows1] fails,
    the whole run ends there with the same events and the same final state:
    nothing is done for the later rows. *)
Theorem push_failure_stops_the_batch (u : interp) (cfg : config) (B : backend)
    (rows1 rows2 : list (list pystr)) (idx : nat)
    (created : list created_entry) (s s1 : St B) (t1 : list event) (e : exn) :
  process_rows u cfg B idx rows1 created s = (t1, Raise e, s1) ->
  process_rows u cfg B idx (rows1 ++ rows2) created s = (t1, Raise e, s1)
  ∧ ∀ s0 created0,
      process_rows u cfg B idx (rows1 ++ rows2) created0 s0
      = (c <- process_rows u cfg B idx rows1 created0 ;;
         process_rows u cfg B (idx + length rows1) rows2 c) s0.
Proof.
  intros H. split.
  - rewrite process_rows_app. by apply bind_run_raise.
  - intros. apply process_rows_app.
Qed.

Lemma push_one_deal_per_unresolved_row_demo :
  unresolved_rows ascii_db 0 push_rows = [3]
  ∧ map row (created push_outcome) = unresolved_rows ascii_db 0 push_rows
  ∧ checked_rows push_outcome = length push_rows.
Proof.
  split; [reflexivity|].
  eapply (push_one_deal_per_unresolved_row ascii_db demo_cfg scripted
            push_world); reflexivity.
Defined.

Lemma push_writes_back_created_ids_demo :
  sheet_writes (trace_of (process_new_rows ascii_db demo_cfg scripted push_world))
  = [ValuesUpdate (lit "Leads!E3") [[CStr (lit "900")]]].
Proof.
  apply (push_writes_back_created_ids ascii_db demo_cfg scripted push_world
           idle _ push_outcome).
  reflexivity.
Defined.

Lemma push_failure_stops_the_batch_demo :
  process_rows ascii_db demo_cfg scripted 0
    ([jane_row] ++ [[lit "Oleg"; lit "9990001122"]]) [] rate_limited_crm
  = (trace_of (process_rows ascii_db demo_cfg scripted 0 [jane_row] []
                 rate_limited_crm),
     Raise (HTTPStatusError 429),
     {| http_script := [resp 200 (lead_body 900)];
        sheet_script := sheet_script rate_limited_crm |}).
Proof.
  apply (push_failure_stops_the_batch ascii_db demo_cfg scripted [jane_row]
           [[lit "Oleg"; lit "9990001122"]] 0 [] rate_limited_crm).
  reflexivity.
Defined.

(** ** Pull reconciler: reads first, writes last *)

Section PullOrder.

Variable u : interp.
Variable cfg : config.
Variable B : backend.

(** A computation whose events so far change nothing in the sheet, followed
    by one that either stops without a result or ends in a tail [T]. *)
Lemma bind_phase {A C} (T : list event -> Prop) (m : M B A)
    (k : A -> M B C) (s : St B) :
  Forall (fun e => is_write e = false) (trace_of (m s)) ->
  (∀ a s1,
      (Forall (fun e => is_write e = false) (trace_of (k a s1))
       ∧ ∀ x, result_of (k a s1) ≠ Ok x)
      ∨ ∃ t1 t2, Forall (fun e => is_write e = false) t1 ∧ T t2
                 ∧ trace_of (k a s1) = t1 ++ t2) ->
  (Forall (fun e => is_write e = false) (trace_of (bind m k s))
   ∧ ∀ x, result_of (bind m k s) ≠ Ok x)
  ∨ ∃ t1 t2, Forall (fun e => is_write e = false) t1 ∧ T t2
             ∧ trace_of (bind m k s) = t1 ++ t2.
Proof.
  intros Hm Hk. unfold bind, trace_of, result_of in *.
  destruct (m s) as [[t [a|e|]] s1]; cbn [fst snd] in *;
    [|left; by split..].
  destruct (Hk a s1) as [[Hw Hr]|(t1 & t2 & Hw & HT & Ht)];
    destruct (k a s1) as [[t' r'] s']; cbn [fst snd] in *.
  - left. split; [by apply Forall_app|done].
  - right. exists (t ++ t1), t2. rewrite Ht, app_assoc.
    split; [by apply Forall_app|done].
Qed.

End PullOrder.

(** X13. [sync_from_amocrm] changes the sheet only after all its reads:
    either the run stops without a summary and without having changed the
    sheet, or its events are a part free of sheet changes followed by the
    events of the one [commit_sheet_changes] call, during which no CRM
    request is made. *)
Theorem pull_reads_before_writes (u : interp) (cfg : config) (B : backend)
    (fuel : nat) (s : St B) :
  (Forall (fun e => is_write e = false)
          (trace_of (sync_from_amocrm u cfg B fuel s))
   ∧ ∀ x, result_of (sync_from_amocrm u cfg B fuel s) ≠ Ok x)
  ∨ ∃ t1 t2,
      Forall (fun e => is_write e = false) t1
      ∧ (Forall (fun e => is_http e = false) t2
         ∧ ∃ ups apps s4,
             t2 = trace_of (commit_sheet_changes cfg B fuel ups apps 100 s4))
      ∧ trace_of (sync_from_amocrm u cfg B fuel s) = t1 ++ t2.
Proof.
  unfold sync_from_amocrm.
  apply bind_phase; [apply read_rows_no_write|intros rows s1].
  apply bind_phase;
    [apply not_sheet_not_write, get_status_map_crm|intros status_map s2].
  apply bind_phase;
    [apply not_sheet_not_write, fetch_leads_loop_crm|intros leads s3].
  destruct (foldl collect_contact ([], ∅) leads) as [ids lc].
  apply bind_phase;
    [apply not_sheet_not_write, fetch_contacts_by_ids_crm|intros cm s4].
  apply bind_phase; [unfold lift; constructor|intros p s5].
  right. exists [], (trace_of (commit_sheet_changes cfg B fuel (updates p)
                                 (appends p) 100 s5)).
  split; [constructor|]. split.
  - split; [apply commit_no_http|by eexists _, _, _].
  - unfold bind, ret, trace_of.
    destruct (commit_sheet_changes _ _ _ _ _ _ s5) as [[t [[]|e|]] s6];
      cbn [fst app]; by rewrite ?app_nil_r.
Qed.

(** ** Batch commit on a sheet that accepts every call *)

Section Healthy.

Variable cfg : config.
Variable B : backend.

Hypothesis credentials_valid : ∀ s, ∃ s', ensure_credentials B s = (None, s').
Hypothesis always_executed :
  ∀ c s, ∃ v s', sheets_execute B c s = (Executed v, s').

Lemma send_all_healthy (fuel : nat) (calls : list sheet_call) :
  ∀ s, ∃ s', send_all B (S fuel) calls s = (map EvSheet calls, Ok tt, s').
Proof.
  induction calls as [|c calls IH]; intros s; [by exists s|].
  destruct (always_executed c s) as (v & s1 & E).
  destruct (IH s1) as (s' & Hrest). exists s'.
  cbn [send_all execute_retrying map]. unfold bind, execute. rewrite E.
  unfold ret at 1. cbn [app]. by rewrite Hrest.
Qed.

End Healthy.

(** X14. On a sheet backend whose credentials are valid and that executes
    every call, [commit_sheet_changes] (with a positive [chunk_size])
    succeeds with exactly one request per chunk and no pause: first the
    update chunks, then the append chunks.  With nothing to update and
    nothing to append it sends nothing. *)
Theorem commit_on_healthy_sheet (cfg : config) (B : backend) (fuel : nat)
    (ups : list (nat * list cell)) (apps : list (list cell)) (chunk_size : Z)
    (s : St B) :
  (∀ s, ∃ s', ensure_credentials B s = (None, s')) ->
  (∀ c s, ∃ v s', sheets_execute B c s = (Executed v, s')) ->
  0 < chunk_size ->
  ∃ ucs acs,
    chunks ups chunk_size = Ok ucs
    ∧ chunks apps 500 = Ok acs
    ∧ trace_of (commit_sheet_changes cfg B (S fuel) ups apps chunk_size s)
      = map EvSheet
          (map (fun ch => ValuesBatchUpdate (update_data cfg ch)) ucs
           ++ map (ValuesAppend (sheet_name cfg ++ lit "!A:F")) acs)
    ∧ result_of (commit_sheet_changes cfg B (S fuel) ups apps chunk_size s)
      = Ok tt
    ∧ (ups = [] -> apps = [] ->
       trace_of (commit_sheet_changes cfg B (S fuel) ups apps chunk_size s)
       = []).
Proof.
  intros Hcred Hexec Hcs.
  destruct (chunks_partition ups chunk_size Hcs) as (ucs & Hu & Huc & Hul & _).
  destruct (chunks_partition apps 500 ltac:(lia)) as (acs & Ha & Hac & Hal & _).
  exists ucs, acs. split; [done|]. split; [done|].
  assert (∃ s',
    commit_sheet_changes cfg B (S fuel) ups apps chunk_size s
    = (map EvSheet
         (map (fun ch => ValuesBatchUpdate (update_data cfg ch)) ucs
          ++ map (ValuesAppend (sheet_name cfg ++ lit "!A:F")) acs),
       Ok tt, s')) as [s' Hrun].
  { unfold commit_sheet_changes, bind at 1, get_sheet_service.
    destruct (Hcred s) as [s0 ->].
    unfold bind at 1, lift at 1. rewrite Hu. unfold bind at 1.
    destruct (send_all_healthy B Hexec fuel
                (map (fun ch => ValuesBatchUpdate (update_data cfg ch)) ucs) s0)
      as [s1 ->].
    unfold bind at 1, lift at 1. rewrite Ha.
    destruct (send_all_healthy B Hexec fuel
                (map (ValuesAppend (sheet_name cfg ++ lit "!A:F")) acs) s1)
      as [s2 ->].
    exists s2. cbn [app]. by rewrite map_app. }
  rewrite Hrun. unfold trace_of, result_of. cbn [fst snd].
  split; [done|]. split; [done|].
  intros -> ->.
  destruct ucs as [|ch ucs].
  - destruct acs as [|ch acs]; [done|].
    inversion Hal as [|? ? Hch _]. apply app_eq_nil in Hac as [-> _].
    cbn in Hch. lia.
  - inversion Hul as [|? ? Hch _]. apply app_eq_nil in Huc as [-> _].
    cbn in Hch. lia.
Qed.

Lemma commit_on_healthy_sheet_250 :
  trace_of (commit_sheet_changes demo_cfg (constant_backend forbidden) 1
              demo_updates [[CStr (lit "Jane Doe")]] 100 tt)
  = map EvSheet
      (map (fun ch => ValuesBatchUpdate (update_data demo_cfg ch))
           (slices 100 demo_updates 3)
       ++ [ValuesAppend (lit "Leads!A:F") [[CStr (lit "Jane Doe")]]])
  ∧ result_of (commit_sheet_changes demo_cfg (constant_backend forbidden) 1
                 demo_updates [[CStr (lit "Jane Doe")]] 100 tt) = Ok tt.
Proof.
  destruct (commit_on_healthy_sheet demo_cfg (constant_backend forbidden) 0
              demo_updates [[CStr (lit "Jane Doe")]] 100 tt)
    as (ucs & acs & Hu & Ha & Ht & Hr & _).
  - intros []. by exists tt.
  - intros c []. by exists None, tt.
  - lia.
  - injection Hu as <-. injection Ha as <-. split; [exact Ht|exact Hr].
Defined.

(** ** Dictionaries built from responses *)

Section DictFromList.

Context {K : Type} `{Countable K} {V T : Type}.
Variables (key : T -> K) (val : T -> V).

Lemma dict_snoc (m : gmap K V) (l : list T) (x : T) :
  foldl (fun m it => <[key it := val it]> m) m (l ++ [x])
  = <[key x := val x]> (foldl (fun m it => <[key it := val it]> m) m l).
Proof. by rewrite foldl_app. Qed.

(** A key is absent exactly when no item carries it. *)
Lemma dict_lookup_None (m : gmap K V) (l : list T) (k : K) :
  foldl (fun m it => <[key it := val it]> m) m l !! k = None
  <-> m !! k = None ∧ k ∉ map key l.
Proof.
  induction l as [|x l IH] using rev_ind.
  - cbn. split; [intros; split; [done|apply not_elem_of_nil]|by intros [? _]].
  - rewrite dict_snoc, map_app. cbn [map].
    destruct (decide (key x = k)) as [<-|Hne].
    + rewrite lookup_insert_eq. split; [done|].
      intros [_ Hn]. exfalso. apply Hn. apply elem_of_app. right.
      apply list_elem_of_singleton. done.
    + rewrite lookup_insert_ne by done. rewrite IH.
      split; intros [Hm Hn]; (split; [done|]).
      * intros Hin. apply elem_of_app in Hin as [Hin|Hin]; [done|].
        apply list_elem_of_singleton in Hin. congruence.
      * intros Hin. apply Hn, elem_of_app. by left.
Qed.

(** A value found comes from the initial dictionary or from an item. *)
Lemma dict_lookup_Some (m : gmap K V) (l : list T) (k : K) (v : V) :
  foldl (fun m it => <[key it := val it]> m) m l !! k = Some v ->
  m !! k = Some v ∨ ∃ it, it ∈ l ∧ key it = k ∧ val it = v.
Proof.
  induction l as [|x l IH] using rev_ind; [by left|].
  rewrite dict_snoc.
  destruct (decide (key x = k)) as [<-|Hne].
  - rewrite lookup_insert_eq. intros [= <-]. right. exists x.
    split; [|done]. apply elem_of_app. right. by apply list_elem_of_singleton.
  - rewrite lookup_insert_ne by done. intros Hl.
    destruct (IH Hl) as [?|(it & Hit & ? & ?)]; [by left|].
    right. exists it. split; [|done]. apply elem_of_app. by left.
Qed.

(** With distinct keys every item is found under its key. *)
Lemma dict_lookup_item (m : gmap K V) (l : list T) (it : T) :
  NoDup (map key l) -> it ∈ l ->
  foldl (fun m it => <[key it := val it]> m) m l !! key it = Some (val it).
Proof.
  induction l as [|x l IH] using rev_ind; [by intros _ ?%elem_of_nil|].
  rewrite dict_snoc, map_app. cbn [map]. intros Hnd Hin.
  apply NoDup_app in Hnd as (Hnd & Hdisj & _).
  apply elem_of_app in Hin as [Hin|Hin].
  - rewrite lookup_insert_ne; [by apply IH|].
    intros Heq. apply (Hdisj (key it)).
    + apply list_elem_of_fmap. by exists it.
    + rewrite <- Heq. by apply list_elem_of_singleton.
  - apply list_elem_of_singleton in Hin as ->. apply lookup_insert_eq.
Qed.

End DictFromList.

(** X15. The dictionary [get_status_map] returns has exactly the status ids
    of the response as its keys, every label in it is the name of an item
    with that id, and when the ids of the response are distinct every item
    is found under its id.  The statuses are fetched with a single request
    form, through the executor. *)
Theorem status_map_of_response (cfg : config) (B : backend) (pid : Z)
    (s s' : St B) (t : list event) (m : gmap Z pystr) :
  get_status_map cfg B pid s = (t, Ok m, s') ->
  ∃ r b,
    amo_request B (statuses_req cfg pid) s = (t, Ok r, s')
    ∧ json r = Some b
    ∧ (∀ id, m !! id = None <-> id ∉ map s_id (emb_statuses b))
    ∧ (∀ id label, m !! id = Some label ->
                   ∃ it, it ∈ emb_statuses b ∧ s_id it = id ∧ s_name it = label)
    ∧ (NoDup (map s_id (emb_statuses b)) ->
       ∀ it, it ∈ emb_statuses b -> m !! s_id it = Some (s_name it)).
Proof.
  unfold get_status_map. fold (statuses_req cfg pid). intros H.
  apply bind_ok_inv in H as (t1 & r & s1 & t2 & Hreq & H & ->).
  apply bind_ok_inv in H as (t3 & [] & s3 & t4 & Hst & H & ->).
  apply bind_ok_inv in H as (t5 & b & s5 & t6 & Hj & H & ->).
  unfold ret in H. injection H as <- <- <-.
  unfold raise_for_status in Hst.
  destruct (_ && _); [|discriminate]. injection Hst as <- <-.
  unfold r_json in Hj. destruct (json r) as [b'|] eqn:Ej; [|discriminate].
  injection Hj as <- <- <-.
  exists r, b'. rewrite !app_nil_r. split; [exact Hreq|]. split; [done|].
  split; [|split].
  - intros id. rewrite dict_lookup_None. rewrite lookup_empty. tauto.
  - intros id label Hl. apply dict_lookup_Some in Hl as [Hl|Hl]; [|done].
    by rewrite lookup_empty in Hl.
  - intros Hnd it Hit. by apply dict_lookup_item.
Qed.

Lemma status_map_of_response_demo :
  ∃ r b,
    amo_request scripted (statuses_req demo_cfg 8237934) pull_world
      = ([EvHttp (statuses_req demo_cfg 8237934)], Ok r,
         {| http_script := drop 1 (http_script pull_world);
            sheet_script := sheet_script pull_world |})
    ∧ json r = Some b
    ∧ (∀ id, pull_status_map !! id = None <-> id ∉ map s_id (emb_statuses b)).
Proof.
  destruct (status_map_of_response demo_cfg scripted 8237934 pull_world
              {| http_script := drop 1 (http_script pull_world);
                 sheet_script := sheet_script pull_world |}
              [EvHttp (statuses_req demo_cfg 8237934)] pull_status_map
              eq_refl)
    as (r & b & Hreq & Hj & Hnone & _).
  by exists r, b.
Defined.

(** ** Contact details *)

Section Contacts.

Variable u : interp.
Variable cfg : config.
Variable B : backend.

Lemma normalize_phone_fixed_point (raw : pystr) :
  Forall (fun c => is_decimal u c = true) (normalize_phone u raw)
  ∧ normalize_phone u (normalize_phone u raw) = normalize_phone u raw.
Proof.
  rewrite !normalize_phone_unfold.
  pose proof (normalize_phone_spec_digits u raw) as Hd.
  split; [exact Hd|].
  apply normalize_phone_spec_fixed; [exact Hd| |].
  - unfold normalize_phone_spec.
    repeat case_bool_decide; cbn [length]; try lia.
    destruct (filter _ raw); cbn in *; lia.
  - unfold normalize_phone_spec.
    repeat case_bool_decide; cbn [length head]; intros [Hl Hh];
      try done; tauto.
Qed.

Lemma scan_custom_fields_phone (cfs : list custom_field) :
  ∀ acc : pystr * pystr,
    (Forall (fun c => is_decimal u c = true) acc.1
     ∧ normalize_phone u acc.1 = acc.1) ->
    Forall (fun c => is_decimal u c = true)
           (foldl (scan_custom_field u) acc cfs).1
    ∧ normalize_phone u (foldl (scan_custom_field u) acc cfs).1
      = (foldl (scan_custom_field u) acc cfs).1.
Proof.
  induction cfs as [|cf cfs IH]; intros [phone email] Hacc; [done|].
  cbn [foldl]. apply IH. unfold scan_custom_field. cbn [fst].
  destruct (bool_decide (field_code cf = Some (lit "PHONE"))); [|done].
  destruct (cf_values cf) as [|v vs]; [done|].
  apply normalize_phone_fixed_point.
Qed.

Lemma contact_info_phone (c : contact_json) :
  Forall (fun x => is_decimal u x = true) (ci_phone (contact_info_of u c))
  ∧ normalize_phone u (ci_phone (contact_info_of u c))
    = ci_phone (contact_info_of u c).
Proof.
  unfold contact_info_of.
  pose proof (scan_custom_fields_phone (c_custom_fields_values c) ([], [])
                (conj (Forall_nil_2 _) eq_refl)) as H.
  by destruct (foldl _ _ _) as [phone email].
Qed.

Lemma fetch_contact_chunks_answered (cs : list (list Z)) :
  ∀ out m s s' t,
    fetch_contact_chunks u cfg B cs out s = (t, Ok m, s') ->
    ∃ bs,
      answered cfg B cs bs s t s'
      ∧ m = foldl (fun m c => <[c_id c := contact_info_of u c]> m) out
                  (concat (map emb_contacts bs)).
Proof.
  induction cs as [|ch cs IH]; intros out m s s' t H.
  - cbn in H. injection H as <- <- <-. by exists [].
  - cbn [fetch_contact_chunks] in H. fold (ids_req cfg ch) in H.
    apply bind_ok_inv in H as (t1 & r & s1 & t2 & Hreq & H & ->).
    apply bind_ok_inv in H as (t3 & [] & s3 & t4 & Hst & H & ->).
    apply bind_ok_inv in H as (t5 & b & s5 & t6 & Hjs & H & ->).
    unfold raise_for_status in Hst.
    destruct ((200 <=? status_code r) && (status_code r <=? 299)) eqn:Hrange;
      [|discriminate].
    injection Hst as <- <-.
    unfold r_json in Hjs. destruct (json r) as [b'|] eqn:Ejs; [|discriminate].
    injection Hjs as <- <- <-.
    destruct (IH _ _ _ _ _ H) as (bs & Hans & ->).
    exists (b' :: bs). cbn [answered map concat]. split.
    + exists t1, r, s1, t6.
      apply andb_true_iff in Hrange as [H1 H2].
      apply Z.leb_le in H1. apply Z.leb_le in H2.
      split; [exact Hreq|]. split; [lia|]. split; [exact Ejs|].
      split; [done|exact Hans].
    + by rewrite foldl_app.
Qed.

Lemma amo_request_events (rq : amo_req) (s : St B) :
  Forall (fun e => is_sleep e = true ∨ e = EvHttp rq)
         (trace_of (amo_request B rq s)).
Proof.
  destruct (amo_request_run B rq s) as (k & o & s' & _ & ->).
  unfold trace_of. cbn [fst]. apply Forall_app.
  split; [|constructor; [by right|constructor]].
  unfold amo_retries. generalize 0%nat.
  induction k as [|k IH]; intros a; [constructor|].
  cbn [seq flat_map]. constructor; [by right|].
  constructor; [by left|]. apply IH.
Qed.

Lemma fetch_contact_chunks_events (cs : list (list Z)) :
  ∀ out s,
    Forall (fun e => is_sleep e = true
                     ∨ ∃ ch, ch ∈ cs ∧ e = EvHttp (ids_req cfg ch))
           (trace_of (fetch_contact_chunks u cfg B cs out s)).
Proof.
  induction cs as [|ch cs IH]; intros out s; [constructor|].
  cbn [fetch_contact_chunks]. fold (ids_req cfg ch).
  apply bind_Forall.
  { eapply Forall_impl; [apply amo_request_events|].
    intros e [He| ->]; [by left|right]. exists ch. split; [left|done]. }
  intros r s1. apply bind_Forall; [apply raise_for_status_trace|intros [] s2].
  apply bind_Forall; [apply r_json_trace|intros b s3].
  eapply Forall_impl; [apply IH|].
  intros e [He|(ch' & Hin & ->)]; [by left|right].
  exists ch'. split; [by right|done].
Qed.

End Contacts.

(** X16. The dictionary a successful [fetch_contacts_by_ids] returns is
    built from the contacts of the responses this run received, one
    response per chunk of 50 ids, a later contact with the same id
    replacing an earlier one.  So its keys are the ids of these contacts,
    every entry is the name, phone and e-mail read from one of them, and
    every phone in it is in normal form: decimal digits only and unchanged
    by [normalize_phone]. *)
Theorem fetched_contacts_normalised (u : interp) (cfg : config) (B : backend)
    (ids : list Z) (s s' : St B) (t : list event) (m : gmap Z contact_info) :
  fetch_contacts_by_ids u cfg B ids s = (t, Ok m, s') ->
  ∃ (cs : list (list Z)) (bs : list body),
    chunks ids 50 = Ok cs
    ∧ answered cfg B cs bs s t s'
    ∧ m = foldl (fun m c => <[c_id c := contact_info_of u c]> m) ∅
                (concat (map emb_contacts bs))
    ∧ (∀ cid, m !! cid = None
              <-> cid ∉ map c_id (concat (map emb_contacts bs)))
    ∧ ∀ cid info,
        m !! cid = Some info ->
        (∃ c, c ∈ concat (map emb_contacts bs)
              ∧ c_id c = cid ∧ info = contact_info_of u c)
        ∧ Forall (fun x => is_decimal u x = true) (ci_phone info)
        ∧ normalize_phone u (ci_phone info) = ci_phone info.
Proof.
  intros H.
  assert (∃ cs bs,
    chunks ids 50 = Ok cs
    ∧ answered cfg B cs bs s t s'
    ∧ m = foldl (fun m c => <[c_id c := contact_info_of u c]> m) ∅
                (concat (map emb_contacts bs)))
    as (cs & bs & Hcs & Hans & ->).
  { unfold fetch_contacts_by_ids in H. destruct ids as [|i ids].
    - unfold ret in H. injection H as <- <- <-. by exists [], [].
    - apply bind_ok_inv in H as (t1 & cs & s1 & t2 & Hcs & H & ->).
      unfold lift in Hcs.
      destruct (chunks (i :: ids) 50) as [cs'| |] eqn:E; try discriminate.
      injection Hcs as <- <- <-.
      destruct (fetch_contact_chunks_answered u cfg B _ _ _ _ _ _ H)
        as (bs & Hans & ->).
      by exists cs', bs. }
  exists cs, bs. split; [exact Hcs|]. split; [exact Hans|].
  split; [reflexivity|]. split.
  - intros cid.
    rewrite (dict_lookup_None c_id (contact_info_of u)), lookup_empty.
    tauto.
  - intros cid info Hl.
    apply (dict_lookup_Some c_id (contact_info_of u)) in Hl
      as [Hl|(c & Hin & Hc & <-)]; [by rewrite lookup_empty in Hl|].
    split; [by exists c|]. apply contact_info_phone.
Qed.

Lemma fetched_contacts_normalised_jane :
  fetch_contacts_by_ids ascii_db demo_cfg scripted [11]
    {| http_script := [resp 200 pull_contacts]; sheet_script := [] |}
  = ([EvHttp (ids_req demo_cfg [11])], Ok pull_contacts_map, idle)
  ∧ normalize_phone ascii_db (lit "79991234567") = lit "79991234567".
Proof.
  split; [reflexivity|].
  destruct (fetched_contacts_normalised ascii_db demo_cfg scripted [11]
              {| http_script := [resp 200 pull_contacts]; sheet_script := [] |}
              idle [EvHttp (ids_req demo_cfg [11])] pull_contacts_map eq_refl)
    as (cs & bs & _ & _ & _ & _ & Hsome).
  destruct (Hsome 11 {| ci_name := lit "Jane Doe";
                        ci_phone := lit "79991234567";
                        ci_email := lit "jane@example.com" |} eq_refl)
    as (_ & _ & Hfix).
  exact Hfix.
Defined.

(** X17. [fetch_contacts_by_ids] asks for the ids in consecutive chunks of
    at most 50: every request it sends is the batched contact request of
    one of these chunks, and for an empty id list nothing is sent and the
    dictionary is empty. *)
Theorem contacts_fetched_in_chunks (u : interp) (cfg : config) (B : backend)
    (ids : list Z) (s : St B) :
  ∃ cs,
    chunks ids 50 = Ok cs
    ∧ concat cs = ids
    ∧ Forall (fun ch => (0 < length ch ≤ 50)%nat) cs
    ∧ Forall (fun e => is_sleep e = true
                       ∨ ∃ ch, ch ∈ cs ∧ e = EvHttp (ids_req cfg ch))
             (trace_of (fetch_contacts_by_ids u cfg B ids s))
    ∧ fetch_contacts_by_ids u cfg B [] s = ([], Ok ∅, s).
Proof.
  destruct (chunks_partition ids 50 ltac:(lia)) as (cs & Hc & Hcat & Hlen & _).
  exists cs. split; [done|]. split; [done|]. split; [exact Hlen|].
  split; [|reflexivity].
  unfold fetch_contacts_by_ids. destruct ids as [|i ids]; [constructor|].
  unfold bind, lift. rewrite Hc.
  pose proof (fetch_contact_chunks_events u cfg B cs ∅ s) as He.
  destruct (fetch_contact_chunks u cfg B cs ∅ s) as [[t r] s1].
  exact He.
Qed.

(** ** Pagination *)

Lemma amo_request_served (rq : amo_req) (b : body) (pages : list body)
    (rest : list http_outcome) (sh : list sheet_outcome) :
  amo_request scripted rq (serving (b :: pages) rest sh)
  = ([EvHttp rq], Ok {| status_code := 200; json := Some b |},
     serving pages rest sh).
Proof. reflexivity. Qed.

Lemma fetch_leads_loop_step (cfg : config) (pid page : Z) (fuel : nat)
    (acc : list lead_json) (b : body) (pages : list body)
    (rest : list http_outcome) (sh : list sheet_outcome) :
  fetch_leads_loop cfg scripted (S fuel) pid page acc
    (serving (b :: pages) rest sh)
  = bind (request (B := scripted) (leads_req cfg pid page))
         (fun _ =>
            match emb_leads b with
            | [] => ret acc
            | batch =>
                if truthy_str (or_empty (links_next_href b))
                then fetch_leads_loop cfg scripted fuel pid (page + 1)
                       (acc ++ batch)
                else ret (acc ++ batch)
            end)
         (serving (b :: pages) rest sh).
Proof.
  cbn [fetch_leads_loop]. fold (leads_req cfg pid page).
  unfold bind at 1. rewrite amo_request_served.
  unfold bind at 1, raise_for_status. cbn [status_code].
  change ((200 <=? 200) && (200 <=? 299)) with true. cbv iota.
  unfold ret at 1. unfold bind at 1, r_json. cbn [json]. unfold ret at 1.
  unfold bind, request.
  cbn [httpx_request scripted serving http_script sheet_script map app].
  fold (serving pages rest sh).
  destruct (emb_leads b) as [|l ls]; [reflexivity|].
  destruct (truthy_str _); [|reflexivity].
  by destruct (fetch_leads_loop _ _ _ _ _ _ _) as [[t r] s].
Qed.

Lemma fetch_leads_loop_pages (cfg : config) (pid : Z) (b_last : body)
    (rest : list http_outcome) (sh : list sheet_outcome) :
  is_last b_last ->
  ∀ (bs : list body) (k : nat) (acc : list lead_json) (fuel : nat),
    Forall has_next bs ->
    (length bs < fuel)%nat ->
    fetch_leads_loop cfg scripted fuel pid (Z.of_nat k) acc
      (serving (bs ++ [b_last]) rest sh)
    = (map (fun i => EvHttp (leads_req cfg pid (Z.of_nat i)))
           (seq k (S (length bs))),
       Ok (acc ++ concat (map emb_leads (bs ++ [b_last]))),
       serving [] rest sh).
Proof.
  intros Hlast.
  induction bs as [|b bs IH]; intros k acc fuel Hbs Hfuel;
    (destruct fuel as [|fuel]; [cbn in Hfuel; lia|]);
    cbn [app]; rewrite fetch_leads_loop_step; unfold bind, request;
    cbn [httpx_request scripted serving http_script sheet_script map app].
  - cbn [length seq map concat]. rewrite app_nil_r.
    destruct Hlast as [Hl|Hl].
    + rewrite Hl, app_nil_r. reflexivity.
    + destruct (emb_leads b_last) as [|l ls]; [by rewrite app_nil_r|].
      rewrite Hl. reflexivity.
  - apply Forall_cons in Hbs as [[Hne Hnext] Hbs].
    cbn [length] in Hfuel.
    remember (emb_leads b) as batch eqn:El.
    destruct batch as [|l ls]; [done|].
    rewrite Hnext.
    replace (Z.of_nat k + 1) with (Z.of_nat (S k)) by lia.
    fold (serving (bs ++ [b_last]) rest sh).
    rewrite (IH (S k) (acc ++ l :: ls) fuel Hbs ltac:(lia)).
    cbn [length seq map concat]. rewrite <- !app_assoc. reflexivity.
Qed.

(** X18. Against a CRM that answers page after page,
    [fetch_leads_with_contacts] asks for pages 1, 2, ... in order, stops
    at the first page that has no deals or no [next] link without asking
    further, and returns the deals of the pages it read, in page order;
    any fuel above the number of pages read gives this result. *)
Theorem leads_pages_concatenated (cfg : config) (pid : Z)
    (bs : list body) (b_last : body) (rest : list http_outcome)
    (sh : list sheet_outcome) (fuel : nat) :
  Forall has_next bs ->
  is_last b_last ->
  (length bs < fuel)%nat ->
  fetch_leads_with_contacts cfg scripted fuel pid
    (serving (bs ++ [b_last]) rest sh)
  = (map (fun i => EvHttp (leads_req cfg pid (Z.of_nat i)))
         (seq 1 (S (length bs))),
     Ok (concat (map emb_leads (bs ++ [b_last]))),
     serving [] rest sh).
Proof.
  intros Hbs Hlast Hfuel. unfold fetch_leads_with_contacts.
  exact (fetch_leads_loop_pages cfg pid b_last rest sh Hlast bs 1 [] fuel
           Hbs Hfuel).
Qed.

Lemma leads_pages_concatenated_two :
  let first := {| emb_contacts := []; emb_leads := pull_leads;
                  emb_statuses := [];
                  links_next_href := Some (lit "/api/v4/leads?page=2") |} in
  fetch_leads_with_contacts demo_cfg scripted 2 8237934
    (serving ([first] ++ [pull_leads_page]) [resp 200 pull_leads_page] [])
  = (map (fun i => EvHttp (leads_req demo_cfg 8237934 (Z.of_nat i))) [1; 2]%nat,
     Ok (concat [pull_leads; pull_leads]),
     serving [] [resp 200 pull_leads_page] []).
Proof.
  intros first.
  apply (leads_pages_concatenated demo_cfg 8237934 [first] pull_leads_page
           [resp 200 pull_leads_page] [] 2).
  - constructor; [|constructor]. split; [discriminate|reflexivity].
  - right. reflexivity.
  - cbn. lia.
Defined.

(** ** Contact details, written and read back *)

(** X19. The request [amo_create_contact] sends for a row comes first in
    its trace, and the contact it describes, read back by the loop of
    [fetch_contacts_by_ids], gives the row's name, its phone in normal
    form and its email: the PHONE and EMAIL fields left out for an empty
    value read back as the empty string. *)
Theorem created_contact_reads_back (u : interp) (cfg : config) (B : backend)
    (d : intake_row) (id : Z) (s : St B) :
  [EvHttp (create_contact_req u cfg d)]
    `prefix_of` trace_of (amo_create_contact u cfg B (name d) (phone d)
                            (email d) s)
  ∧ (contact_info_of u <$> stored_contact id (create_contact_req u cfg d))
    = Some {| ci_name := name d;
              ci_phone := normalize_phone u (phone d);
              ci_email := email d |}.
Proof.
  split; [apply amo_create_contact_first_event|].
  unfold stored_contact, create_contact_req. cbn [data fmap option_fmap option_map].
  f_equal. unfold contact_info_of, stored_fields.
  cbn [c_custom_fields_values c_name or_empty].
  assert (lit "PHONE" ≠ lit "EMAIL") as Hpe by (vm_compute; discriminate).
  destruct (normalize_phone_fixed_point u (phone d)) as [_ Hfix].
  destruct (normalize_phone u (phone d)) as [|c np] eqn:En;
    destruct (email d) as [|e em] eqn:Ee;
    cbn [truthy_str app map foldl scan_custom_field field_code cf_values
         or_empty];
    repeat (rewrite bool_decide_eq_true_2 by done);
    repeat (rewrite bool_decide_eq_false_2 by congruence);
    rewrite ?Hfix; reflexivity.
Qed.
